(** * API-Bancaria-FastAPI: the in-memory ledger of [database.py]

    A shallow embedding of [DatabaseSimulator] (database.py), of the
    request and response models of transactions (models.py) and of the
    handlers of main.py for accounts, transactions and statements,
    followed by the properties of the ledger.

    Python values are embedded as follows.
    - [int] is [Z]; [str] is the [string] of its UTF-8 bytes, with [len]
      counting characters; [dict] used as a table is a [gmap];
      a [dict] used as a record is a Rocq record with one field per key.
    - [float] is a type [M] with the operations the code applies to it
      (class [PyFloat]): the literal [0.0], [+], [-], [<], [<=] and
      [round(_, 2)].  Every definition and every structural theorem is
      generic in [M].  [Binary64] is the instance the program runs on:
      IEEE 754 doubles, with their infinities and NaN.  [Decimal] (exact
      rationals) is a second arithmetic with the same rules of rounding
      and sign, on which the generic theorems are shown at work too.
    - [datetime.now()] and [random.randint(0, 9)] are read from the
      environment: the value read is an extra argument of the method.
    - a method is a function from the store to an outcome (a returned value
      or a raised exception) and the store at that point. *)

From Stdlib Require Import ZArith QArith Lqa Floats Ascii String.
From stdpp Require Import gmap strings list fin_maps pretty sorting.

Local Open Scope Z_scope.

(** ** Arithmetic of [float] values *)

Class PyFloat (M : Type) := {
  f_zero : M;               (* 0.0, and the int 0 that [sum] starts from *)
  f_add : M -> M -> M;      (* x + y *)
  f_sub : M -> M -> M;      (* x - y *)
  f_lt : M -> M -> bool;    (* x < y *)
  f_le : M -> M -> bool;    (* x <= y *)
  f_round2 : M -> M         (* round(x, 2) *)
}.

(** [round(_, 2)] returns a value with two decimals, which it leaves alone. *)
Class RoundLaws (M : Type) `{PyFloat M} : Prop := {
  round2_idem : forall x : M, f_round2 (f_round2 x) = f_round2 x;
  round2_zero : f_round2 (f_zero : M) = f_zero
}.

(** [math.isfinite(x)]: the code never calls it; the statements about
    balances use it to name the amounts that are neither an infinity nor
    a NaN. *)
Class Finitude (M : Type) := f_isfinite : M -> bool.

(** Sign rules used by the balance invariant.  The difference of two
    values that are [>= 0] is asked to be [>= 0] only when the value taken
    away is finite and not above the other: on doubles [inf - inf] is NaN. *)
Class SignLaws (M : Type) `{PyFloat M} `{Finitude M} : Prop := {
  sinal_zero : f_le (f_zero : M) f_zero = true;
  sinal_lt_le : forall v : M,
    f_lt f_zero v = true -> f_le f_zero v = true;
  sinal_round : forall x : M,
    f_le f_zero x = true -> f_le f_zero (f_round2 x) = true;
  sinal_add : forall a w : M,
    f_le f_zero a = true -> f_le f_zero w = true ->
    f_le f_zero (f_add a w) = true;
  sinal_sub : forall a w : M,
    f_le f_zero a = true -> f_le f_zero w = true ->
    f_isfinite w = true -> f_lt a w = false ->
    f_le f_zero (f_sub a w) = true
}.

(** [round(_, 2)] of a finite value is finite. *)
Class RoundFinite (M : Type) `{PyFloat M} `{Finitude M} : Prop :=
  round2_finite : forall v : M,
    f_isfinite v = true -> f_isfinite (f_round2 v) = true.

(** Quotient [a / b] of integers ([0 < b]) rounded to the nearest integer,
    ties to the even one: the rounding rule of Python's [round]. *)
Definition rne_div (a b : Z) : Z :=
  let q := a / b in
  let r := a mod b in
  if 2 * r <? b then q
  else if b <? 2 * r then q + 1
  else if Z.even q then q else q + 1.

(** *** Binary64: the floats Python computes with

    [round(x, 2)] on a finite double [x = (-1)^s * m * 2^e] is the double
    nearest to the two-decimal number nearest to [x] (ties to even).  With
    [n] the integer nearest to [100 * |x|], that double is the correctly
    rounded quotient [n / 100] as long as [n] is itself a double
    ([n < 2^53]); from there on the doubles are at least 1/64 apart, so the
    double nearest to a number within 0.005 of [x] is [x].  Zeros,
    infinities and NaN are returned as they are. *)
Definition round2_binary64 (x : float) : float :=
  match Prim2SF x with
  | S754_finite s m e =>
      let n := if 0 <=? e then Z.pos m * 2 ^ e * 100
               else rne_div (Z.pos m * 100) (2 ^ (- e)) in
      if n <? 2 ^ 53 then
        let y := PrimFloat.div (PrimFloat.of_uint63 (Uint63.of_Z n)) 100%float in
        if s then PrimFloat.opp y else y
      else x
  | _ => x
  end.

#[export] Instance Binary64 : PyFloat float := {|
  f_zero := 0%float;
  f_add := PrimFloat.add;
  f_sub := PrimFloat.sub;
  f_lt := PrimFloat.ltb;
  f_le := PrimFloat.leb;
  f_round2 := round2_binary64
|}.

#[export] Instance Binary64_finito : Finitude float := PrimFloat.is_finite.

(** The doubles that are [>= 0.0] and the finite ones, read on the
    sign, mantissa and exponent of the IEEE 754 value. *)
Definition nao_negativo (x : spec_float) : bool :=
  match x with
  | S754_zero _ => true
  | S754_infinity s | S754_finite s _ _ => negb s
  | S754_nan => false
  end.

Definition finito (x : spec_float) : bool :=
  match x with
  | S754_zero _ | S754_finite _ _ _ => true
  | _ => false
  end.

(** The double 100.0. *)
Definition cem : spec_float := S754_finite false 7036874417766400 (-46).

(** *** Decimal: exact arithmetic on rationals, kept in lowest terms by
    [round(_, 2)].  It is not the arithmetic the program runs: it is a
    second arithmetic in which the rules of [RoundLaws] and [SignLaws]
    hold as well, used to show the structural theorems at work on amounts
    that need rounding. *)
Definition round2_decimal (x : Q) : Q :=
  Qred (rne_div (Qnum x * 100) (Z.pos (Qden x)) # 100).

#[export] Instance Decimal : PyFloat Q := {|
  f_zero := 0%Q;
  f_add := Qplus;
  f_sub := Qminus;
  f_lt := fun x y => negb (Qle_bool y x);
  f_le := Qle_bool;
  f_round2 := round2_decimal
|}.

#[export] Instance Decimal_finito : Finitude Q := fun _ => true.

(** ** models.py: enumerations *)

Inductive TipoTransacao := DEPOSITO | SAQUE.

Definition TipoTransacao_value (t : TipoTransacao) : string :=
  match t with DEPOSITO => "deposito" | SAQUE => "saque" end.

Inductive TipoConta := CORRENTE | POUPANCA.

Definition TipoConta_value (t : TipoConta) : string :=
  match t with CORRENTE => "corrente" | POUPANCA => "poupanca" end.

#[global] Instance TipoTransacao_eq_dec : EqDecision TipoTransacao.
Proof. solve_decision. Defined.

(** ** Exceptions and outcomes *)

(** What [str(e)] gives for the exceptions the handlers catch: the message
    a [ValueError] was raised with, or the report that pydantic prints for
    a validation error.  Of that report, whose wording belongs to pydantic,
    only the field it is about is kept. *)
Inductive detalhe :=
  | Mensagem (msg : string)
  | Relatorio (campo : string).

Coercion Mensagem : string >-> detalhe.

Inductive excecao :=
  | ValueError (msg : string)
  | KeyError
  | ValidationError (campo : string)      (* pydantic; a ValueError too *)
  | HTTPException (status_code : Z) (detail : detalhe).
Arguments HTTPException status_code%_Z detail%_string.

(** [except ValueError as e]: for an instance of [ValueError], the
    [str(e)] that the handler puts in the answer; [None] for the
    exceptions that the clause lets through. *)
Definition ValueError_str (e : excecao) : option detalhe :=
  match e with
  | ValueError msg => Some (Mensagem msg)
  | ValidationError campo => Some (Relatorio campo)
  | KeyError | HTTPException _ _ => None
  end.

Inductive resultado (A : Type) :=
  | Retorna (a : A)
  | Levanta (e : excecao).
Arguments Retorna {A} a.
Arguments Levanta {A} e.

(** The error kinds of the specification, as the exceptions the code raises. *)
Definition DuplicateIdentity : excecao := ValueError "CPF já cadastrado".
Definition UnknownUser : excecao := ValueError "Usuário não encontrado".
Definition AccountAlreadyExists : excecao := ValueError "Usuário já possui uma conta".
Definition AccountNotFound : excecao := ValueError "Conta não encontrada".
Definition InsufficientFunds : excecao :=
  ValueError "Saldo insuficiente para realizar o saque".
Definition InvalidAmount : excecao := ValidationError "valor".

(** ** str helpers used by [gerar_numero_conta] *)

Fixpoint zeros (n : nat) : string :=
  match n with O => EmptyString | S n' => String "0"%char (zeros n') end.

(** [s.zfill(width)]: pad with zeros on the left, after a leading sign. *)
Definition zfill (width : nat) (s : string) : string :=
  if (width <=? String.length s)%nat then s
  else
    let pad := zeros (width - String.length s) in
    match s with
    | String c rest =>
        if (Ascii.eqb c "-"%char || Ascii.eqb c "+"%char)%bool
        then String c (pad +:+ rest) else pad +:+ s
    | EmptyString => pad
    end.

(** [len(s)] of a [str]: a string is held as the bytes of its UTF-8
    encoding, and its length is the number of its characters, that is of
    the bytes that do not continue a character (those outside 0x80-0xBF). *)
Definition continuacao (c : ascii) : bool :=
  (128 <=? nat_of_ascii c)%nat && (nat_of_ascii c <? 192)%nat.

Fixpoint len (s : string) : nat :=
  match s with
  | EmptyString => O
  | String c r => if continuacao c then len r else S (len r)
  end.

(** [s * n] *)
Fixpoint repetir (n : nat) (s : string) : string :=
  match n with O => EmptyString | S n' => s +:+ repetir n' s end.

(** Strings made of the characters 0 to 9. *)
Definition digito_ascii (c : ascii) : bool :=
  (48 <=? nat_of_ascii c)%nat && (nat_of_ascii c <=? 57)%nat.

Fixpoint so_digitos (s : string) : bool :=
  match s with
  | EmptyString => true
  | String c r => digito_ascii c && so_digitos r
  end.

Section Ledger.
Context {M : Type} `{Num : PyFloat M}.

(** ** The stored dictionaries *)

Record usuario := {
  u_id : Z;
  u_nome : string;
  u_cpf : string;
  u_senha_hash : string;
  u_data_criacao : Z
}.

Record conta := {
  c_id : Z;
  c_numero_conta : string;
  c_tipo_conta : string;
  c_saldo : M;
  c_usuario_id : Z;
  c_data_criacao : Z
}.

Record transacao := {
  t_id : Z;
  t_conta_id : Z;
  t_tipo : string;
  t_valor : M;
  t_descricao : option string;
  t_saldo_anterior : M;
  t_saldo_posterior : M;
  t_data_transacao : Z
}.

(** ** class DatabaseSimulator *)

Record DatabaseSimulator := {
  usuarios : gmap Z usuario;
  contas : gmap Z conta;
  transacoes : gmap Z transacao;
  usuario_id_counter : Z;
  conta_id_counter : Z;
  transacao_id_counter : Z;
  cpf_to_usuario_id : gmap string Z;
  usuario_id_to_conta_id : gmap Z Z;
  conta_id_to_transacoes : gmap Z (list Z)
}.

(** [__init__] *)
Definition db_init : DatabaseSimulator := {|
  usuarios := ∅;
  contas := ∅;
  transacoes := ∅;
  usuario_id_counter := 1;
  conta_id_counter := 1;
  transacao_id_counter := 1;
  cpf_to_usuario_id := ∅;
  usuario_id_to_conta_id := ∅;
  conta_id_to_transacoes := ∅
|}.

(** Assignment to one attribute of [self]. *)
Definition set_usuarios v (s : DatabaseSimulator) :=
  {| usuarios := v; contas := contas s; transacoes := transacoes s;
     usuario_id_counter := usuario_id_counter s;
     conta_id_counter := conta_id_counter s;
     transacao_id_counter := transacao_id_counter s;
     cpf_to_usuario_id := cpf_to_usuario_id s;
     usuario_id_to_conta_id := usuario_id_to_conta_id s;
     conta_id_to_transacoes := conta_id_to_transacoes s |}.
Definition set_contas v (s : DatabaseSimulator) :=
  {| usuarios := usuarios s; contas := v; transacoes := transacoes s;
     usuario_id_counter := usuario_id_counter s;
     conta_id_counter := conta_id_counter s;
     transacao_id_counter := transacao_id_counter s;
     cpf_to_usuario_id := cpf_to_usuario_id s;
     usuario_id_to_conta_id := usuario_id_to_conta_id s;
     conta_id_to_transacoes := conta_id_to_transacoes s |}.
Definition set_transacoes v (s : DatabaseSimulator) :=
  {| usuarios := usuarios s; contas := contas s; transacoes := v;
     usuario_id_counter := usuario_id_counter s;
     conta_id_counter := conta_id_counter s;
     transacao_id_counter := transacao_id_counter s;
     cpf_to_usuario_id := cpf_to_usuario_id s;
     usuario_id_to_conta_id := usuario_id_to_conta_id s;
     conta_id_to_transacoes := conta_id_to_transacoes s |}.
Definition set_usuario_id_counter v (s : DatabaseSimulator) :=
  {| usuarios := usuarios s; contas := contas s; transacoes := transacoes s;
     usuario_id_counter := v;
     conta_id_counter := conta_id_counter s;
     transacao_id_counter := transacao_id_counter s;
     cpf_to_usuario_id := cpf_to_usuario_id s;
     usuario_id_to_conta_id := usuario_id_to_conta_id s;
     conta_id_to_transacoes := conta_id_to_transacoes s |}.
Definition set_conta_id_counter v (s : DatabaseSimulator) :=
  {| usuarios := usuarios s; contas := contas s; transacoes := transacoes s;
     usuario_id_counter := usuario_id_counter s;
     conta_id_counter := v;
     transacao_id_counter := transacao_id_counter s;
     cpf_to_usuario_id := cpf_to_usuario_id s;
     usuario_id_to_conta_id := usuario_id_to_conta_id s;
     conta_id_to_transacoes := conta_id_to_transacoes s |}.
Definition set_transacao_id_counter v (s : DatabaseSimulator) :=
  {| usuarios := usuarios s; contas := contas s; transacoes := transacoes s;
     usuario_id_counter := usuario_id_counter s;
     conta_id_counter := conta_id_counter s;
     transacao_id_counter := v;
     cpf_to_usuario_id := cpf_to_usuario_id s;
     usuario_id_to_conta_id := usuario_id_to_conta_id s;
     conta_id_to_transacoes := conta_id_to_transacoes s |}.
Definition set_cpf_to_usuario_id v (s : DatabaseSimulator) :=
  {| usuarios := usuarios s; contas := contas s; transacoes := transacoes s;
     usuario_id_counter := usuario_id_counter s;
     conta_id_counter := conta_id_counter s;
     transacao_id_counter := transacao_id_counter s;
     cpf_to_usuario_id := v;
     usuario_id_to_conta_id := usuario_id_to_conta_id s;
     conta_id_to_transacoes := conta_id_to_transacoes s |}.
Definition set_usuario_id_to_conta_id v (s : DatabaseSimulator) :=
  {| usuarios := usuarios s; contas := contas s; transacoes := transacoes s;
     usuario_id_counter := usuario_id_counter s;
     conta_id_counter := conta_id_counter s;
     transacao_id_counter := transacao_id_counter s;
     cpf_to_usuario_id := cpf_to_usuario_id s;
     usuario_id_to_conta_id := v;
     conta_id_to_transacoes := conta_id_to_transacoes s |}.
Definition set_conta_id_to_transacoes v (s : DatabaseSimulator) :=
  {| usuarios := usuarios s; contas := contas s; transacoes := transacoes s;
     usuario_id_counter := usuario_id_counter s;
     conta_id_counter := conta_id_counter s;
     transacao_id_counter := transacao_id_counter s;
     cpf_to_usuario_id := cpf_to_usuario_id s;
     usuario_id_to_conta_id := usuario_id_to_conta_id s;
     conta_id_to_transacoes := v |}.

(** [conta["saldo"] = v] on a stored account. *)
Definition com_saldo (v : M) (c : conta) : conta :=
  {| c_id := c_id c; c_numero_conta := c_numero_conta c;
     c_tipo_conta := c_tipo_conta c; c_saldo := v;
     c_usuario_id := c_usuario_id c; c_data_criacao := c_data_criacao c |}.

(** ** Methods: store in, outcome and store out *)

Definition Metodo (A : Type) : Type :=
  DatabaseSimulator -> resultado A * DatabaseSimulator.

Definition retornar {A} (a : A) : Metodo A := fun s => (Retorna a, s).
Definition levantar {A} (e : excecao) : Metodo A := fun s => (Levanta e, s).
Definition ligar {A B} (m : Metodo A) (k : A -> Metodo B) : Metodo B :=
  fun s => match m s with
           | (Retorna a, s') => k a s'
           | (Levanta e, s') => (Levanta e, s')
           end.
Definition ler {A} (f : DatabaseSimulator -> A) : Metodo A :=
  fun s => (Retorna (f s), s).
Definition atribuir (f : DatabaseSimulator -> DatabaseSimulator) : Metodo unit :=
  fun s => (Retorna tt, f s).

(** [try: m  except ValueError as e: h(str(e))] *)
Definition tentar {A} (m : Metodo A) (h : detalhe -> Metodo A) : Metodo A :=
  fun s => match m s with
           | (Levanta e, s') =>
               match ValueError_str e with
               | Some d => h d s'
               | None => (Levanta e, s')
               end
           | r => r
           end.

#[export] Instance Metodo_bind : MBind Metodo := fun A B k m => ligar m k.

(** *** database.py *)

(** [gerar_numero_conta]; [digito] is the value of [random.randint(0, 9)]. *)
Definition gerar_numero_conta (digito : Z) : Metodo string :=
  contador ← ler conta_id_counter;
  let agencia := "0001" in
  let numero := zfill 6 (pretty contador) in
  retornar (agencia +:+ "-" +:+ numero +:+ "-" +:+ pretty digito).

(** [criar_usuario]; [agora] is the value of [datetime.now()]. *)
Definition criar_usuario (nome cpf senha_hash : string) (agora : Z)
  : Metodo usuario :=
  indice ← ler cpf_to_usuario_id;
  match indice !! cpf with
  | Some _ => levantar (ValueError "CPF já cadastrado")
  | None =>
      usuario_id ← ler usuario_id_counter;
      atribuir (fun s => set_usuario_id_counter (usuario_id_counter s + 1) s);;
      let usuario := {| u_id := usuario_id; u_nome := nome; u_cpf := cpf;
                        u_senha_hash := senha_hash;
                        u_data_criacao := agora |} in
      atribuir (fun s => set_usuarios (<[usuario_id := usuario]> (usuarios s)) s);;
      atribuir (fun s =>
        set_cpf_to_usuario_id (<[cpf := usuario_id]> (cpf_to_usuario_id s)) s);;
      retornar usuario
  end.

(** [if x:] on an [Optional[int]]: [None] and [0] are both false. *)
Definition verdadeiro (x : option Z) : bool :=
  match x with Some n => negb (n =? 0) | None => false end.

Definition obter_usuario_por_cpf (cpf : string) : Metodo (option usuario) :=
  usuario_id ← ler (fun s => cpf_to_usuario_id s !! cpf);
  if verdadeiro usuario_id
  then ler (fun s => usuario_id ≫= fun i => usuarios s !! i)
  else retornar None.

Definition obter_usuario_por_id (usuario_id : Z) : Metodo (option usuario) :=
  ler (fun s => usuarios s !! usuario_id).

(** [criar_conta]; the account number is generated after the counter
    has been incremented, as in the source. *)
Definition criar_conta (usuario_id : Z) (tipo_conta : TipoConta)
    (digito agora : Z) : Metodo conta :=
  us ← ler usuarios;
  match us !! usuario_id with
  | None => levantar (ValueError "Usuário não encontrado")
  | Some _ =>
      indice ← ler usuario_id_to_conta_id;
      match indice !! usuario_id with
      | Some _ => levantar (ValueError "Usuário já possui uma conta")
      | None =>
          conta_id ← ler conta_id_counter;
          atribuir (fun s => set_conta_id_counter (conta_id_counter s + 1) s);;
          numero ← gerar_numero_conta digito;
          let conta := {| c_id := conta_id; c_numero_conta := numero;
                          c_tipo_conta := TipoConta_value tipo_conta;
                          c_saldo := f_zero;
                          c_usuario_id := usuario_id;
                          c_data_criacao := agora |} in
          atribuir (fun s => set_contas (<[conta_id := conta]> (contas s)) s);;
          atribuir (fun s => set_usuario_id_to_conta_id
                      (<[usuario_id := conta_id]> (usuario_id_to_conta_id s)) s);;
          atribuir (fun s => set_conta_id_to_transacoes
                      (<[conta_id := []]> (conta_id_to_transacoes s)) s);;
          retornar conta
      end
  end.

Definition obter_conta_por_usuario (usuario_id : Z) : Metodo (option conta) :=
  conta_id ← ler (fun s => usuario_id_to_conta_id s !! usuario_id);
  if verdadeiro conta_id
  then ler (fun s => conta_id ≫= fun i => contas s !! i)
  else retornar None.

Definition obter_conta_por_id (conta_id : Z) : Metodo (option conta) :=
  ler (fun s => contas s !! conta_id).

Definition atualizar_saldo (conta_id : Z) (novo_saldo : M) : Metodo unit :=
  cs ← ler contas;
  match cs !! conta_id with
  | Some c =>
      atribuir (fun s =>
        set_contas (<[conta_id := com_saldo (f_round2 novo_saldo) c]> (contas s)) s)
  | None => retornar tt
  end.

Definition criar_transacao (conta_id : Z) (tipo : TipoTransacao) (valor : M)
    (descricao : option string) (agora : Z) : Metodo transacao :=
  conta ← obter_conta_por_id conta_id;
  match conta with
  | None => levantar (ValueError "Conta não encontrada")
  | Some conta =>
      let saldo_anterior := c_saldo conta in
      saldo_posterior ←
        (if decide (tipo = SAQUE) then
           if f_lt saldo_anterior valor
           then levantar (ValueError "Saldo insuficiente para realizar o saque")
           else retornar (f_sub saldo_anterior valor)
         else retornar (f_add saldo_anterior valor));
      transacao_id ← ler transacao_id_counter;
      atribuir (fun s =>
        set_transacao_id_counter (transacao_id_counter s + 1) s);;
      let transacao := {| t_id := transacao_id; t_conta_id := conta_id;
                          t_tipo := TipoTransacao_value tipo;
                          t_valor := f_round2 valor;
                          t_descricao := descricao;
                          t_saldo_anterior := f_round2 saldo_anterior;
                          t_saldo_posterior := f_round2 saldo_posterior;
                          t_data_transacao := agora |} in
      atribuir (fun s =>
        set_transacoes (<[transacao_id := transacao]> (transacoes s)) s);;
      indice ← ler conta_id_to_transacoes;
      match indice !! conta_id with
      | None => levantar KeyError
      | Some ids =>
          atribuir (fun s => set_conta_id_to_transacoes
                      (<[conta_id := ids ++ [transacao_id]]>
                         (conta_id_to_transacoes s)) s)
      end;;
      atualizar_saldo conta_id saldo_posterior;;
      retornar transacao
  end.

Definition obter_transacoes_por_conta (conta_id : Z) : Metodo (list transacao) :=
  indice ← ler conta_id_to_transacoes;
  let transacao_ids := default [] (indice !! conta_id) in
  ts ← ler transacoes;
  match mapM (fun tid => ts !! tid) transacao_ids with
  | Some l => retornar l
  | None => levantar KeyError
  end.

Record estatisticas := {
  total_depositos : M;
  total_saques : M;
  quantidade_transacoes : Z
}.

(** [sum(xs)]: additions from the left, starting at 0.  (From CPython
    3.12 on, [sum] compensates the rounding errors of float additions; the
    two agree whenever the additions are exact.) *)
Definition sum (xs : list M) : M := foldl f_add f_zero xs.

(** [t["valor"] for t in transacoes if t["tipo"] == tipo.value] *)
Definition valores_do_tipo (tipo : TipoTransacao) (l : list transacao) : list M :=
  t_valor <$> filter (fun t => t_tipo t = TipoTransacao_value tipo) l.

Definition obter_estatisticas_conta (conta_id : Z) : Metodo estatisticas :=
  transacoes ← obter_transacoes_por_conta conta_id;
  let total_depositos := sum (valores_do_tipo DEPOSITO transacoes) in
  let total_saques := sum (valores_do_tipo SAQUE transacoes) in
  retornar {| total_depositos := f_round2 total_depositos;
              total_saques := f_round2 total_saques;
              quantidade_transacoes := Z.of_nat (length transacoes) |}.

(** *** models.py: the request schema [TransacaoBase] *)

Record TransacaoCreate := {
  valor : M;
  descricao : option string
}.

(** The validator of the field [valor]. *)
Definition validar_valor_positivo (v : M) : resultado M :=
  if f_le v f_zero
  then Levanta (ValueError "O valor da transação deve ser positivo")
  else Retorna (f_round2 v).

(** Building a [TransacaoCreate] from a request body: the constraint
    [gt=0] of the field, its validator, and [max_length=200] of the
    description, counted in characters.  A failure is reported as a
    validation error on the field. *)
Definition TransacaoCreate_validar (v : M) (d : option string)
  : resultado TransacaoCreate :=
  if negb (f_lt f_zero v) then Levanta (ValidationError "valor")
  else match validar_valor_positivo v with
       | Levanta _ => Levanta (ValidationError "valor")
       | Retorna v' =>
           if (200 <? Z.of_nat (len (default EmptyString d)))
           then Levanta (ValidationError "descricao")
           else Retorna {| valor := v'; descricao := d |}
       end.

(** Building the response [Transacao] from the stored dictionary: the
    response model has the same field [valor], so the stored transaction
    goes through the same validation; the other keys have the types the
    model asks for. *)
Definition Transacao_validar (t : transacao) : resultado transacao :=
  match TransacaoCreate_validar (t_valor t) (t_descricao t) with
  | Levanta e => Levanta e
  | Retorna x =>
      Retorna {| t_id := t_id t; t_conta_id := t_conta_id t; t_tipo := t_tipo t;
                 t_valor := valor x; t_descricao := descricao x;
                 t_saldo_anterior := t_saldo_anterior t;
                 t_saldo_posterior := t_saldo_posterior t;
                 t_data_transacao := t_data_transacao t |}
  end.

(** *** main.py: the two transaction handlers, for an authenticated CPF

    The body of the request is validated before the handler runs; inside
    the handler, the call of the engine and the construction of the
    response are both under [try ... except ValueError]. *)

Definition realizar_transacao (tipo : TipoTransacao) (v : M)
    (d : option string) (cpf_atual : string) (agora : Z) : Metodo transacao :=
  match TransacaoCreate_validar v d with
  | Levanta e => levantar e
  | Retorna transacao =>
      usuario ← obter_usuario_por_cpf cpf_atual;
      match usuario with
      | None => levantar (HTTPException 404 "Usuário não encontrado")
      | Some usuario =>
          conta ← obter_conta_por_usuario (u_id usuario);
          match conta with
          | None =>
              levantar (HTTPException 404
                          "Conta não encontrada. Crie uma conta primeiro.")
          | Some conta =>
              tentar
                (transacao_criada ←
                   criar_transacao (c_id conta) tipo (valor transacao)
                     (descricao transacao) agora;
                 match Transacao_validar transacao_criada with
                 | Retorna resposta => retornar resposta
                 | Levanta e => levantar e
                 end)
                (fun d => levantar (HTTPException 400 d))
          end
      end
  end.

Definition realizar_deposito := realizar_transacao DEPOSITO.
Definition realizar_saque := realizar_transacao SAQUE.

(** ** Histories of core operations *)

Inductive operacao :=
  | Registrar (nome cpf senha_hash : string) (agora : Z)
  | AbrirConta (usuario_id : Z) (tipo_conta : TipoConta) (digito agora : Z)
  | Transacionar (conta_id : Z) (tipo : TipoTransacao) (valor : M)
      (descricao : option string) (agora : Z).

(** The store an operation leaves behind, whether it returned or raised. *)
Definition executar (s : DatabaseSimulator) (op : operacao) : DatabaseSimulator :=
  match op with
  | Registrar n c h t => snd (criar_usuario n c h t s)
  | AbrirConta u k d t => snd (criar_conta u k d t s)
  | Transacionar c k v d t => snd (criar_transacao c k v d t s)
  end.

Definition executar_todas (ops : list operacao) : DatabaseSimulator :=
  foldl executar db_init ops.

Definition alcancavel (s : DatabaseSimulator) : Prop :=
  exists ops, s = executar_todas ops.

(** An applied amount that is [> 0], as the request schema asks, and
    finite when it is withdrawn. *)
Definition valor_admissivel `{Fin : Finitude M} (op : operacao) : Prop :=
  match op with
  | Transacionar _ tipo v _ _ =>
      f_lt f_zero v = true /\ (tipo = SAQUE -> f_isfinite v = true)
  | _ => True
  end.

(** An applied amount that is [>= 0], and finite when it is withdrawn:
    what the balance invariant needs of an amount. *)
Definition valor_nao_negativo `{Fin : Finitude M} (op : operacao) : Prop :=
  match op with
  | Transacionar _ tipo w _ _ =>
      f_le f_zero w = true /\ (tipo = SAQUE -> f_isfinite w = true)
  | _ => True
  end.

(** ** Reading a ledger *)

(** [cadeia b l b']: starting from balance [b], every transaction of [l]
    records as balance-before the balance-after of the one before it, and
    the last balance-after is [b']. *)
Inductive cadeia : M -> list transacao -> M -> Prop :=
  | cadeia_nil b : cadeia b [] b
  | cadeia_cons b t l b' :
      t_saldo_anterior t = b ->
      cadeia (t_saldo_posterior t) l b' ->
      cadeia b (t :: l) b'.

(** Folding the recorded balances from [b]. *)
Definition saldo_final (b : M) (l : list transacao) : M :=
  foldl (fun _ t => t_saldo_posterior t) b l.

(** ** Descriptions used in the statements *)

(** The balance that a transaction of kind [tipo] computes. *)
Definition novo_saldo (tipo : TipoTransacao) (saldo v : M) : M :=
  match tipo with
  | DEPOSITO => f_add saldo v
  | SAQUE => f_sub saldo v
  end.

(** The record that [criar_transacao] builds. *)
Definition registro (s : DatabaseSimulator) (conta_id : Z) (tipo : TipoTransacao)
    (v : M) (d : option string) (agora : Z) (c : conta) : transacao :=
  {| t_id := transacao_id_counter s; t_conta_id := conta_id;
     t_tipo := TipoTransacao_value tipo; t_valor := f_round2 v;
     t_descricao := d;
     t_saldo_anterior := f_round2 (c_saldo c);
     t_saldo_posterior := f_round2 (novo_saldo tipo (c_saldo c) v);
     t_data_transacao := agora |}.

(** The store after a transaction that went through. *)
Definition apos_transacao (s : DatabaseSimulator) (conta_id : Z)
    (tipo : TipoTransacao) (v : M) (d : option string) (agora : Z)
    (c : conta) (ids : list Z) : DatabaseSimulator :=
  {| usuarios := usuarios s;
     contas := <[conta_id :=
                   com_saldo (f_round2 (novo_saldo tipo (c_saldo c) v)) c]> (contas s);
     transacoes := <[transacao_id_counter s :=
                       registro s conta_id tipo v d agora c]> (transacoes s);
     usuario_id_counter := usuario_id_counter s;
     conta_id_counter := conta_id_counter s;
     transacao_id_counter := transacao_id_counter s + 1;
     cpf_to_usuario_id := cpf_to_usuario_id s;
     usuario_id_to_conta_id := usuario_id_to_conta_id s;
     conta_id_to_transacoes :=
       <[conta_id := ids ++ [transacao_id_counter s]]> (conta_id_to_transacoes s) |}.

(** The store after [criar_usuario] went through. *)
Definition apos_registro (s : DatabaseSimulator) (u : usuario) : DatabaseSimulator :=
  {| usuarios := <[usuario_id_counter s := u]> (usuarios s);
     contas := contas s;
     transacoes := transacoes s;
     usuario_id_counter := usuario_id_counter s + 1;
     conta_id_counter := conta_id_counter s;
     transacao_id_counter := transacao_id_counter s;
     cpf_to_usuario_id := <[u_cpf u := usuario_id_counter s]> (cpf_to_usuario_id s);
     usuario_id_to_conta_id := usuario_id_to_conta_id s;
     conta_id_to_transacoes := conta_id_to_transacoes s |}.

(** The account that [criar_conta] builds, and the store it leaves. *)
Definition conta_nova (s : DatabaseSimulator) (usuario_id : Z)
    (tipo_conta : TipoConta) (digito agora : Z) : conta :=
  {| c_id := conta_id_counter s;
     c_numero_conta :=
       "0001" +:+ "-" +:+ zfill 6 (pretty (conta_id_counter s + 1))
              +:+ "-" +:+ pretty digito;
     c_tipo_conta := TipoConta_value tipo_conta;
     c_saldo := f_zero;
     c_usuario_id := usuario_id;
     c_data_criacao := agora |}.

Definition apos_abertura (s : DatabaseSimulator) (c : conta) : DatabaseSimulator :=
  {| usuarios := usuarios s;
     contas := <[conta_id_counter s := c]> (contas s);
     transacoes := transacoes s;
     usuario_id_counter := usuario_id_counter s;
     conta_id_counter := conta_id_counter s + 1;
     transacao_id_counter := transacao_id_counter s;
     cpf_to_usuario_id := cpf_to_usuario_id s;
     usuario_id_to_conta_id :=
       <[c_usuario_id c := conta_id_counter s]> (usuario_id_to_conta_id s);
     conta_id_to_transacoes := <[conta_id_counter s := []]> (conta_id_to_transacoes s) |}.

(** The transactions that the index lists for an account. *)
Definition extrato (s : DatabaseSimulator) (conta_id : Z) : list transacao :=
  omap (fun tid => transacoes s !! tid)
       (default [] (conta_id_to_transacoes s !! conta_id)).

(** Sum of the amounts of the transactions of one kind, in the words of
    the specification: walk the list once, adding the amount of each
    transaction of that kind to a running total. *)
Fixpoint total_por_tipo (tipo : TipoTransacao) (acc : M) (l : list transacao) : M :=
  match l with
  | [] => acc
  | t :: l' =>
      if String.eqb (t_tipo t) (TipoTransacao_value tipo)
      then total_por_tipo tipo (f_add acc (t_valor t)) l'
      else total_por_tipo tipo acc l'
  end.

(** The tables and their indexes agree. *)
Record consistente (s : DatabaseSimulator) : Prop := {
  cons_usuarios : forall i u,
    usuarios s !! i = Some u -> u_id u = i /\ i < usuario_id_counter s;
  cons_contador_usuarios :
    usuario_id_counter s = Z.of_nat (size (usuarios s)) + 1;
  cons_cpf : forall cpf i,
    cpf_to_usuario_id s !! cpf = Some i <->
    exists u, usuarios s !! i = Some u /\ u_cpf u = cpf;
  cons_contas : forall i c,
    contas s !! i = Some c ->
    c_id c = i /\ i < conta_id_counter s /\
    usuario_id_to_conta_id s !! c_usuario_id c = Some i /\
    is_Some (conta_id_to_transacoes s !! i);
  cons_dono : forall u i,
    usuario_id_to_conta_id s !! u = Some i ->
    exists c, contas s !! i = Some c /\ c_usuario_id c = u;
  cons_indice_contas : forall i ids,
    conta_id_to_transacoes s !! i = Some ids -> is_Some (contas s !! i);
  cons_indice : forall i ids,
    conta_id_to_transacoes s !! i = Some ids ->
    StronglySorted Z.lt ids /\
    forall tid, tid ∈ ids ->
      exists t, transacoes s !! tid = Some t /\ t_conta_id t = i /\ t_id t = tid;
  cons_transacoes : forall tid t,
    transacoes s !! tid = Some t ->
    tid < transacao_id_counter s /\
    exists ids, conta_id_to_transacoes s !! t_conta_id t = Some ids /\ tid ∈ ids
}.

(** Every balance has two decimals and closes the chain of its ledger. *)
Definition encadeado (s : DatabaseSimulator) : Prop :=
  forall i c, contas s !! i = Some c ->
    f_round2 (c_saldo c) = c_saldo c /\
    cadeia f_zero (extrato s i) (c_saldo c).

Definition saldos_nao_negativos (s : DatabaseSimulator) : Prop :=
  forall i c, contas s !! i = Some c -> f_le f_zero (c_saldo c) = true.

(** *** main.py: the handlers of accounts and statements, for an
    authenticated CPF *)

(** [POST /contas/].  The response model [Conta] puts no constraint on the
    stored keys. *)
Definition main_criar_conta (tipo_conta : TipoConta) (cpf_atual : string)
    (digito agora : Z) : Metodo conta :=
  usuario ← obter_usuario_por_cpf cpf_atual;
  match usuario with
  | None => levantar (HTTPException 404 "Usuário não encontrado")
  | Some usuario =>
      tentar (criar_conta (u_id usuario) tipo_conta digito agora)
             (fun d => levantar (HTTPException 400 d))
  end.

(** [GET /contas/me] *)
Definition obter_minha_conta (cpf_atual : string) : Metodo conta :=
  usuario ← obter_usuario_por_cpf cpf_atual;
  match usuario with
  | None => levantar (HTTPException 404 "Usuário não encontrado")
  | Some usuario =>
      conta ← obter_conta_por_usuario (u_id usuario);
      match conta with
      | None =>
          levantar (HTTPException 404
                      "Conta não encontrada. Crie uma conta primeiro.")
      | Some conta => retornar conta
      end
  end.

Record Extrato := {
  e_conta : conta;
  e_transacoes : list transacao;
  e_total_depositos : M;
  e_total_saques : M;
  e_quantidade_transacoes : Z
}.

(** The list of responses built from the stored transactions, in order;
    the first one that the model refuses ends it. *)
Fixpoint validar_transacoes (l : list transacao) : resultado (list transacao) :=
  match l with
  | [] => Retorna []
  | t :: l' =>
      match Transacao_validar t with
      | Levanta e => Levanta e
      | Retorna t' =>
          match validar_transacoes l' with
          | Levanta e => Levanta e
          | Retorna l'' => Retorna (t' :: l'')
          end
      end
  end.

(** [GET /transacoes/extrato]; nothing here is under [try]. *)
Definition obter_extrato (cpf_atual : string) : Metodo Extrato :=
  usuario ← obter_usuario_por_cpf cpf_atual;
  match usuario with
  | None => levantar (HTTPException 404 "Usuário não encontrado")
  | Some usuario =>
      conta ← obter_conta_por_usuario (u_id usuario);
      match conta with
      | None =>
          levantar (HTTPException 404
                      "Conta não encontrada. Crie uma conta primeiro.")
      | Some conta =>
          transacoes ← obter_transacoes_por_conta (c_id conta);
          estatisticas ← obter_estatisticas_conta (c_id conta);
          match validar_transacoes transacoes with
          | Levanta e => levantar e
          | Retorna respostas =>
              retornar
                {| e_conta := conta;
                   e_transacoes := respostas;
                   e_total_depositos := total_depositos estatisticas;
                   e_total_saques := total_saques estatisticas;
                   e_quantidade_transacoes :=
                     quantidade_transacoes estatisticas |}
          end
      end
  end.

(** ** Histories of requests

    What the API lets a client do to the store: register (the call of
    [criar_usuario] that the handler makes once the password is hashed),
    open an account, deposit and withdraw. *)
Inductive pedido :=
  | PedidoUsuario (nome cpf senha_hash : string) (agora : Z)
  | PedidoConta (tipo_conta : TipoConta) (cpf_atual : string) (digito agora : Z)
  | PedidoDeposito (v : M) (d : option string) (cpf_atual : string) (agora : Z)
  | PedidoSaque (v : M) (d : option string) (cpf_atual : string) (agora : Z).

Definition atender (s : DatabaseSimulator) (p : pedido) : DatabaseSimulator :=
  match p with
  | PedidoUsuario n c h t => snd (criar_usuario n c h t s)
  | PedidoConta k c d t => snd (main_criar_conta k c d t s)
  | PedidoDeposito v d c t => snd (realizar_deposito v d c t s)
  | PedidoSaque v d c t => snd (realizar_saque v d c t s)
  end.

Definition atender_todos (ps : list pedido) : DatabaseSimulator :=
  foldl atender db_init ps.

(** ** More invariants of reachable stores *)

(** Ids are handed out from 1 without gaps. *)
Record ids_sequenciais (s : DatabaseSimulator) : Prop := {
  seq_contadores :
    1 <= usuario_id_counter s /\ 1 <= conta_id_counter s /\
    1 <= transacao_id_counter s;
  seq_usuarios : forall i,
    is_Some (usuarios s !! i) <-> 1 <= i < usuario_id_counter s;
  seq_contas : forall i,
    is_Some (contas s !! i) <-> 1 <= i < conta_id_counter s;
  seq_transacoes : forall i,
    is_Some (transacoes s !! i) <-> 1 <= i < transacao_id_counter s
}.

(** The account number carries the value of the counter after the
    increment: the id of the account plus one. *)
Definition numeros_formados (s : DatabaseSimulator) : Prop :=
  forall i c, contas s !! i = Some c ->
    exists digito : Z,
      c_numero_conta c =
        "0001" +:+ "-" +:+ zfill 6 (pretty (i + 1)) +:+ "-" +:+ pretty digito.

(** The two kinds a stored transaction can have. *)
Definition tipos_validos (s : DatabaseSimulator) : Prop :=
  forall tid t, transacoes s !! tid = Some t ->
    t_tipo t = "deposito" \/ t_tipo t = "saque".

(** Every stored transaction records the balance that its own amount
    gives. *)
Definition linhas_coerentes (s : DatabaseSimulator) : Prop :=
  forall tid t, transacoes s !! tid = Some t ->
    (t_tipo t = "deposito" /\
     t_saldo_posterior t = f_round2 (f_add (t_saldo_anterior t) (t_valor t))) \/
    (t_tipo t = "saque" /\
     f_lt (t_saldo_anterior t) (t_valor t) = false /\
     t_saldo_posterior t = f_round2 (f_sub (t_saldo_anterior t) (t_valor t))).

(** [s'] keeps everything that [s] holds: users and transactions as they
    are, accounts up to their balance, statements as prefixes. *)
Record estende (s s' : DatabaseSimulator) : Prop := {
  est_usuarios : forall i u, usuarios s !! i = Some u -> usuarios s' !! i = Some u;
  est_transacoes : forall tid t,
    transacoes s !! tid = Some t -> transacoes s' !! tid = Some t;
  est_contas : forall i c,
    contas s !! i = Some c ->
    exists c', contas s' !! i = Some c' /\
      c_id c' = c_id c /\ c_numero_conta c' = c_numero_conta c /\
      c_tipo_conta c' = c_tipo_conta c /\ c_usuario_id c' = c_usuario_id c /\
      c_data_criacao c' = c_data_criacao c;
  est_extrato : forall i, extrato s i `prefix_of` extrato s' i;
  est_contadores :
    usuario_id_counter s <= usuario_id_counter s' /\
    conta_id_counter s <= conta_id_counter s' /\
    transacao_id_counter s <= transacao_id_counter s'
}.

(** An applied amount that came through the request schema. *)
Definition valor_do_esquema (op : operacao) : Prop :=
  match op with
  | Transacionar _ _ w _ _ => exists v, w = f_round2 v /\ f_lt f_zero v = true
  | _ => True
  end.

(** A request that is not a withdrawal of an infinite or NaN amount. *)
Definition saque_finito `{Fin : Finitude M} (p : pedido) : Prop :=
  match p with
  | PedidoSaque v _ _ _ => f_isfinite v = true
  | _ => True
  end.

(** An applied amount with two decimals. *)
Definition valor_arredondado (op : operacao) : Prop :=
  match op with
  | Transacionar _ _ v _ _ => f_round2 v = v
  | _ => True
  end.

End Ledger.

(** ** Histories used as examples *)

(** Scenario A of the specification, on doubles. *)
Definition cenario_a : list (@operacao float) :=
  [ Registrar "João da Silva" "12345678900" "hash" 0;
    AbrirConta 1 CORRENTE 7 1;
    Transacionar 1 DEPOSITO 1000%float (Some "Depósito inicial") 2;
    Transacionar 1 DEPOSITO 500%float (Some "Segundo depósito") 3;
    Transacionar 1 SAQUE 200%float (Some "Saque para compras") 4 ].

(** One user with a fresh account, on doubles. *)
Definition conta_aberta : list (@operacao float) :=
  [ Registrar "João da Silva" "12345678900" "hash" 0;
    AbrirConta 1 CORRENTE 7 1 ].

(** Scenario A on exact decimals, with amounts that need rounding. *)
Definition cenario_decimal : list (@operacao Q) :=
  [ Registrar "João da Silva" "12345678900" "hash" 0;
    AbrirConta 1 CORRENTE 7 1;
    Transacionar 1 DEPOSITO (1000 # 1)%Q None 2;
    Transacionar 1 DEPOSITO (1001 # 8)%Q None 3;
    Transacionar 1 SAQUE (200 # 1)%Q None 4 ].

(** The account that [conta_aberta] leaves in the store. *)
Definition conta_1 : @conta float :=
  {| c_id := 1; c_numero_conta := "0001-000002-7"; c_tipo_conta := "corrente";
     c_saldo := 0%float; c_usuario_id := 1; c_data_criacao := 1 |}.

(** A second user, who has no account yet. *)
Definition dois_usuarios : list (@operacao float) :=
  conta_aberta ++ [ Registrar "Maria Souza" "98765432100" "hash2" 2 ].

(** The account that [cenario_decimal] leaves in the store: 925.12. *)
Definition conta_1_decimal : @conta Q :=
  {| c_id := 1; c_numero_conta := "0001-000002-7"; c_tipo_conta := "corrente";
     c_saldo := (23128 # 25)%Q; c_usuario_id := 1; c_data_criacao := 1 |}.

(** Scenario A as requests to the API, on exact decimals, with a
    withdrawal that is refused and a deposit whose amount needs rounding. *)
Definition pedidos_decimal : list (@pedido Q) :=
  [ PedidoUsuario "João da Silva" "12345678900" "hash" 0;
    PedidoConta CORRENTE "12345678900" 7 1;
    PedidoSaque (50 # 1)%Q None "12345678900" 2;
    PedidoDeposito (1000 # 1)%Q None "12345678900" 3;
    PedidoDeposito (1001 # 8)%Q None "12345678900" 4;
    PedidoSaque (200 # 1)%Q None "12345678900" 5 ].

(** Scenario A as requests to the API, on doubles, with a withdrawal
    that is refused and a deposit whose amount needs rounding. *)
Definition pedidos_binary64 : list (@pedido float) :=
  [ PedidoUsuario "João da Silva" "12345678900" "hash" 0;
    PedidoConta CORRENTE "12345678900" 7 1;
    PedidoSaque 50%float None "12345678900" 2;
    PedidoDeposito 1000%float None "12345678900" 3;
    PedidoDeposito 125.125%float None "12345678900" 4;
    PedidoSaque 200%float None "12345678900" 5 ].

(** A deposit of [inf] followed by a withdrawal of [inf]. *)
Definition cenario_infinito : list (@operacao float) :=
  conta_aberta ++
  [ Transacionar 1 DEPOSITO infinity None 2;
    Transacionar 1 SAQUE infinity None 3 ].

(** The two users of [dois_usuarios], each with an account, both numbers
    ending in the same drawn digit. *)
Definition duas_contas : list (@operacao float) :=
  dois_usuarios ++ [ AbrirConta 2 POUPANCA 7 3 ].

Definition conta_2 : @conta float :=
  {| c_id := 2; c_numero_conta := "0001-000003-7"; c_tipo_conta := "poupanca";
     c_saldo := 0%float; c_usuario_id := 2; c_data_criacao := 3 |}.

(** The store of [conta_aberta] with the list of the account taken out of
    the index: a store that the methods cannot produce. *)
Definition sem_indice : @DatabaseSimulator float :=
  set_conta_id_to_transacoes ∅ (executar_todas conta_aberta).

(** The store of [conta_aberta] with the user moved to the id 0. *)
Definition usuario_zero : @DatabaseSimulator float :=
  set_cpf_to_usuario_id {[ "12345678900" := 0 ]}
    (set_usuarios {[ 0 := {| u_id := 0; u_nome := "João da Silva";
                             u_cpf := "12345678900"; u_senha_hash := "hash";
                             u_data_criacao := 0 |} ]}
       (executar_todas conta_aberta)).

(** The user that [conta_aberta] leaves in the store. *)
Definition usuario_1 : usuario :=
  {| u_id := 1; u_nome := "João da Silva"; u_cpf := "12345678900";
     u_senha_hash := "hash"; u_data_criacao := 0 |}.

(** Two users, the second without account, with a deposit for the first. *)
Definition pedidos_a : list (@pedido float) :=
  [ PedidoUsuario "João da Silva" "12345678900" "hash" 0;
    PedidoConta CORRENTE "12345678900" 7 1;
    PedidoDeposito 1000%float (Some "Depósito inicial") "12345678900" 2 ].

(** A deposit of 1/1024, which rounds to 0.00, after [pedidos_a]. *)
Definition pedidos_milesimo : list (@pedido float) :=
  pedidos_a ++ [ PedidoDeposito 0.0009765625%float None "12345678900" 3 ].

(** Scenario A on exact decimals, in amounts with two decimals. *)
Definition cenario_centavos : list (@operacao Q) :=
  [ Registrar "João da Silva" "12345678900" "hash" 0;
    AbrirConta 1 CORRENTE 7 1;
    Transacionar 1 DEPOSITO (1000 # 1)%Q None 2;
    Transacionar 1 DEPOSITO (1251 # 100)%Q None 3;
    Transacionar 1 SAQUE (200 # 1)%Q None 4 ].

(** * Properties *)

(** Unfolds one method down to a case analysis on the store. *)
Ltac passo :=
  unfold mbind, Metodo_bind, ligar, ler, atribuir, retornar, levantar,
    obter_conta_por_id; simpl.

Section Propriedades.
Context {M : Type} `{Num : PyFloat M}.
Implicit Types (self s : @DatabaseSimulator M) (c : @conta M)
  (t : @transacao M) (u : usuario) (v : M) (op : @operacao M)
  (ops : list (@operacao M)).

(** ** [atualizar_saldo] *)

Lemma atualizar_saldo_ausente self conta_id novo_saldo :
  contas self !! conta_id = None ->
  atualizar_saldo conta_id novo_saldo self = (Retorna tt, self).
Proof. intros Hc. unfold atualizar_saldo. passo. by rewrite Hc. Qed.

Lemma atualizar_saldo_presente self conta_id novo_saldo c :
  contas self !! conta_id = Some c ->
  atualizar_saldo conta_id novo_saldo self =
    (Retorna tt,
     set_contas (<[conta_id := com_saldo (f_round2 novo_saldo) c]> (contas self)) self).
Proof. intros Hc. unfold atualizar_saldo. passo. by rewrite Hc. Qed.

(** C10: [atualizar_saldo] on an account id that is not in [contas] returns
    without raising and leaves the whole store as it was; on an id that is
    there it returns without raising, the account's [saldo] becomes
    [round(novo_saldo, 2)], its other keys keep their values, the other
    accounts are untouched and so is every other attribute of the store. *)
Theorem atualizar_saldo_efeito self conta_id novo_saldo :
  match contas self !! conta_id with
  | None => atualizar_saldo conta_id novo_saldo self = (Retorna tt, self)
  | Some c =>
      exists self' c',
        atualizar_saldo conta_id novo_saldo self = (Retorna tt, self') /\
        contas self' !! conta_id = Some c' /\
        c_saldo c' = f_round2 novo_saldo /\
        c_id c' = c_id c /\ c_numero_conta c' = c_numero_conta c /\
        c_tipo_conta c' = c_tipo_conta c /\ c_usuario_id c' = c_usuario_id c /\
        c_data_criacao c' = c_data_criacao c /\
        (forall j, j <> conta_id -> contas self' !! j = contas self !! j) /\
        usuarios self' = usuarios self /\
        transacoes self' = transacoes self /\
        usuario_id_counter self' = usuario_id_counter self /\
        conta_id_counter self' = conta_id_counter self /\
        transacao_id_counter self' = transacao_id_counter self /\
        cpf_to_usuario_id self' = cpf_to_usuario_id self /\
        usuario_id_to_conta_id self' = usuario_id_to_conta_id self /\
        conta_id_to_transacoes self' = conta_id_to_transacoes self
  end.
Proof.
  destruct (contas self !! conta_id) as [c|] eqn:Hc.
  - eexists _, _. split; [by apply atualizar_saldo_presente|].
    simpl. rewrite lookup_insert_eq. repeat split.
    intros j Hj. by rewrite lookup_insert_ne.
  - by apply atualizar_saldo_ausente.
Qed.

(** ** [criar_transacao] *)

Lemma criar_transacao_sem_conta self conta_id tipo v d agora :
  contas self !! conta_id = None ->
  criar_transacao conta_id tipo v d agora self = (Levanta AccountNotFound, self).
Proof. intros Hc. unfold criar_transacao. passo. by rewrite Hc. Qed.

Lemma criar_transacao_saque_negado self conta_id v d agora c :
  contas self !! conta_id = Some c ->
  f_lt (c_saldo c) v = true ->
  criar_transacao conta_id SAQUE v d agora self = (Levanta InsufficientFunds, self).
Proof.
  intros Hc Hlt. unfold criar_transacao. passo. rewrite Hc. simpl.
  by rewrite Hlt.
Qed.

(** C2: a withdrawal of more than the balance of the account raises the
    insufficient-funds error and returns the store it was given: the
    balance of the account, the transactions, the index of transactions
    and the transaction counter are those of before the call. *)
Theorem saque_acima_do_saldo self conta_id v d agora c :
  contas self !! conta_id = Some c ->
  f_lt (c_saldo c) v = true ->
  exists self',
    criar_transacao conta_id SAQUE v d agora self =
      (Levanta InsufficientFunds, self') /\
    self' = self /\
    contas self' !! conta_id = Some c /\
    transacoes self' = transacoes self /\
    conta_id_to_transacoes self' = conta_id_to_transacoes self /\
    transacao_id_counter self' = transacao_id_counter self.
Proof.
  intros Hc Hlt. exists self. split; [|done].
  by apply (criar_transacao_saque_negado self conta_id v d agora c).
Qed.

(** When the funds test passes and the account has its list of
    transaction ids, the transaction is committed. *)
Lemma criar_transacao_ok self conta_id tipo v d agora c ids :
  contas self !! conta_id = Some c ->
  conta_id_to_transacoes self !! conta_id = Some ids ->
  (tipo = SAQUE -> f_lt (c_saldo c) v = false) ->
  criar_transacao conta_id tipo v d agora self =
    (Retorna (registro self conta_id tipo v d agora c),
     apos_transacao self conta_id tipo v d agora c ids).
Proof.
  intros Hc Hi Hf. unfold criar_transacao. passo. rewrite Hc. simpl.
  destruct tipo; simpl.
  - rewrite Hi. simpl. unfold atualizar_saldo. passo. by rewrite Hc.
  - rewrite Hf by done. simpl. rewrite Hi. simpl.
    unfold atualizar_saldo. passo. by rewrite Hc.
Qed.

(** Every way [criar_transacao] can end. *)
Lemma criar_transacao_casos self conta_id tipo v d agora :
  let r := criar_transacao conta_id tipo v d agora self in
  (contas self !! conta_id = None /\ r = (Levanta AccountNotFound, self)) \/
  (exists c, contas self !! conta_id = Some c /\ tipo = SAQUE /\
     f_lt (c_saldo c) v = true /\ r = (Levanta InsufficientFunds, self)) \/
  (exists c, contas self !! conta_id = Some c /\
     (tipo = SAQUE -> f_lt (c_saldo c) v = false) /\
     conta_id_to_transacoes self !! conta_id = None /\ fst r = Levanta KeyError) \/
  (exists c ids, contas self !! conta_id = Some c /\
     (tipo = SAQUE -> f_lt (c_saldo c) v = false) /\
     conta_id_to_transacoes self !! conta_id = Some ids /\
     r = (Retorna (registro self conta_id tipo v d agora c),
          apos_transacao self conta_id tipo v d agora c ids)).
Proof.
  intros r. subst r.
  destruct (contas self !! conta_id) as [c|] eqn:Hc.
  2:{ left. split; [done|]. by apply criar_transacao_sem_conta. }
  right.
  destruct (decide (tipo = SAQUE /\ f_lt (c_saldo c) v = true)) as [[-> Hlt]|Hn].
  { left. exists c. repeat split; try done. by eapply criar_transacao_saque_negado. }
  right.
  assert (Hf : tipo = SAQUE -> f_lt (c_saldo c) v = false).
  { intros ->. destruct (f_lt (c_saldo c) v); [|done]. by destruct Hn. }
  destruct (conta_id_to_transacoes self !! conta_id) as [ids|] eqn:Hi.
  - right. exists c, ids. repeat split; try done.
    by apply criar_transacao_ok.
  - left. exists c. repeat split; try done.
    unfold criar_transacao. passo. rewrite Hc. simpl.
    destruct tipo; simpl.
    + by rewrite Hi.
    + rewrite Hf by done. simpl. by rewrite Hi.
Qed.

(** ** [criar_usuario] and [criar_conta] *)

Lemma criar_usuario_duplicado self nome cpf senha_hash agora i :
  cpf_to_usuario_id self !! cpf = Some i ->
  criar_usuario nome cpf senha_hash agora self = (Levanta DuplicateIdentity, self).
Proof. intros Hi. unfold criar_usuario. passo. by rewrite Hi. Qed.

Lemma criar_usuario_ok self nome cpf senha_hash agora :
  cpf_to_usuario_id self !! cpf = None ->
  let u := {| u_id := usuario_id_counter self; u_nome := nome; u_cpf := cpf;
              u_senha_hash := senha_hash; u_data_criacao := agora |} in
  criar_usuario nome cpf senha_hash agora self = (Retorna u, apos_registro self u).
Proof. intros Hi. unfold criar_usuario. passo. by rewrite Hi. Qed.

Lemma criar_conta_sem_usuario self usuario_id tipo_conta digito agora :
  usuarios self !! usuario_id = None ->
  criar_conta usuario_id tipo_conta digito agora self = (Levanta UnknownUser, self).
Proof. intros Hu. unfold criar_conta. passo. by rewrite Hu. Qed.

Lemma criar_conta_repetida self usuario_id tipo_conta digito agora u i :
  usuarios self !! usuario_id = Some u ->
  usuario_id_to_conta_id self !! usuario_id = Some i ->
  criar_conta usuario_id tipo_conta digito agora self =
    (Levanta AccountAlreadyExists, self).
Proof. intros Hu Hi. unfold criar_conta. passo. by rewrite Hu, Hi. Qed.

Lemma criar_conta_ok self usuario_id tipo_conta digito agora u :
  usuarios self !! usuario_id = Some u ->
  usuario_id_to_conta_id self !! usuario_id = None ->
  let c := conta_nova self usuario_id tipo_conta digito agora in
  criar_conta usuario_id tipo_conta digito agora self =
    (Retorna c, apos_abertura self c).
Proof. intros Hu Hi. unfold criar_conta. passo. by rewrite Hu, Hi. Qed.

(** ** Histories *)

Lemma executar_todas_snoc ops op :
  executar_todas (ops ++ [op]) = executar (executar_todas ops) op.
Proof. unfold executar_todas. by rewrite foldl_app. Qed.

Lemma alcancavel_inicio : alcancavel (@db_init M).
Proof. by exists []. Qed.

Lemma alcancavel_passo s op : alcancavel s -> alcancavel (executar s op).
Proof. intros [ops ->]. exists (ops ++ [op]). by rewrite executar_todas_snoc. Qed.

Lemma alcancavel_ind (P : DatabaseSimulator -> Prop) :
  P (@db_init M) ->
  (forall s op, alcancavel s -> P s -> P (executar s op)) ->
  forall s, alcancavel s -> P s.
Proof.
  intros H0 Hstep s [ops ->].
  induction ops as [|op ops IH] using rev_ind; [done|].
  rewrite executar_todas_snoc. apply Hstep; [by eexists|done].
Qed.

(** What one operation does to the store. *)
Lemma executar_casos s op :
  executar s op = s \/
  (exists nome cpf senha_hash agora,
     op = Registrar nome cpf senha_hash agora /\
     cpf_to_usuario_id s !! cpf = None /\
     executar s op =
       apos_registro s {| u_id := usuario_id_counter s; u_nome := nome;
                          u_cpf := cpf; u_senha_hash := senha_hash;
                          u_data_criacao := agora |}) \/
  (exists usuario_id tipo_conta digito agora u,
     op = AbrirConta usuario_id tipo_conta digito agora /\
     usuarios s !! usuario_id = Some u /\
     usuario_id_to_conta_id s !! usuario_id = None /\
     executar s op =
       apos_abertura s (conta_nova s usuario_id tipo_conta digito agora)) \/
  (exists conta_id tipo v d agora c,
     op = Transacionar conta_id tipo v d agora /\
     contas s !! conta_id = Some c /\
     (tipo = SAQUE -> f_lt (c_saldo c) v = false) /\
     ((conta_id_to_transacoes s !! conta_id = None) \/
      exists ids, conta_id_to_transacoes s !! conta_id = Some ids /\
        executar s op = apos_transacao s conta_id tipo v d agora c ids)).
Proof.
  destruct op as [nome cpf h agora|uid k dg agora|cid tipo v d agora]; simpl.
  - destruct (cpf_to_usuario_id s !! cpf) as [i|] eqn:Hi.
    + left. by erewrite criar_usuario_duplicado.
    + right; left. exists nome, cpf, h, agora. repeat split; try done.
      by rewrite criar_usuario_ok.
  - destruct (usuarios s !! uid) as [u|] eqn:Hu.
    2:{ left. by rewrite criar_conta_sem_usuario. }
    destruct (usuario_id_to_conta_id s !! uid) as [i|] eqn:Hi.
    { left. by erewrite criar_conta_repetida. }
    right; right; left. exists uid, k, dg, agora, u. repeat split; try done.
    by erewrite criar_conta_ok.
  - destruct (criar_transacao_casos s cid tipo v d agora)
      as [[_ ->]|[(c & _ & _ & _ & ->)|[(c & Hc & Hf & Hi & _)|(c & ids & Hc & Hf & Hi & ->)]]];
      simpl; [by left|by left| |].
    + right; right; right. exists cid, tipo, v, d, agora, c.
      repeat split; try done. by left.
    + right; right; right. exists cid, tipo, v, d, agora, c.
      repeat split; try done. right. by exists ids.
Qed.

(** ** The tables and indexes of a reachable store agree *)

Lemma StronglySorted_snoc (l : list Z) (y : Z) :
  StronglySorted Z.lt l -> (forall x, x ∈ l -> x < y) ->
  StronglySorted Z.lt (l ++ [y]).
Proof.
  induction 1 as [|x l Hl IH Hx]; intros Hy; simpl.
  - repeat constructor.
  - constructor.
    + apply IH. intros z Hz. apply Hy. by right.
    + apply Forall_app. split; [done|].
      constructor; [|constructor]. apply Hy. by left.
Qed.

Lemma consistente_inicio : consistente (@db_init M).
Proof.
  split; simpl; try (intros; simplify_map_eq; fail).
  - by rewrite map_size_empty.
  - intros cpf i. split; [intros; simplify_map_eq|].
    intros (u & Hu & _). simplify_map_eq.
Qed.

Lemma consistente_registro s u :
  consistente s ->
  cpf_to_usuario_id s !! u_cpf u = None ->
  u_id u = usuario_id_counter s ->
  consistente (apos_registro s u).
Proof.
  intros Hs Hcpf Hid.
  assert (Hfresh : usuarios s !! usuario_id_counter s = None).
  { destruct (usuarios s !! usuario_id_counter s) as [u'|] eqn:Hu'; [|done].
    apply (cons_usuarios s Hs) in Hu'. lia. }
  split; simpl.
  - intros i u'. rewrite lookup_insert. case_decide as Hi.
    + intros [= <-]. subst i. lia.
    + intros Hu'. apply (cons_usuarios s Hs) in Hu'. lia.
  - rewrite map_size_insert_None by done.
    rewrite (cons_contador_usuarios s Hs). lia.
  - intros cpf i. rewrite lookup_insert. case_decide as Hc.
    + subst cpf. split.
      * intros [= <-]. exists u. by rewrite lookup_insert_eq.
      * intros (u' & Hu' & Hcpf'). rewrite lookup_insert in Hu'.
        case_decide as Hi; [by subst|].
        assert (cpf_to_usuario_id s !! u_cpf u = Some i) as Hx
          by (apply (cons_cpf s Hs); eauto).
        congruence.
    + rewrite (cons_cpf s Hs). split.
      * intros (u' & Hu' & Hcpf'). exists u'. split; [|done].
        rewrite lookup_insert_ne; [done|]. intros <-. congruence.
      * intros (u' & Hu' & Hcpf'). rewrite lookup_insert in Hu'.
        case_decide as Hi; [congruence|]. eauto.
  - apply (cons_contas s Hs).
  - apply (cons_dono s Hs).
  - apply (cons_indice_contas s Hs).
  - apply (cons_indice s Hs).
  - apply (cons_transacoes s Hs).
Qed.

Lemma consistente_abertura s c :
  consistente s ->
  usuario_id_to_conta_id s !! c_usuario_id c = None ->
  c_id c = conta_id_counter s ->
  consistente (apos_abertura s c).
Proof.
  intros Hs Hu Hid.
  assert (Hfresh : contas s !! conta_id_counter s = None).
  { destruct (contas s !! conta_id_counter s) as [c'|] eqn:Hc'; [|done].
    apply (cons_contas s Hs) in Hc'. lia. }
  assert (Hfresh' : conta_id_to_transacoes s !! conta_id_counter s = None).
  { destruct (conta_id_to_transacoes s !! conta_id_counter s) as [l|] eqn:Hl;
      [|done].
    apply (cons_indice_contas s Hs) in Hl. rewrite Hfresh in Hl.
    by destruct Hl. }
  split; simpl.
  - apply (cons_usuarios s Hs).
  - apply (cons_contador_usuarios s Hs).
  - apply (cons_cpf s Hs).
  - intros i c'. rewrite lookup_insert. case_decide as Hi.
    + intros [= <-]. subst i. rewrite !lookup_insert_eq.
      repeat split; [done|lia|by eexists].
    + intros Hc'. destruct (cons_contas s Hs _ _ Hc') as (H1 & H2 & H3 & H4).
      repeat split; [done|lia| |].
      * rewrite lookup_insert_ne; [done|]. intros Heq. congruence.
      * by rewrite lookup_insert_ne.
  - intros u i. rewrite lookup_insert. case_decide as Hi.
    + intros [= <-]. exists c. by rewrite lookup_insert_eq.
    + intros Hx. destruct (cons_dono s Hs _ _ Hx) as (c' & Hc' & Hd).
      exists c'. split; [|done]. rewrite lookup_insert_ne; [done|].
      intros <-. congruence.
  - intros i ids. rewrite !lookup_insert. case_decide; [by eexists|].
    apply (cons_indice_contas s Hs).
  - intros i ids. rewrite lookup_insert. case_decide as Hi.
    + intros [= <-]. split; [constructor|]. intros tid Ht.
      by apply elem_of_nil in Ht.
    + apply (cons_indice s Hs).
  - intros tid t Ht. destruct (cons_transacoes s Hs _ _ Ht) as (H1 & ids & H2 & H3).
    split; [done|]. exists ids. split; [|done].
    rewrite lookup_insert_ne; [done|]. intros Heq. congruence.
Qed.

Lemma consistente_transacao s conta_id tipo v d agora c ids :
  consistente s ->
  contas s !! conta_id = Some c ->
  conta_id_to_transacoes s !! conta_id = Some ids ->
  consistente (apos_transacao s conta_id tipo v d agora c ids).
Proof.
  intros Hs Hc Hids.
  assert (Hfresh : transacoes s !! transacao_id_counter s = None).
  { destruct (transacoes s !! transacao_id_counter s) as [t|] eqn:Ht; [|done].
    apply (cons_transacoes s Hs) in Ht. lia. }
  assert (Hlt : forall i l tid,
            conta_id_to_transacoes s !! i = Some l -> tid ∈ l ->
            tid < transacao_id_counter s).
  { intros i l tid Hl Ht.
    destruct (cons_indice s Hs _ _ Hl) as [_ Hx].
    destruct (Hx _ Ht) as (t & Ht' & _).
    apply (cons_transacoes s Hs) in Ht'. tauto. }
  destruct (cons_contas s Hs _ _ Hc) as (Hc1 & Hc2 & Hc3 & Hc4).
  split; simpl.
  - apply (cons_usuarios s Hs).
  - apply (cons_contador_usuarios s Hs).
  - apply (cons_cpf s Hs).
  - intros i c'. rewrite !lookup_insert. case_decide as Hi.
    + intros [= <-]. subst i. simpl. repeat split; done.
    + apply (cons_contas s Hs).
  - intros u i Hx. destruct (cons_dono s Hs _ _ Hx) as (c' & Hc' & Hd).
    rewrite lookup_insert. case_decide as Hi.
    + subst i. eexists. split; [done|]. simpl. congruence.
    + eauto.
  - intros i l. rewrite !lookup_insert. case_decide; [by eexists|].
    apply (cons_indice_contas s Hs).
  - intros i l. rewrite lookup_insert. case_decide as Hi.
    + intros [= <-]. subst i. destruct (cons_indice s Hs _ _ Hids) as [Hsort Hx].
      split.
      * apply StronglySorted_snoc; [done|]. intros x Hin. by eapply Hlt.
      * intros tid [Ht|Ht%list_elem_of_singleton]%elem_of_app.
        -- destruct (Hx _ Ht) as (t & Ht' & Hr).
           exists t. split; [|done]. rewrite lookup_insert_ne; [done|].
           intros <-. congruence.
        -- subst tid. eexists. by rewrite lookup_insert_eq.
    + intros Hl. destruct (cons_indice s Hs _ _ Hl) as [Hsort Hx].
      split; [done|]. intros tid Ht. destruct (Hx _ Ht) as (t & Ht' & Hr).
      exists t. split; [|done]. rewrite lookup_insert_ne; [done|].
      intros <-. congruence.
  - intros tid t. rewrite lookup_insert. case_decide as Hi.
    + intros [= <-]. subst tid. simpl. split; [lia|].
      eexists. rewrite lookup_insert_eq. split; [done|].
      apply elem_of_app. right. by apply list_elem_of_singleton.
    + intros Ht. destruct (cons_transacoes s Hs _ _ Ht) as (H1 & l & H2 & H3).
      split; [lia|]. rewrite lookup_insert. case_decide as Hj.
      * eexists. split; [done|]. rewrite <- Hj in H2.
        assert (l = ids) as -> by congruence.
        apply elem_of_app. by left.
      * eauto.
Qed.

Lemma consistente_executar s op : consistente s -> consistente (executar s op).
Proof.
  intros Hs.
  destruct (executar_casos s op)
    as [->|[(n & cpf & h & t & _ & Hi & ->)
          |[(uid & k & dg & t & u & _ & Hu & Hi & ->)
          |(cid & tipo & v & d & t & c & -> & Hc & Hf & [Hi|(ids & Hi & ->)])]]].
  - done.
  - by apply consistente_registro.
  - by apply consistente_abertura.
  - destruct (cons_contas s Hs _ _ Hc) as (_ & _ & _ & [l Hl]). congruence.
  - by apply consistente_transacao.
Qed.

Lemma consistente_alcancavel s : alcancavel s -> consistente s.
Proof.
  revert s. apply alcancavel_ind; [apply consistente_inicio|].
  intros s op _. apply consistente_executar.
Qed.

(** ** [obter_transacoes_por_conta] *)

Lemma mapM_omap {A B} (f : A -> option B) (l : list A) :
  Forall (fun x => is_Some (f x)) l -> mapM f l = Some (omap f l).
Proof.
  induction 1 as [|x l [y Hy] _ IH]; [done|].
  cbn. rewrite Hy. cbn. rewrite IH. cbn. reflexivity.
Qed.

Lemma omap_ext_in {A B} (f g : A -> option B) (l : list A) :
  (forall x, x ∈ l -> f x = g x) -> omap f l = omap g l.
Proof.
  induction l as [|x l IH]; intros Hfg; [done|].
  cbn. rewrite (Hfg x) by left. rewrite IH; [done|].
  intros y Hy. apply Hfg. by right.
Qed.

Lemma indice_resolvido s i :
  consistente s ->
  Forall (fun tid => is_Some (transacoes s !! tid))
         (default [] (conta_id_to_transacoes s !! i)).
Proof.
  intros Hs. destruct (conta_id_to_transacoes s !! i) as [ids|] eqn:Hi; simpl.
  - apply Forall_forall. intros tid Ht.
    destruct (cons_indice s Hs _ _ Hi) as [_ Hx].
    destruct (Hx _ Ht) as (t & -> & _). by eexists.
  - constructor.
Qed.

Lemma obter_transacoes_extrato s i :
  consistente s ->
  obter_transacoes_por_conta i s = (Retorna (extrato s i), s).
Proof.
  intros Hs. unfold obter_transacoes_por_conta. passo.
  by rewrite (mapM_omap _ _ (indice_resolvido s i Hs)).
Qed.

Lemma extrato_ids s i :
  consistente s ->
  t_id <$> extrato s i = default [] (conta_id_to_transacoes s !! i).
Proof.
  intros Hs. unfold extrato.
  destruct (conta_id_to_transacoes s !! i) as [ids|] eqn:Hi; simpl; [|done].
  destruct (cons_indice s Hs _ _ Hi) as [_ Hx]. clear Hi.
  induction ids as [|tid ids IH]; [done|]. cbn.
  destruct (Hx tid) as (t & Ht & _ & Hid); [by left|].
  rewrite Ht. cbn. rewrite Hid. f_equal. apply IH.
  intros x Hin. apply Hx. by right.
Qed.

Lemma elem_of_extrato s i t :
  consistente s ->
  t ∈ extrato s i <->
  exists tid, transacoes s !! tid = Some t /\ t_conta_id t = i.
Proof.
  intros Hs. unfold extrato. rewrite list_elem_of_omap. split.
  - intros (tid & Hin & Ht). exists tid. split; [done|].
    destruct (conta_id_to_transacoes s !! i) as [ids|] eqn:Hi; simpl in Hin.
    + destruct (cons_indice s Hs _ _ Hi) as [_ Hx].
      destruct (Hx _ Hin) as (t' & Ht' & Hc & _). congruence.
    + by apply elem_of_nil in Hin.
  - intros (tid & Ht & Hc). exists tid. split; [|done].
    destruct (cons_transacoes s Hs _ _ Ht) as (_ & ids & Hi & Hin).
    rewrite Hc in Hi. by rewrite Hi.
Qed.

Lemma extrato_sem_conta s i :
  consistente s -> contas s !! i = None -> extrato s i = [].
Proof.
  intros Hs Hc. unfold extrato.
  destruct (conta_id_to_transacoes s !! i) as [ids|] eqn:Hi; [|done].
  apply (cons_indice_contas s Hs) in Hi. rewrite Hc in Hi. by destruct Hi.
Qed.

Lemma extrato_registro s u i : extrato (apos_registro s u) i = extrato s i.
Proof. done. Qed.

Lemma extrato_abertura s c i :
  consistente s ->
  extrato (apos_abertura s c) i =
    if decide (conta_id_counter s = i) then [] else extrato s i.
Proof.
  intros Hs. unfold extrato. simpl. rewrite lookup_insert.
  by case_decide.
Qed.

Lemma extrato_transacao s conta_id tipo v d agora c ids i :
  consistente s ->
  contas s !! conta_id = Some c ->
  conta_id_to_transacoes s !! conta_id = Some ids ->
  extrato (apos_transacao s conta_id tipo v d agora c ids) i =
    if decide (conta_id = i)
    then extrato s i ++ [registro s conta_id tipo v d agora c]
    else extrato s i.
Proof.
  intros Hs Hc Hids.
  assert (Hold : forall j, omap
            (fun tid => <[transacao_id_counter s :=
                            registro s conta_id tipo v d agora c]>
                          (transacoes s) !! tid)
            (default [] (conta_id_to_transacoes s !! j)) = extrato s j).
  { intros j. unfold extrato. apply omap_ext_in. intros tid Hin.
    rewrite lookup_insert_ne; [done|]. intros <-.
    destruct (conta_id_to_transacoes s !! j) as [l|] eqn:Hl; simpl in Hin;
      [|by apply elem_of_nil in Hin].
    destruct (cons_indice s Hs _ _ Hl) as [_ Hx].
    destruct (Hx _ Hin) as (t & Ht & _).
    apply (cons_transacoes s Hs) in Ht. lia. }
  unfold extrato at 1. simpl. rewrite lookup_insert. case_decide as Hi.
  - subst i. cbn. rewrite omap_app. cbn. rewrite lookup_insert_eq. cbn.
    f_equal. specialize (Hold conta_id). by rewrite Hids in Hold.
  - apply Hold.
Qed.

(** C8: in every reachable store and for every account id,
    [obter_transacoes_por_conta] returns (it never raises) and leaves the
    store alone; the list holds exactly the stored transactions of that
    account, by strictly increasing transaction id; it is empty for an id
    with no account (and, by the second clause, for an account without
    transactions); and the order is the order of creation: a committed
    transaction on the account is appended at the end, and any other
    operation leaves the list as it was. *)
Theorem obter_transacoes_por_conta_correto s i :
  alcancavel s ->
  exists l,
    obter_transacoes_por_conta i s = (Retorna l, s) /\
    (forall t, t ∈ l <->
       exists tid, transacoes s !! tid = Some t /\ t_conta_id t = i) /\
    StronglySorted Z.lt (t_id <$> l) /\
    (contas s !! i = None -> l = []) /\
    (forall tipo v d agora t s',
       criar_transacao i tipo v d agora s = (Retorna t, s') ->
       obter_transacoes_por_conta i s' = (Retorna (l ++ [t]), s')) /\
    (forall op,
       (forall tipo v d agora, op <> Transacionar i tipo v d agora) ->
       obter_transacoes_por_conta i (executar s op) = (Retorna l, executar s op)).
Proof.
  intros Hr. pose proof (consistente_alcancavel s Hr) as Hs.
  exists (extrato s i). repeat split.
  - by apply obter_transacoes_extrato.
  - by apply elem_of_extrato.
  - by apply elem_of_extrato.
  - rewrite extrato_ids by done.
    destruct (conta_id_to_transacoes s !! i) as [ids|] eqn:Hi; simpl.
    + apply (cons_indice s Hs) in Hi. tauto.
    + constructor.
  - by apply extrato_sem_conta.
  - intros tipo v d agora t s' Hct.
    destruct (criar_transacao_casos s i tipo v d agora)
      as [[_ Hx]|[(c & _ & _ & _ & Hx)|[(c & _ & _ & _ & Hx)
          |(c & ids & Hc & Hf & Hi & Hx)]]];
      rewrite Hct in Hx; try discriminate.
    injection Hx as -> ->.
    rewrite obter_transacoes_extrato
      by (by apply consistente_transacao).
    rewrite extrato_transacao by done. by rewrite decide_True.
  - intros op Hop.
    rewrite obter_transacoes_extrato by (by apply consistente_executar).
    do 2 f_equal.
    destruct (executar_casos s op)
      as [->|[(n & cpf & h & t & _ & _ & ->)
            |[(uid & k & dg & t & u & _ & Hu & Hi & ->)
            |(cid & tipo & v & d & t & c & -> & Hc & Hf & [Hi|(ids & Hi & ->)])]]].
    + done.
    + done.
    + rewrite extrato_abertura by done. case_decide as Hd; [|done].
      subst i. symmetry. apply extrato_sem_conta; [done|].
      destruct (contas s !! conta_id_counter s) as [c'|] eqn:Hc'; [|done].
      apply (cons_contas s Hs) in Hc'. lia.
    + destruct (cons_contas s Hs _ _ Hc) as (_ & _ & _ & [l Hl]). congruence.
    + rewrite extrato_transacao by done. case_decide as Hd; [|done].
      subst cid. by destruct (Hop tipo v d t).
Qed.

(** ** [obter_estatisticas_conta] *)

Lemma sum_total_por_tipo tipo acc l :
  foldl f_add acc (valores_do_tipo tipo l) = total_por_tipo tipo acc l.
Proof.
  revert acc. induction l as [|t l IH]; intros acc; [done|].
  unfold valores_do_tipo. rewrite filter_cons. simpl.
  destruct (String.eqb_spec (t_tipo t) (TipoTransacao_value tipo)) as [He|He].
  - rewrite decide_True by done. simpl. apply IH.
  - rewrite decide_False by done. apply IH.
Qed.

(** C9: in every reachable store and for every account id,
    [obter_estatisticas_conta] returns, with the store unchanged, the sum
    of the amounts of the deposits and the sum of the amounts of the
    withdrawals of the list given by [obter_transacoes_por_conta], each
    rounded to two decimals, and the length of that list; in any two
    stores with the same transactions and the same index it gives the
    same outcome. *)
Theorem obter_estatisticas_conta_correto s i :
  alcancavel s ->
  exists l,
    obter_transacoes_por_conta i s = (Retorna l, s) /\
    obter_estatisticas_conta i s =
      (Retorna {| total_depositos := f_round2 (total_por_tipo DEPOSITO f_zero l);
                  total_saques := f_round2 (total_por_tipo SAQUE f_zero l);
                  quantidade_transacoes := Z.of_nat (length l) |}, s) /\
    (forall s2,
       transacoes s2 = transacoes s ->
       conta_id_to_transacoes s2 = conta_id_to_transacoes s ->
       obter_estatisticas_conta i s2 =
         (fst (obter_estatisticas_conta i s), s2)).
Proof.
  intros Hr. pose proof (consistente_alcancavel s Hr) as Hs.
  exists (extrato s i).
  assert (He : obter_estatisticas_conta i s =
    (Retorna {| total_depositos := f_round2 (total_por_tipo DEPOSITO f_zero (extrato s i));
                total_saques := f_round2 (total_por_tipo SAQUE f_zero (extrato s i));
                quantidade_transacoes := Z.of_nat (length (extrato s i)) |}, s)).
  { unfold obter_estatisticas_conta. unfold mbind at 1, Metodo_bind at 1, ligar.
    rewrite obter_transacoes_extrato by done. unfold retornar, sum.
    by rewrite !sum_total_por_tipo. }
  split; [by apply obter_transacoes_extrato|]. split; [done|].
  intros s2 Ht Hi. rewrite He. simpl.
  unfold obter_estatisticas_conta, obter_transacoes_por_conta. passo.
  rewrite Ht, Hi.
  rewrite (mapM_omap _ _ (indice_resolvido s i Hs)). simpl.
  unfold sum. by rewrite !sum_total_por_tipo.
Qed.

(** ** Balances recorded by [criar_transacao] *)


(** ** [criar_usuario] on a reachable store *)

(** C6: on a reachable store, [criar_usuario] with a CPF that some stored
    user has raises the duplicate-identity error and returns the store it
    was given; with a CPF that no stored user has, it returns a user whose
    id is the counter, which is the number of users plus one and is not
    yet in the table, stores that user under that id and advances the
    counter by one. *)
Theorem criar_usuario_correto s nome cpf senha_hash agora :
  alcancavel s ->
  ((exists i u, usuarios s !! i = Some u /\ u_cpf u = cpf) ->
   criar_usuario nome cpf senha_hash agora s = (Levanta DuplicateIdentity, s)) /\
  (~ (exists i u, usuarios s !! i = Some u /\ u_cpf u = cpf) ->
   exists u s',
     criar_usuario nome cpf senha_hash agora s = (Retorna u, s') /\
     u = {| u_id := usuario_id_counter s; u_nome := nome; u_cpf := cpf;
            u_senha_hash := senha_hash; u_data_criacao := agora |} /\
     u_id u = Z.of_nat (size (usuarios s)) + 1 /\
     usuarios s !! u_id u = None /\
     usuarios s' = <[u_id u := u]> (usuarios s) /\
     size (usuarios s') = S (size (usuarios s)) /\
     usuario_id_counter s' = usuario_id_counter s + 1 /\
     cpf_to_usuario_id s' = <[cpf := u_id u]> (cpf_to_usuario_id s) /\
     contas s' = contas s /\ transacoes s' = transacoes s).
Proof.
  intros Hr. pose proof (consistente_alcancavel s Hr) as Hs. split.
  - intros (i & u & Hu & Hcpf).
    eapply criar_usuario_duplicado. apply (cons_cpf s Hs). eauto.
  - intros Hn.
    assert (Hi : cpf_to_usuario_id s !! cpf = None).
    { destruct (cpf_to_usuario_id s !! cpf) as [i|] eqn:Hi; [|done].
      apply (cons_cpf s Hs) in Hi. destruct Hi as (u & Hu & Hc).
      destruct Hn. eauto. }
    assert (Hfresh : usuarios s !! usuario_id_counter s = None).
    { destruct (usuarios s !! usuario_id_counter s) as [u'|] eqn:Hu'; [|done].
      apply (cons_usuarios s Hs) in Hu'. lia. }
    eexists _, _. split; [by apply criar_usuario_ok|]. simpl.
    repeat split; try done.
    + apply (cons_contador_usuarios s Hs).
    + by apply map_size_insert_None.
Qed.

(** ** [criar_conta] on a reachable store *)

Lemma uma_conta_por_usuario s i j ci cj :
  consistente s ->
  contas s !! i = Some ci -> contas s !! j = Some cj ->
  c_usuario_id ci = c_usuario_id cj -> i = j.
Proof.
  intros Hs Hi Hj He.
  destruct (cons_contas s Hs _ _ Hi) as (_ & _ & H1 & _).
  destruct (cons_contas s Hs _ _ Hj) as (_ & _ & H2 & _).
  congruence.
Qed.

(** C7: on a reachable store, [criar_conta] for a user id that is not in
    the table raises the unknown-user error, and for a user who owns an
    account raises the account-already-exists error, in both cases
    returning the store it was given; for a user without an account it
    returns and stores an account of that user with balance 0.0; and in
    every reachable store two accounts of the same user are the same
    account. *)
Theorem criar_conta_correto s usuario_id tipo_conta digito agora :
  alcancavel s ->
  (usuarios s !! usuario_id = None ->
   criar_conta usuario_id tipo_conta digito agora s = (Levanta UnknownUser, s)) /\
  (is_Some (usuarios s !! usuario_id) ->
   (exists i c, contas s !! i = Some c /\ c_usuario_id c = usuario_id) ->
   criar_conta usuario_id tipo_conta digito agora s =
     (Levanta AccountAlreadyExists, s)) /\
  (is_Some (usuarios s !! usuario_id) ->
   ~ (exists i c, contas s !! i = Some c /\ c_usuario_id c = usuario_id) ->
   exists c s',
     criar_conta usuario_id tipo_conta digito agora s = (Retorna c, s') /\
     c_saldo c = f_zero /\
     c_usuario_id c = usuario_id /\
     c_id c = conta_id_counter s /\
     contas s !! c_id c = None /\
     contas s' = <[c_id c := c]> (contas s) /\
     conta_id_to_transacoes s' !! c_id c = Some []) /\
  (forall i j ci cj,
     contas s !! i = Some ci -> contas s !! j = Some cj ->
     c_usuario_id ci = c_usuario_id cj -> i = j).
Proof.
  intros Hr. pose proof (consistente_alcancavel s Hr) as Hs.
  split; [by apply criar_conta_sem_usuario|]. split; [|split].
  - intros [u Hu] (i & c & Hc & Hd).
    eapply criar_conta_repetida; [done|].
    destruct (cons_contas s Hs _ _ Hc) as (_ & _ & Hx & _). by rewrite <- Hd.
  - intros [u Hu] Hn.
    assert (Hi : usuario_id_to_conta_id s !! usuario_id = None).
    { destruct (usuario_id_to_conta_id s !! usuario_id) as [i|] eqn:Hi; [|done].
      destruct (cons_dono s Hs _ _ Hi) as (c & Hc & Hd). destruct Hn. eauto. }
    eexists _, _. split; [by eapply criar_conta_ok|]. simpl.
    repeat split; try done.
    + destruct (contas s !! conta_id_counter s) as [c'|] eqn:Hc'; [|done].
      apply (cons_contas s Hs) in Hc'. lia.
    + by rewrite lookup_insert_eq.
  - intros i j ci cj. by apply uma_conta_por_usuario.
Qed.

(** ** The request schema stands before the engine *)

(** C4, as the code has it: a deposit or withdrawal request whose amount is
    [<= 0] is refused by the validation of the request body, with the
    invalid-amount error and the store untouched, before [criar_transacao]
    is called; [criar_transacao] itself makes no test on the sign of the
    amount: on an account with its list of transaction ids a deposit of
    any amount is committed. *)
Theorem valor_invalido_recusado_no_esquema tipo v d cpf_atual agora s :
  f_le v f_zero = true ->
  realizar_transacao tipo v d cpf_atual agora s = (Levanta InvalidAmount, s) /\
  (forall conta_id c ids,
     contas s !! conta_id = Some c ->
     conta_id_to_transacoes s !! conta_id = Some ids ->
     criar_transacao conta_id DEPOSITO v d agora s =
       (Retorna (registro s conta_id DEPOSITO v d agora c),
        apos_transacao s conta_id DEPOSITO v d agora c ids)).
Proof.
  intros Hle. split.
  - unfold realizar_transacao, TransacaoCreate_validar, validar_valor_positivo.
    rewrite Hle. by destruct (f_lt f_zero v).
  - intros conta_id c ids Hc Hi. by apply criar_transacao_ok.
Qed.

(** ** Chained balances *)

Lemma cadeia_snoc b l b' t :
  cadeia b l b' -> t_saldo_anterior t = b' ->
  cadeia b (l ++ [t]) (t_saldo_posterior t).
Proof.
  induction 1 as [b|b t0 l b' H0 H IH]; intros Ht; simpl.
  - constructor; [done|constructor].
  - constructor; [done|by apply IH].
Qed.

Lemma cadeia_saldo_final (b b' : M) l : cadeia b l b' -> saldo_final b l = b'.
Proof. induction 1 as [b|b t l b' H0 H IH]; [done|]. simpl. apply IH. Qed.

Lemma cadeia_ultimo b l b' t :
  cadeia b l b' -> last l = Some t -> t_saldo_posterior t = b'.
Proof.
  induction 1 as [b|b t0 l b' H0 H IH]; intros Hl; [done|].
  destruct l as [|t1 l1].
  - injection Hl as <-. by inversion H.
  - by apply IH.
Qed.

Lemma cadeia_primeiro b l b' t :
  cadeia b l b' -> head l = Some t -> t_saldo_anterior t = b.
Proof. destruct 1; [done|]. by intros [= ->]. Qed.

Lemma cadeia_vizinhos b l b' k t1 t2 :
  cadeia b l b' -> l !! k = Some t1 -> l !! S k = Some t2 ->
  t_saldo_anterior t2 = t_saldo_posterior t1.
Proof.
  intros H. revert k. induction H as [b|b t l b' H0 H IH]; intros k H1 H2;
    [done|].
  destruct k as [|k]; simpl in *.
  - injection H1 as ->. inversion H; subst; [done|]. by injection H2 as ->.
  - by eapply IH.
Qed.

Section Arredondamento.
Context `{HR : !RoundLaws M}.

Lemma encadeado_executar s op :
  consistente s -> encadeado s -> encadeado (executar s op).
Proof.
  intros Hs He.
  destruct (executar_casos s op)
    as [->|[(n & cpf & h & t & _ & _ & ->)
          |[(uid & k & dg & t & u & _ & Hu & Hi & ->)
          |(cid & tipo & v & d & t & c & -> & Hc & Hf & [Hi|(ids & Hi & ->)])]]].
  - done.
  - intros i c Hc. rewrite extrato_registro. by apply He.
  - intros i c. rewrite extrato_abertura by done. simpl.
    rewrite lookup_insert. case_decide as Hd.
    + intros [= <-]. simpl. split; [apply round2_zero|constructor].
    + by apply He.
  - destruct (cons_contas s Hs _ _ Hc) as (_ & _ & _ & [l Hl]). congruence.
  - intros i c'. rewrite extrato_transacao by done. simpl.
    rewrite lookup_insert. case_decide as Hd.
    + intros [= <-]. simpl. split; [apply round2_idem|].
      destruct (He _ _ Hc) as [Hfix Hch]. subst i.
      exact (cadeia_snoc f_zero (extrato s cid) (c_saldo c)
               (registro s cid tipo v d t c) Hch Hfix).
    + by apply He.
Qed.

Lemma encadeado_alcancavel s : alcancavel s -> encadeado s.
Proof.
  revert s. apply alcancavel_ind.
  - intros i c Hc. simpl in Hc. by rewrite lookup_empty in Hc.
  - intros s op Hr. apply encadeado_executar. by apply consistente_alcancavel.
Qed.

(** C3: in every reachable store and for every account, the list returned
    by [obter_transacoes_por_conta] is a chain: its first transaction has
    balance-before 0.0, every next one has as balance-before the
    balance-after of the one before it, and the balance-after of the last
    one is the balance of the account; folding the recorded balances from
    0.0 gives the balance of the account (0.0 for an empty list).  The
    arithmetic is any one in which [round(_, 2)] leaves 0.0 and its own
    results as they are. *)
Theorem extrato_reconstroi_saldo s i c :
  alcancavel s ->
  contas s !! i = Some c ->
  exists l,
    obter_transacoes_por_conta i s = (Retorna l, s) /\
    cadeia f_zero l (c_saldo c) /\
    saldo_final f_zero l = c_saldo c /\
    (forall t, head l = Some t -> t_saldo_anterior t = f_zero) /\
    (forall k t1 t2, l !! k = Some t1 -> l !! S k = Some t2 ->
       t_saldo_anterior t2 = t_saldo_posterior t1) /\
    (forall t, last l = Some t -> t_saldo_posterior t = c_saldo c) /\
    (l = [] -> c_saldo c = f_zero).
Proof.
  intros Hr Hc. pose proof (consistente_alcancavel s Hr) as Hs.
  destruct (encadeado_alcancavel s Hr _ _ Hc) as [_ Hch].
  exists (extrato s i). split; [by apply obter_transacoes_extrato|].
  split; [done|]. split; [by apply cadeia_saldo_final|].
  split; [intros t; by eapply cadeia_primeiro|].
  split; [intros k t1 t2; by eapply cadeia_vizinhos|].
  split; [intros t; by eapply cadeia_ultimo|].
  intros Hnil. rewrite Hnil in Hch. by inversion Hch.
Qed.

End Arredondamento.

(** ** Balances stay non-negative under validated amounts *)

Section Sinais.
Context `{Fin : Finitude M} `{HS : !SignLaws M}.

Lemma nao_negativos_executar s op :
  consistente s -> valor_nao_negativo op ->
  saldos_nao_negativos s -> saldos_nao_negativos (executar s op).
Proof.
  intros Hs Hv Hn.
  destruct (executar_casos s op)
    as [->|[(n & cpf & h & t & _ & _ & ->)
          |[(uid & k & dg & t & u & _ & Hu & Hi & ->)
          |(cid & tipo & v & d & t & c & -> & Hc & Hf & [Hi|(ids & Hi & ->)])]]].
  - done.
  - done.
  - intros i c. simpl. rewrite lookup_insert. case_decide as Hd.
    + intros [= <-]. simpl. apply sinal_zero.
    + by apply Hn.
  - destruct (cons_contas s Hs _ _ Hc) as (_ & _ & _ & [l Hl]). congruence.
  - intros i c'. simpl. rewrite lookup_insert. case_decide as Hd.
    + intros [= <-]. simpl. destruct Hv as [Hv Hfin].
      pose proof (Hn _ _ Hc) as Hc0. apply sinal_round.
      destruct tipo; simpl.
      * by apply sinal_add.
      * apply sinal_sub; [done|done|by apply Hfin|by apply Hf].
    + by apply Hn.
Qed.

Lemma valor_admissivel_nao_negativo op :
  valor_admissivel op -> valor_nao_negativo op.
Proof.
  destruct op as [| |j tipo v d t]; simpl; try done.
  intros [Hv Hfin]. split; [by apply sinal_lt_le|done].
Qed.

Lemma nao_negativos_historia ops :
  Forall valor_admissivel ops -> saldos_nao_negativos (executar_todas ops).
Proof.
  induction ops as [|op ops IH] using rev_ind; intros Hf.
  - intros i c Hc. simpl in Hc. by rewrite lookup_empty in Hc.
  - apply Forall_app in Hf as [Hf Hop]. rewrite Forall_singleton in Hop.
    rewrite executar_todas_snoc.
    apply nao_negativos_executar;
      [|by apply valor_admissivel_nao_negativo|by apply IH].
    apply consistente_alcancavel. by eexists.
Qed.

(** C1, as the code has it: along every history of [criar_usuario],
    [criar_conta] and [criar_transacao] in which every applied amount is
    [> 0] (what the request schema lets through) and every withdrawn
    amount is finite, the balance of every account is [>= 0] after each
    operation; and a withdrawal of more than the balance raises the
    insufficient-funds error and returns the store it was given.  The
    arithmetic is any one with the sign rules of [SignLaws], which the
    doubles have ([Binary64_sinais]). *)
Theorem saldo_nunca_negativo ops :
  Forall valor_admissivel ops ->
  forall k,
    let s := executar_todas (take k ops) in
    (forall i c, contas s !! i = Some c -> f_le f_zero (c_saldo c) = true) /\
    (forall i c v d agora,
       contas s !! i = Some c -> f_lt (c_saldo c) v = true ->
       criar_transacao i SAQUE v d agora s = (Levanta InsufficientFunds, s)).
Proof.
  intros Hf k s. split.
  - apply nao_negativos_historia. by apply Forall_take.
  - intros i c v d agora. apply criar_transacao_saque_negado.
Qed.

End Sinais.

End Propriedades.

(** * Further properties of the store *)

(** ** Printed numbers *)

Lemma so_digitos_app a b :
  so_digitos a = true -> so_digitos b = true -> so_digitos (a +:+ b) = true.
Proof.
  induction a as [|c a IH]; simpl; [done|].
  intros [Hc Ha]%andb_true_iff Hb. rewrite Hc. simpl. by apply IH.
Qed.

Lemma so_digitos_zeros n : so_digitos (zeros n) = true.
Proof. induction n; [done|]. simpl. exact IHn. Qed.

Lemma pretty_N_char_digito x : digito_ascii (pretty_N_char x) = true.
Proof. unfold pretty_N_char. by repeat case_match. Qed.

Lemma pretty_N_go_digitos x r :
  so_digitos r = true -> so_digitos (pretty_N_go x r) = true.
Proof.
  revert r. induction (N.lt_wf_0 x) as [x _ IH]; intros r Hr.
  assert (x = 0 \/ 0 < x)%N as [->|Hx] by lia.
  - by rewrite pretty_N_go_0.
  - rewrite pretty_N_go_step by done. apply IH; [by apply N.div_lt|].
    simpl. by rewrite pretty_N_char_digito.
Qed.

Lemma pretty_N_go_inicio x r :
  (0 < x)%N ->
  exists c r', pretty_N_go x r = String c r' /\ c <> "0"%char.
Proof.
  revert r. induction (N.lt_wf_0 x) as [x _ IH]; intros r Hx.
  rewrite pretty_N_go_step by done.
  destruct (N.eq_0_gt_0_cases (x `div` 10)%N) as [Hd|Hd].
  - rewrite Hd, pretty_N_go_0. eexists _, _. split; [done|].
    assert (x < 10)%N by (by apply N.div_small_iff in Hd).
    rewrite N.mod_small by done.
    assert (x = 1 \/ x = 2 \/ x = 3 \/ x = 4 \/ x = 5 \/ x = 6
            \/ x = 7 \/ x = 8 \/ x = 9)%N as Hc by lia.
    by destruct Hc as [->|[->|[->|[->|[->|[->|[->|[->| ->]]]]]]]].
  - apply IH; [by apply N.div_lt|done].
Qed.

Lemma pretty_Z_pos (p : positive) : pretty (Z.pos p) = pretty_N_go (N.pos p) "".
Proof. done. Qed.

Lemma zfill_digitos w c r :
  digito_ascii c = true ->
  zfill w (String c r) = zeros (w - String.length (String c r)) +:+ String c r.
Proof.
  intros Hc. unfold zfill.
  destruct (w <=? String.length (String c r))%nat eqn:E.
  - apply Nat.leb_le in E.
    replace (w - String.length (String c r))%nat with 0%nat by lia. done.
  - assert (Ascii.eqb c "-" = false) as ->.
    { apply Ascii.eqb_neq. intros ->. discriminate. }
    assert (Ascii.eqb c "+" = false) as ->.
    { apply Ascii.eqb_neq. intros ->. discriminate. }
    done.
Qed.

Lemma zeros_app_inj k1 k2 c1 r1 c2 r2 :
  c1 <> "0"%char -> c2 <> "0"%char ->
  zeros k1 +:+ String c1 r1 = zeros k2 +:+ String c2 r2 ->
  String c1 r1 = String c2 r2.
Proof.
  intros H1 H2. revert k2. induction k1 as [|k1 IH]; intros [|k2]; simpl.
  - done.
  - intros [= -> _]. done.
  - intros [= <- _]. done.
  - intros [= Hx]. by eapply IH.
Qed.

Lemma digitos_antes_do_traco d1 d2 r1 r2 :
  so_digitos d1 = true -> so_digitos d2 = true ->
  d1 +:+ String "-" r1 = d2 +:+ String "-" r2 -> d1 = d2.
Proof.
  revert d2. induction d1 as [|c d1 IH]; intros [|c2 d2]; simpl.
  - done.
  - intros _ [Hc _]%andb_true_iff [= <- _]. discriminate.
  - intros [Hc _]%andb_true_iff _ [= -> _]. discriminate.
  - intros [_ H1]%andb_true_iff [_ H2]%andb_true_iff [= -> Hx].
    f_equal. by eapply IH.
Qed.

(** The zero-padded sequence is made of digits and determines the number
    it was printed from. *)
Lemma sequencia_digitos (n : Z) :
  0 < n -> so_digitos (zfill 6 (pretty n)) = true.
Proof.
  intros Hn. destruct n as [|p|p]; try lia.
  rewrite pretty_Z_pos.
  destruct (pretty_N_go_inicio (N.pos p) "") as (c & r & Hp & Hc); [lia|].
  pose proof (pretty_N_go_digitos (N.pos p) "" eq_refl) as Hd.
  rewrite Hp in Hd |- *. simpl in Hd. apply andb_true_iff in Hd as [Hd1 Hd2].
  rewrite zfill_digitos by done.
  apply so_digitos_app; [apply so_digitos_zeros|]. simpl. by rewrite Hd1.
Qed.

Lemma sequencia_inj (n m : Z) :
  0 < n -> 0 < m -> zfill 6 (pretty n) = zfill 6 (pretty m) -> n = m.
Proof.
  intros Hn Hm. destruct n as [|p|p], m as [|q|q]; try lia.
  intros Hz. apply (inj (pretty (A:=Z))). revert Hz.
  rewrite !pretty_Z_pos.
  destruct (pretty_N_go_inicio (N.pos p) "") as (c1 & r1 & Hp & Hc1); [lia|].
  destruct (pretty_N_go_inicio (N.pos q) "") as (c2 & r2 & Hq & Hc2); [lia|].
  pose proof (pretty_N_go_digitos (N.pos p) "" eq_refl) as Hd1.
  pose proof (pretty_N_go_digitos (N.pos q) "" eq_refl) as Hd2.
  rewrite Hp in Hd1 |- *. rewrite Hq in Hd2 |- *. simpl in Hd1, Hd2.
  apply andb_true_iff in Hd1 as [Hd1 _]. apply andb_true_iff in Hd2 as [Hd2 _].
  rewrite !zfill_digitos by done. by apply zeros_app_inj.
Qed.

Section Complementos.
Context {M : Type} `{Num : PyFloat M}.
Implicit Types (self s : @DatabaseSimulator M) (c : @conta M)
  (t : @transacao M) (u : usuario) (v : M) (op : @operacao M)
  (ops : list (@operacao M)).

(** ** Failures of [criar_transacao] *)

(** X1: on a reachable store a call of [criar_transacao] that raises
    returns the store it was given, and what it raises is the
    account-not-found error (no such account) or the insufficient-funds
    error (a withdrawal of more than the balance), never a [KeyError]. *)
Theorem criar_transacao_falha_atomica s conta_id tipo v d agora e s' :
  alcancavel s ->
  criar_transacao conta_id tipo v d agora s = (Levanta e, s') ->
  s' = s /\
  ((e = AccountNotFound /\ contas s !! conta_id = None) \/
   (e = InsufficientFunds /\ tipo = SAQUE /\
    exists c, contas s !! conta_id = Some c /\ f_lt (c_saldo c) v = true)).
Proof.
  intros Hr Hct. pose proof (consistente_alcancavel s Hr) as Hs.
  destruct (criar_transacao_casos s conta_id tipo v d agora)
    as [[Hc Hx]|[(c & Hc & Ht & Hlt & Hx)|[(c & Hc & _ & Hi & _)
        |(c & ids & _ & _ & _ & Hx)]]].
  - rewrite Hct in Hx. injection Hx as -> ->. split; [done|]. by left.
  - rewrite Hct in Hx. injection Hx as -> ->. split; [done|]. right. eauto.
  - destruct (cons_contas s Hs _ _ Hc) as (_ & _ & _ & [l Hl]). congruence.
  - rewrite Hct in Hx. discriminate.
Qed.

(** X2: on any store in which the account exists but has no list in
    [conta_id_to_transacoes], a transaction that passes the funds test
    raises [KeyError] after the fact: the transaction is already stored
    under the id of the counter and the counter is already advanced, while
    the balance and the index are as before. *)
Theorem criar_transacao_indice_ausente self conta_id tipo v d agora c :
  contas self !! conta_id = Some c ->
  conta_id_to_transacoes self !! conta_id = None ->
  (tipo = SAQUE -> f_lt (c_saldo c) v = false) ->
  exists self',
    criar_transacao conta_id tipo v d agora self = (Levanta KeyError, self') /\
    transacoes self' =
      <[transacao_id_counter self := registro self conta_id tipo v d agora c]>
        (transacoes self) /\
    transacao_id_counter self' = transacao_id_counter self + 1 /\
    contas self' = contas self /\
    conta_id_to_transacoes self' = conta_id_to_transacoes self.
Proof.
  intros Hc Hi Hf.
  exists (set_transacoes
            (<[transacao_id_counter self :=
                 registro self conta_id tipo v d agora c]> (transacoes self))
            (set_transacao_id_counter (transacao_id_counter self + 1) self)).
  split; [|done].
  unfold criar_transacao. passo. rewrite Hc. simpl.
  destruct tipo; simpl.
  - by rewrite Hi.
  - rewrite Hf by done. simpl. by rewrite Hi.
Qed.

(** X3: on a reachable store, a deposit on an existing account always
    goes through, and so does a withdrawal of no more than the balance.
    The transaction gets the id of the counter, which no stored
    transaction has, and is stored under it with the rounded amount, the
    description and the time of the call; the counter advances by one. *)
Theorem criar_transacao_aceita s conta_id tipo v d agora c :
  alcancavel s ->
  contas s !! conta_id = Some c ->
  (tipo = SAQUE -> f_lt (c_saldo c) v = false) ->
  exists t s',
    criar_transacao conta_id tipo v d agora s = (Retorna t, s') /\
    t_id t = transacao_id_counter s /\
    t_conta_id t = conta_id /\
    t_tipo t = TipoTransacao_value tipo /\
    t_valor t = f_round2 v /\
    t_descricao t = d /\
    t_data_transacao t = agora /\
    transacoes s !! t_id t = None /\
    transacoes s' = <[t_id t := t]> (transacoes s) /\
    transacao_id_counter s' = transacao_id_counter s + 1.
Proof.
  intros Hr Hc Hf. pose proof (consistente_alcancavel s Hr) as Hs.
  destruct (cons_contas s Hs _ _ Hc) as (_ & _ & _ & [ids Hi]).
  eexists _, _. split; [by apply criar_transacao_ok|]. simpl.
  repeat split.
  destruct (transacoes s !! transacao_id_counter s) as [t|] eqn:Ht; [|done].
  apply (cons_transacoes s Hs) in Ht. lia.
Qed.

(** X4: a committed transaction touches nothing but its own account and
    its own list: users, both user indexes and the user and account
    counters are as before, every other account and every other list of
    transaction ids is as before, and the account itself keeps its id,
    number, kind, owner and creation time. *)
Theorem criar_transacao_preserva_resto s conta_id tipo v d agora t s' :
  alcancavel s ->
  criar_transacao conta_id tipo v d agora s = (Retorna t, s') ->
  usuarios s' = usuarios s /\
  cpf_to_usuario_id s' = cpf_to_usuario_id s /\
  usuario_id_to_conta_id s' = usuario_id_to_conta_id s /\
  usuario_id_counter s' = usuario_id_counter s /\
  conta_id_counter s' = conta_id_counter s /\
  (forall j, j <> conta_id ->
     contas s' !! j = contas s !! j /\
     conta_id_to_transacoes s' !! j = conta_id_to_transacoes s !! j) /\
  exists c c',
    contas s !! conta_id = Some c /\ contas s' !! conta_id = Some c' /\
    c_id c' = c_id c /\ c_numero_conta c' = c_numero_conta c /\
    c_tipo_conta c' = c_tipo_conta c /\ c_usuario_id c' = c_usuario_id c /\
    c_data_criacao c' = c_data_criacao c.
Proof.
  intros Hr Hct.
  destruct (criar_transacao_casos s conta_id tipo v d agora)
    as [[_ Hx]|[(c & _ & _ & _ & Hx)|[(c & _ & _ & _ & Hx)
        |(c & ids & Hc & Hf & Hi & Hx)]]];
    rewrite Hct in Hx; try discriminate.
  injection Hx as -> ->. simpl. repeat split.
  - by rewrite lookup_insert_ne.
  - by rewrite lookup_insert_ne.
  - exists c. eexists. rewrite lookup_insert_eq. by repeat split.
Qed.

(** ** Nothing is ever removed *)

Lemma estende_refl s : estende s s.
Proof.
  split; try done.
  intros i c Hc. exists c. by repeat split.
Qed.

Lemma estende_trans s1 s2 s3 : estende s1 s2 -> estende s2 s3 -> estende s1 s3.
Proof.
  intros H12 H23. split.
  - intros i u Hu. by apply (est_usuarios _ _ H23), (est_usuarios _ _ H12).
  - intros tid t Ht. by apply (est_transacoes _ _ H23), (est_transacoes _ _ H12).
  - intros i c Hc.
    destruct (est_contas _ _ H12 _ _ Hc) as (c2 & Hc2 & E1 & E2 & E3 & E4 & E5).
    destruct (est_contas _ _ H23 _ _ Hc2) as (c3 & Hc3 & F1 & F2 & F3 & F4 & F5).
    exists c3. split; [done|]. repeat split; congruence.
  - intros i. etrans; [apply (est_extrato _ _ H12)|apply (est_extrato _ _ H23)].
  - pose proof (est_contadores _ _ H12). pose proof (est_contadores _ _ H23). lia.
Qed.

Lemma estende_executar s op : consistente s -> estende s (executar s op).
Proof.
  intros Hs.
  destruct (executar_casos s op)
    as [->|[(n & cpf & h & t & _ & Hi & ->)
          |[(uid & k & dg & t & u & _ & Hu & Hi & ->)
          |(cid & tipo & v & d & t & c & -> & Hc & Hf & [Hi|(ids & Hi & ->)])]]].
  - apply estende_refl.
  - split; simpl; try done; try lia.
    + intros i u Hu. rewrite lookup_insert_ne; [done|]. intros <-.
      apply (cons_usuarios s Hs) in Hu. lia.
    + intros i c Hc. exists c. by repeat split.
  - split; simpl; try done; try lia.
    + intros i c Hc. exists c. split; [|by repeat split].
      rewrite lookup_insert_ne; [done|]. intros <-.
      apply (cons_contas s Hs) in Hc. lia.
    + intros i. rewrite extrato_abertura by done. case_decide as Hd; [|done].
      subst i. rewrite extrato_sem_conta; [done|done|].
      destruct (contas s !! conta_id_counter s) as [c'|] eqn:Hc'; [|done].
      apply (cons_contas s Hs) in Hc'. lia.
  - destruct (cons_contas s Hs _ _ Hc) as (_ & _ & _ & [l Hl]). congruence.
  - split; simpl; try done; try lia.
    + intros tid t' Ht. rewrite lookup_insert_ne; [done|]. intros <-.
      apply (cons_transacoes s Hs) in Ht. lia.
    + intros i c' Hc'. rewrite lookup_insert. case_decide as Hd.
      * subst i. assert (c' = c) as -> by congruence.
        eexists. split; [done|]. by repeat split.
      * exists c'. by repeat split.
    + intros i. rewrite extrato_transacao by done. case_decide; [|done].
      by apply prefix_app_r.
Qed.

Lemma estende_historia ops ops' :
  estende (executar_todas ops) (executar_todas (ops ++ ops')).
Proof.
  induction ops' as [|op ops' IH] using rev_ind.
  - rewrite app_nil_r. apply estende_refl.
  - rewrite app_assoc, executar_todas_snoc.
    eapply estende_trans; [exact IH|].
    apply estende_executar, consistente_alcancavel. by eexists.
Qed.

(** X5: whatever operations follow a history, every user and every
    transaction that the store held stays in it unchanged, every account
    stays with all its keys but the balance unchanged, the statement of
    every account only grows at its end, and no counter decreases. *)
Theorem historia_so_cresce ops ops' :
  let s := executar_todas ops in
  let s' := executar_todas (ops ++ ops') in
  (forall i u, usuarios s !! i = Some u -> usuarios s' !! i = Some u) /\
  (forall tid t, transacoes s !! tid = Some t -> transacoes s' !! tid = Some t) /\
  (forall i c, contas s !! i = Some c ->
     exists c', contas s' !! i = Some c' /\
       c_id c' = c_id c /\ c_numero_conta c' = c_numero_conta c /\
       c_tipo_conta c' = c_tipo_conta c /\ c_usuario_id c' = c_usuario_id c /\
       c_data_criacao c' = c_data_criacao c) /\
  (forall i l, fst (obter_transacoes_por_conta i s) = Retorna l ->
     exists l', fst (obter_transacoes_por_conta i s') = Retorna (l ++ l')) /\
  usuario_id_counter s <= usuario_id_counter s' /\
  conta_id_counter s <= conta_id_counter s' /\
  transacao_id_counter s <= transacao_id_counter s'.
Proof.
  intros s s'. destruct (estende_historia ops ops') as [H1 H2 H3 H4 H5].
  fold s s' in H1, H2, H3, H4, H5.
  split; [done|]. split; [done|]. split; [done|]. split; [|done].
  intros i l Hl.
  rewrite obter_transacoes_extrato in Hl
    by (apply consistente_alcancavel; by eexists).
  rewrite obter_transacoes_extrato
    by (apply consistente_alcancavel; by eexists).
  simpl in *. injection Hl as <-.
  destruct (H4 i) as [l' ->]. by exists l'.
Qed.

(** ** Ids *)

Lemma ids_sequenciais_inicio : ids_sequenciais (@db_init M).
Proof.
  split; simpl; [lia|..]; intros i; rewrite lookup_empty;
    (split; [by intros []|lia]).
Qed.

Lemma is_Some_insert_seq {A} (m : gmap Z A) (n : Z) (x : A) :
  1 <= n ->
  (forall i, is_Some (m !! i) <-> 1 <= i < n) ->
  forall i, is_Some (<[n := x]> m !! i) <-> 1 <= i < n + 1.
Proof.
  intros Hn Hm i. rewrite lookup_insert. case_decide as Hd.
  - subst i. split; [lia|by eexists].
  - rewrite Hm. lia.
Qed.

Lemma ids_sequenciais_executar s op :
  consistente s -> ids_sequenciais s -> ids_sequenciais (executar s op).
Proof.
  intros Hs [(Hu & Hc & Ht) H1 H2 H3].
  destruct (executar_casos s op)
    as [->|[(n & cpf & h & t & _ & Hi & ->)
          |[(uid & k & dg & t & u & _ & Hx & Hi & ->)
          |(cid & tipo & v & d & t & c & -> & Hcc & Hf & [Hi|(ids & Hi & ->)])]]].
  - by split.
  - split; simpl; [lia| |done|done]. by apply is_Some_insert_seq.
  - split; simpl; [lia|done| |done]. by apply is_Some_insert_seq.
  - destruct (cons_contas s Hs _ _ Hcc) as (_ & _ & _ & [l Hl]). congruence.
  - split; simpl; [lia|done| |].
    + intros i. rewrite lookup_insert. case_decide as Hd; [|done].
      subst i. rewrite <- H2. rewrite Hcc. split; by eexists.
    + by apply is_Some_insert_seq.
Qed.

Lemma ids_sequenciais_alcancavel s : alcancavel s -> ids_sequenciais s.
Proof.
  revert s. apply alcancavel_ind; [apply ids_sequenciais_inicio|].
  intros s op Hr. apply ids_sequenciais_executar. by apply consistente_alcancavel.
Qed.

(** X6: in a reachable store the ids in use are exactly 1, 2, ... up to
    the counter minus one, for users, for accounts and for transactions:
    ids start at 1 and are handed out without gaps. *)
Theorem ids_sem_lacunas s :
  alcancavel s ->
  (forall i, is_Some (usuarios s !! i) <-> 1 <= i < usuario_id_counter s) /\
  (forall i, is_Some (contas s !! i) <-> 1 <= i < conta_id_counter s) /\
  (forall i, is_Some (transacoes s !! i) <-> 1 <= i < transacao_id_counter s).
Proof.
  intros Hr. destruct (ids_sequenciais_alcancavel s Hr) as [_ H1 H2 H3].
  split; [exact H1|]. split; [exact H2|exact H3].
Qed.

(** ** Lookups *)

Lemma obter_usuario_por_cpf_indice s cpf :
  obter_usuario_por_cpf cpf s =
    (Retorna (match cpf_to_usuario_id s !! cpf with
              | Some i => if i =? 0 then None else usuarios s !! i
              | None => None
              end), s).
Proof.
  unfold obter_usuario_por_cpf. passo.
  destruct (cpf_to_usuario_id s !! cpf) as [i|]; simpl; [|done].
  by destruct (i =? 0).
Qed.

Lemma obter_conta_por_usuario_indice s usuario_id :
  obter_conta_por_usuario usuario_id s =
    (Retorna (match usuario_id_to_conta_id s !! usuario_id with
              | Some i => if i =? 0 then None else contas s !! i
              | None => None
              end), s).
Proof.
  unfold obter_conta_por_usuario. passo.
  destruct (usuario_id_to_conta_id s !! usuario_id) as [i|]; simpl; [|done].
  by destruct (i =? 0).
Qed.

Lemma obter_usuario_por_cpf_achado s cpf i u :
  consistente s -> ids_sequenciais s ->
  usuarios s !! i = Some u -> u_cpf u = cpf ->
  obter_usuario_por_cpf cpf s = (Retorna (Some u), s).
Proof.
  intros Hs Hq Hu Hcpf. rewrite obter_usuario_por_cpf_indice.
  assert (Hi : cpf_to_usuario_id s !! cpf = Some i)
    by (apply (cons_cpf s Hs); eauto).
  rewrite Hi.
  assert (1 <= i) by (apply (seq_usuarios s Hq); by eexists).
  destruct (Z.eqb_spec i 0); [lia|]. by rewrite Hu.
Qed.

Lemma obter_usuario_por_cpf_ausente s cpf :
  consistente s ->
  ~ (exists i u, usuarios s !! i = Some u /\ u_cpf u = cpf) ->
  obter_usuario_por_cpf cpf s = (Retorna None, s).
Proof.
  intros Hs Hn. rewrite obter_usuario_por_cpf_indice.
  destruct (cpf_to_usuario_id s !! cpf) as [i|] eqn:Hi; [|done].
  apply (cons_cpf s Hs) in Hi. destruct Hi as (u & Hu & Hc).
  destruct Hn. eauto.
Qed.

Lemma obter_conta_por_usuario_achada s usuario_id i c :
  consistente s -> ids_sequenciais s ->
  contas s !! i = Some c -> c_usuario_id c = usuario_id ->
  obter_conta_por_usuario usuario_id s = (Retorna (Some c), s).
Proof.
  intros Hs Hq Hc Hd. rewrite obter_conta_por_usuario_indice.
  destruct (cons_contas s Hs _ _ Hc) as (_ & _ & Hi & _).
  rewrite Hd in Hi. rewrite Hi.
  assert (1 <= i) by (apply (seq_contas s Hq); by eexists).
  destruct (Z.eqb_spec i 0); [lia|]. by rewrite Hc.
Qed.

Lemma obter_conta_por_usuario_ausente s usuario_id :
  consistente s ->
  ~ (exists i c, contas s !! i = Some c /\ c_usuario_id c = usuario_id) ->
  obter_conta_por_usuario usuario_id s = (Retorna None, s).
Proof.
  intros Hs Hn. rewrite obter_conta_por_usuario_indice.
  destruct (usuario_id_to_conta_id s !! usuario_id) as [i|] eqn:Hi; [|done].
  destruct (cons_dono s Hs _ _ Hi) as (c & Hc & Hd). destruct Hn. eauto.
Qed.

Lemma dono_existe s :
  alcancavel s ->
  forall (dono i : Z),
    usuario_id_to_conta_id s !! dono = Some i -> is_Some (usuarios s !! dono).
Proof.
  revert s.
  apply (alcancavel_ind (fun s => forall (dono i : Z),
           usuario_id_to_conta_id s !! dono = Some i ->
           is_Some (usuarios s !! dono))).
  - intros dono i Hi. simpl in Hi. by rewrite lookup_empty in Hi.
  - intros s op Hr IH dono i.
    pose proof (consistente_alcancavel s Hr) as Hs.
    destruct (executar_casos s op)
      as [->|[(n & cpf & h & t & _ & Hx & ->)
            |[(uid & k & dg & t & u' & _ & Hx & Hy & ->)
            |(cid & tipo & v & d & t & c & -> & Hcc & Hf & [Hy|(ids & Hy & ->)])]]];
      simpl.
    + apply IH.
    + intros Hi. rewrite lookup_insert. case_decide; [by eexists|by eapply IH].
    + rewrite lookup_insert. case_decide as Hd.
      * subst uid. intros _. by eexists.
      * apply IH.
    + destruct (cons_contas s Hs _ _ Hcc) as (_ & _ & _ & [l Hl]). congruence.
    + apply IH.
Qed.

(** X7: on a reachable store, [obter_usuario_por_cpf] returns the stored
    user who has that CPF, who is the only one, and returns [None] when no
    stored user has it; it leaves the store alone. *)
Theorem obter_usuario_por_cpf_correto s cpf :
  alcancavel s ->
  (forall i u, usuarios s !! i = Some u -> u_cpf u = cpf ->
     obter_usuario_por_cpf cpf s = (Retorna (Some u), s)) /\
  (forall i j ui uj, usuarios s !! i = Some ui -> usuarios s !! j = Some uj ->
     u_cpf ui = cpf -> u_cpf uj = cpf -> i = j) /\
  (~ (exists i u, usuarios s !! i = Some u /\ u_cpf u = cpf) ->
   obter_usuario_por_cpf cpf s = (Retorna None, s)).
Proof.
  intros Hr. pose proof (consistente_alcancavel s Hr) as Hs.
  pose proof (ids_sequenciais_alcancavel s Hr) as Hq.
  split; [|split].
  - intros i u. by apply obter_usuario_por_cpf_achado.
  - intros i j ui uj Hi Hj Hci Hcj.
    assert (cpf_to_usuario_id s !! cpf = Some i) by (apply (cons_cpf s Hs); eauto).
    assert (cpf_to_usuario_id s !! cpf = Some j) by (apply (cons_cpf s Hs); eauto).
    congruence.
  - by apply obter_usuario_por_cpf_ausente.
Qed.

(** X8: on a reachable store, [obter_conta_por_usuario] returns the
    account whose owner is the given user id, and returns [None] when
    that user owns no account (or does not exist); it leaves the store
    alone. *)
Theorem obter_conta_por_usuario_correto s usuario_id :
  alcancavel s ->
  (forall i c, contas s !! i = Some c -> c_usuario_id c = usuario_id ->
     obter_conta_por_usuario usuario_id s = (Retorna (Some c), s)) /\
  (~ (exists i c, contas s !! i = Some c /\ c_usuario_id c = usuario_id) ->
   obter_conta_por_usuario usuario_id s = (Retorna None, s)) /\
  (usuarios s !! usuario_id = None ->
   obter_conta_por_usuario usuario_id s = (Retorna None, s)).
Proof.
  intros Hr. pose proof (consistente_alcancavel s Hr) as Hs.
  pose proof (ids_sequenciais_alcancavel s Hr) as Hq.
  split; [|split].
  - intros i c. by apply obter_conta_por_usuario_achada.
  - by apply obter_conta_por_usuario_ausente.
  - intros Hu. rewrite obter_conta_por_usuario_indice.
    destruct (usuario_id_to_conta_id s !! usuario_id) as [i|] eqn:Hi; [|done].
    apply (dono_existe s Hr) in Hi. rewrite Hu in Hi. by destruct Hi.
Qed.

(** X9: what has just been created is found: after [criar_usuario]
    returns a user on a reachable store, looking the user up by CPF or by
    id gives that user; after [criar_conta] returns an account, looking it
    up by owner or by id gives that account. *)
Theorem consulta_apos_criacao s :
  alcancavel s ->
  (forall nome cpf senha_hash agora u s',
     criar_usuario nome cpf senha_hash agora s = (Retorna u, s') ->
     obter_usuario_por_cpf cpf s' = (Retorna (Some u), s') /\
     obter_usuario_por_id (u_id u) s' = (Retorna (Some u), s')) /\
  (forall usuario_id tipo_conta digito agora c s',
     criar_conta usuario_id tipo_conta digito agora s = (Retorna c, s') ->
     obter_conta_por_usuario usuario_id s' = (Retorna (Some c), s') /\
     obter_conta_por_id (c_id c) s' = (Retorna (Some c), s')).
Proof.
  intros Hr. pose proof (consistente_alcancavel s Hr) as Hs.
  pose proof (ids_sequenciais_alcancavel s Hr) as Hq. split.
  - intros nome cpf h agora u s' Hcu.
    pose proof (alcancavel_passo s (Registrar nome cpf h agora) Hr) as Hr'.
    simpl in Hr'. rewrite Hcu in Hr'. simpl in Hr'.
    destruct (cpf_to_usuario_id s !! cpf) as [i|] eqn:Hi.
    { erewrite criar_usuario_duplicado in Hcu by done. discriminate. }
    rewrite criar_usuario_ok in Hcu by done. injection Hcu as <- <-.
    split.
    + eapply obter_usuario_por_cpf_achado;
        [by apply consistente_alcancavel|by apply ids_sequenciais_alcancavel| |done].
      simpl. by rewrite lookup_insert_eq.
    + unfold obter_usuario_por_id. passo. by rewrite lookup_insert_eq.
  - intros uid k dg agora c s' Hcc.
    pose proof (alcancavel_passo s (AbrirConta uid k dg agora) Hr) as Hr'.
    simpl in Hr'. rewrite Hcc in Hr'. simpl in Hr'.
    destruct (usuarios s !! uid) as [u|] eqn:Hu.
    2:{ rewrite criar_conta_sem_usuario in Hcc by done. discriminate. }
    destruct (usuario_id_to_conta_id s !! uid) as [i|] eqn:Hi.
    { erewrite criar_conta_repetida in Hcc by done. discriminate. }
    erewrite criar_conta_ok in Hcc by done. injection Hcc as <- <-.
    split.
    + eapply obter_conta_por_usuario_achada;
        [by apply consistente_alcancavel|by apply ids_sequenciais_alcancavel| |done].
      simpl. by rewrite lookup_insert_eq.
    + unfold obter_conta_por_id, ler. simpl. by rewrite lookup_insert_eq.
Qed.

(** X10: the lookups through an index test the id they find with [if id:],
    so on any store an index entry that holds the id 0 is taken for a
    missing one: the lookup returns [None] whether or not a user (an
    account) is stored under 0. *)
Theorem consulta_por_indice_com_id_zero s :
  (forall cpf, cpf_to_usuario_id s !! cpf = Some 0 ->
     obter_usuario_por_cpf cpf s = (Retorna None, s)) /\
  (forall usuario_id, usuario_id_to_conta_id s !! usuario_id = Some 0 ->
     obter_conta_por_usuario usuario_id s = (Retorna None, s)).
Proof.
  split.
  - intros cpf Hi. rewrite obter_usuario_por_cpf_indice. by rewrite Hi.
  - intros uid Hi. rewrite obter_conta_por_usuario_indice. by rewrite Hi.
Qed.

(** ** Account numbers *)

Lemma numeros_formados_alcancavel s : alcancavel s -> numeros_formados s.
Proof.
  revert s. apply alcancavel_ind.
  - intros i c Hc. simpl in Hc. by rewrite lookup_empty in Hc.
  - intros s op Hr IH.
    pose proof (consistente_alcancavel s Hr) as Hs.
    destruct (executar_casos s op)
      as [->|[(n & cpf & h & t & _ & Hx & ->)
            |[(uid & k & dg & t & u' & _ & Hx & Hy & ->)
            |(cid & tipo & v & d & t & c & -> & Hcc & Hf & [Hy|(ids & Hy & ->)])]]].
    + done.
    + done.
    + intros i c. simpl. rewrite lookup_insert. case_decide as Hd.
      * intros [= <-]. subst i. by exists dg.
      * apply IH.
    + destruct (cons_contas s Hs _ _ Hcc) as (_ & _ & _ & [l Hl]). congruence.
    + intros i c'. simpl. rewrite lookup_insert. case_decide as Hd.
      * intros [= <-]. subst i. simpl. by apply IH.
      * apply IH.
Qed.

(** X11: in a reachable store the number of the account with id [i] is
    the branch 0001, a dash, the number [i + 1] padded with zeros to six
    digits, a dash and the digit drawn at its creation: the sequence in
    the number is the account id plus one, since the counter is advanced
    before the number is generated (the first account is 0001-000002-d). *)
Theorem numero_conta_forma s i c :
  alcancavel s ->
  contas s !! i = Some c ->
  exists digito : Z,
    c_numero_conta c =
      "0001" +:+ "-" +:+ zfill 6 (pretty (i + 1)) +:+ "-" +:+ pretty digito.
Proof. intros Hr Hc. by apply (numeros_formados_alcancavel s Hr). Qed.

(** X12: in a reachable store two different accounts have different
    account numbers, whatever digits were drawn. *)
Theorem numero_conta_unico s i j ci cj :
  alcancavel s ->
  contas s !! i = Some ci -> contas s !! j = Some cj ->
  i <> j -> c_numero_conta ci <> c_numero_conta cj.
Proof.
  intros Hr Hi Hj Hij Hn. apply Hij.
  pose proof (ids_sequenciais_alcancavel s Hr) as Hq.
  assert (1 <= i) by (apply (seq_contas s Hq); by eexists).
  assert (1 <= j) by (apply (seq_contas s Hq); by eexists).
  destruct (numeros_formados_alcancavel s Hr _ _ Hi) as (di & Ei).
  destruct (numeros_formados_alcancavel s Hr _ _ Hj) as (dj & Ej).
  rewrite Ei, Ej in Hn. simpl in Hn. injection Hn as Hn.
  apply digitos_antes_do_traco in Hn; [|apply sequencia_digitos; lia..].
  apply sequencia_inj in Hn; lia.
Qed.

(** ** The handlers of main.py *)

Lemma TransacaoCreate_validar_Retorna v d x :
  TransacaoCreate_validar v d = Retorna x ->
  f_lt f_zero v = true /\ f_le v f_zero = false /\
  valor x = f_round2 v /\ descricao x = d.
Proof.
  unfold TransacaoCreate_validar, validar_valor_positivo.
  destruct (f_lt f_zero v); simpl; [|discriminate].
  destruct (f_le v f_zero); [discriminate|].
  case_match; [discriminate|]. by intros [= <-].
Qed.

Lemma TransacaoCreate_validar_Levanta v d e :
  TransacaoCreate_validar v d = Levanta e ->
  e = ValidationError "valor" \/ e = ValidationError "descricao".
Proof.
  unfold TransacaoCreate_validar, validar_valor_positivo.
  destruct (f_lt f_zero v); simpl; [|intros [= <-]; by left].
  destruct (f_le v f_zero); [intros [= <-]; by left|].
  case_match; [intros [= <-]; by right|discriminate].
Qed.

Lemma TransacaoCreate_validar_descricao v d x :
  TransacaoCreate_validar v d = Retorna x ->
  (200 <? Z.of_nat (len (default EmptyString d))) = false.
Proof.
  unfold TransacaoCreate_validar, validar_valor_positivo.
  destruct (f_lt f_zero v); simpl; [|discriminate].
  destruct (f_le v f_zero); [discriminate|].
  by case_match.
Qed.

(** With the body validated, the user found and the account found, the
    handler is the call of the engine followed by the construction of the
    response, both under [try]. *)
Lemma realizar_transacao_despacho s tipo v d cpf agora x i u j c :
  consistente s -> ids_sequenciais s ->
  TransacaoCreate_validar v d = Retorna x ->
  usuarios s !! i = Some u -> u_cpf u = cpf ->
  contas s !! j = Some c -> c_usuario_id c = i ->
  realizar_transacao tipo v d cpf agora s =
    tentar
      (transacao_criada ← criar_transacao j tipo (valor x) (descricao x) agora;
       match Transacao_validar transacao_criada with
       | Retorna resposta => retornar resposta
       | Levanta e => levantar e
       end)
      (fun d => levantar (HTTPException 400 d)) s.
Proof.
  intros Hs Hq Hx Hu Hcpf Hc Hd. unfold realizar_transacao. rewrite Hx.
  unfold mbind at 1, Metodo_bind at 1, ligar at 1.
  rewrite (obter_usuario_por_cpf_achado s cpf i u) by done.
  unfold mbind at 1, Metodo_bind at 1, ligar at 1.
  destruct (cons_usuarios s Hs _ _ Hu) as [Hid _].
  rewrite (obter_conta_por_usuario_achada s (u_id u) j c) by congruence.
  destruct (cons_contas s Hs _ _ Hc) as [Hcid _]. by rewrite Hcid.
Qed.

(** X13: on a reachable store and for a request body that passes the
    schema, a deposit or withdrawal for a CPF that no stored user has is
    answered 404 "user not found", and for a user who owns no account 404
    "account not found"; a withdrawal of more than the balance is answered
    400 with the message of the engine.  In the three cases the store is
    the one before the request. *)
Theorem realizar_transacao_erros s tipo v d cpf agora x :
  alcancavel s ->
  TransacaoCreate_validar v d = Retorna x ->
  (~ (exists i u, usuarios s !! i = Some u /\ u_cpf u = cpf) ->
   realizar_transacao tipo v d cpf agora s =
     (Levanta (HTTPException 404 "Usuário não encontrado"), s)) /\
  (forall i u, usuarios s !! i = Some u -> u_cpf u = cpf ->
     ~ (exists j c, contas s !! j = Some c /\ c_usuario_id c = i) ->
     realizar_transacao tipo v d cpf agora s =
       (Levanta (HTTPException 404
                   "Conta não encontrada. Crie uma conta primeiro."), s)) /\
  (forall i u j c, usuarios s !! i = Some u -> u_cpf u = cpf ->
     contas s !! j = Some c -> c_usuario_id c = i ->
     f_lt (c_saldo c) (f_round2 v) = true ->
     realizar_saque v d cpf agora s =
       (Levanta (HTTPException 400 "Saldo insuficiente para realizar o saque"),
        s)).
Proof.
  intros Hr Hx. pose proof (consistente_alcancavel s Hr) as Hs.
  pose proof (ids_sequenciais_alcancavel s Hr) as Hq.
  split; [|split].
  - intros Hn. unfold realizar_transacao. rewrite Hx.
    unfold mbind at 1, Metodo_bind at 1, ligar at 1.
    by rewrite obter_usuario_por_cpf_ausente.
  - intros i u Hu Hcpf Hn. unfold realizar_transacao. rewrite Hx.
    unfold mbind at 1, Metodo_bind at 1, ligar at 1.
    rewrite (obter_usuario_por_cpf_achado s cpf i u) by done.
    unfold mbind at 1, Metodo_bind at 1, ligar at 1.
    destruct (cons_usuarios s Hs _ _ Hu) as [Hid _].
    rewrite obter_conta_por_usuario_ausente; [done|done|by rewrite Hid].
  - intros i u j c Hu Hcpf Hc Hd Hlt. unfold realizar_saque.
    rewrite (realizar_transacao_despacho s SAQUE v d cpf agora x i u j c)
      by done.
    destruct (TransacaoCreate_validar_Retorna v d x Hx) as (_ & _ & Hv & _).
    unfold tentar, mbind, Metodo_bind, ligar.
    rewrite (criar_transacao_saque_negado s j (valor x) (descricao x) agora c)
      by (by rewrite ?Hv).
    done.
Qed.

(** X14: on a reachable store, for a body that passes the schema and the
    account [c] of the stored user with that CPF, when the funds test
    passes: the engine commits the transaction with amount [round(v, 2)];
    if the response model accepts the stored transaction the request is
    answered with it, and if it refuses it, which it can only do for an
    amount that is not [> 0], the request is answered 400 with the
    validation report on the field [valor] as detail, although the
    transaction is stored and the balance updated. *)
Theorem realizar_transacao_compromete s tipo v d cpf agora x i u j c :
  alcancavel s ->
  TransacaoCreate_validar v d = Retorna x ->
  usuarios s !! i = Some u -> u_cpf u = cpf ->
  contas s !! j = Some c -> c_usuario_id c = i ->
  (tipo = SAQUE -> f_lt (c_saldo c) (f_round2 v) = false) ->
  exists t s',
    criar_transacao j tipo (f_round2 v) d agora s = (Retorna t, s') /\
    transacoes s' !! transacao_id_counter s = Some t /\
    (c_saldo <$> contas s' !! j) = Some (t_saldo_posterior t) /\
    match Transacao_validar t with
    | Retorna resposta =>
        realizar_transacao tipo v d cpf agora s = (Retorna resposta, s') /\
        t_id resposta = t_id t /\
        t_saldo_anterior resposta = t_saldo_anterior t /\
        t_saldo_posterior resposta = t_saldo_posterior t
    | Levanta e =>
        realizar_transacao tipo v d cpf agora s =
          (Levanta (HTTPException 400 (Relatorio "valor")), s') /\
        e = ValidationError "valor" /\
        (f_lt f_zero (t_valor t) = false \/ f_le (t_valor t) f_zero = true)
    end.
Proof.
  intros Hr Hx Hu Hcpf Hc Hd Hf.
  pose proof (consistente_alcancavel s Hr) as Hs.
  pose proof (ids_sequenciais_alcancavel s Hr) as Hq.
  destruct (TransacaoCreate_validar_Retorna v d x Hx) as (_ & _ & Hv & Hdx).
  pose proof (TransacaoCreate_validar_descricao v d x Hx) as Hlen.
  destruct (cons_contas s Hs _ _ Hc) as (_ & _ & _ & [ids Hi]).
  pose proof (criar_transacao_ok s j tipo (f_round2 v) d agora c ids Hc Hi Hf)
    as Hok.
  eexists _, _. split; [exact Hok|]. simpl.
  split; [by rewrite lookup_insert_eq|].
  split; [by rewrite lookup_insert_eq|].
  rewrite (realizar_transacao_despacho s tipo v d cpf agora x i u j c) by done.
  rewrite Hv, Hdx. unfold tentar, mbind, Metodo_bind, ligar. rewrite Hok.
  destruct (Transacao_validar (registro s j tipo (f_round2 v) d agora c))
    as [resposta|e] eqn:Hresp.
  - split; [done|]. unfold Transacao_validar in Hresp.
    case_match; [|discriminate]. by injection Hresp as <-.
  - unfold Transacao_validar, TransacaoCreate_validar, validar_valor_positivo
      in Hresp. simpl in Hresp. rewrite Hlen in Hresp.
    destruct (f_lt f_zero (f_round2 (f_round2 v))) eqn:Hlt; simpl in Hresp.
    + destruct (f_le (f_round2 (f_round2 v)) f_zero) eqn:Hle;
        [|discriminate].
      injection Hresp as <-. simpl. split; [done|]. split; [done|by right].
    + injection Hresp as <-. simpl. split; [done|]. split; [done|by left].
Qed.

(** *** Accounts through the API *)

Lemma main_criar_conta_sem_usuario s k cpf dg agora :
  consistente s ->
  ~ (exists i u, usuarios s !! i = Some u /\ u_cpf u = cpf) ->
  main_criar_conta k cpf dg agora s =
    (Levanta (HTTPException 404 "Usuário não encontrado"), s).
Proof.
  intros Hs Hn. unfold main_criar_conta.
  unfold mbind, Metodo_bind, ligar.
  by rewrite obter_usuario_por_cpf_ausente.
Qed.

Lemma main_criar_conta_despacho s k cpf dg agora i u :
  consistente s -> ids_sequenciais s ->
  usuarios s !! i = Some u -> u_cpf u = cpf ->
  main_criar_conta k cpf dg agora s =
    tentar (criar_conta i k dg agora)
           (fun d => levantar (HTTPException 400 d)) s.
Proof.
  intros Hs Hq Hu Hcpf. unfold main_criar_conta.
  unfold mbind, Metodo_bind, ligar.
  rewrite (obter_usuario_por_cpf_achado s cpf i u) by done.
  destruct (cons_usuarios s Hs _ _ Hu) as [-> _]. done.
Qed.

Lemma main_criar_conta_repetida s k cpf dg agora i u j c :
  consistente s -> ids_sequenciais s ->
  usuarios s !! i = Some u -> u_cpf u = cpf ->
  contas s !! j = Some c -> c_usuario_id c = i ->
  main_criar_conta k cpf dg agora s =
    (Levanta (HTTPException 400 "Usuário já possui uma conta"), s).
Proof.
  intros Hs Hq Hu Hcpf Hc Hd.
  rewrite (main_criar_conta_despacho s k cpf dg agora i u) by done.
  destruct (cons_contas s Hs _ _ Hc) as (_ & _ & Hi & _). rewrite Hd in Hi.
  unfold tentar. by erewrite criar_conta_repetida.
Qed.

(** X15: on a reachable store, opening an account through the API for a
    CPF that no stored user has is answered 404; for a user who owns an
    account it is answered 400 with the message of the engine and the
    store is left alone; for a user without an account the new account is
    returned with balance 0.0 and that user as owner, and any further
    request to open an account for that CPF is answered 400. *)
Theorem main_criar_conta_correto s tipo_conta cpf digito agora :
  alcancavel s ->
  (~ (exists i u, usuarios s !! i = Some u /\ u_cpf u = cpf) ->
   main_criar_conta tipo_conta cpf digito agora s =
     (Levanta (HTTPException 404 "Usuário não encontrado"), s)) /\
  (forall i u j c, usuarios s !! i = Some u -> u_cpf u = cpf ->
     contas s !! j = Some c -> c_usuario_id c = i ->
     main_criar_conta tipo_conta cpf digito agora s =
       (Levanta (HTTPException 400 "Usuário já possui uma conta"), s)) /\
  (forall i u, usuarios s !! i = Some u -> u_cpf u = cpf ->
     ~ (exists j c, contas s !! j = Some c /\ c_usuario_id c = i) ->
     exists c s',
       main_criar_conta tipo_conta cpf digito agora s = (Retorna c, s') /\
       c_saldo c = f_zero /\ c_usuario_id c = i /\
       c_tipo_conta c = TipoConta_value tipo_conta /\
       contas s' !! c_id c = Some c /\
       forall tipo_conta' digito' agora',
         main_criar_conta tipo_conta' cpf digito' agora' s' =
           (Levanta (HTTPException 400 "Usuário já possui uma conta"), s')).
Proof.
  intros Hr. pose proof (consistente_alcancavel s Hr) as Hs.
  pose proof (ids_sequenciais_alcancavel s Hr) as Hq.
  split; [by apply main_criar_conta_sem_usuario|]. split.
  - intros i u j c. by apply main_criar_conta_repetida.
  - intros i u Hu Hcpf Hn.
    assert (Hi : usuario_id_to_conta_id s !! i = None).
    { destruct (usuario_id_to_conta_id s !! i) as [j|] eqn:Hi; [|done].
      destruct (cons_dono s Hs _ _ Hi) as (c & Hc & Hd). destruct Hn. eauto. }
    pose proof (criar_conta_ok s i tipo_conta digito agora u Hu Hi) as Hok.
    simpl in Hok.
    eexists _, _. split.
    { rewrite (main_criar_conta_despacho s tipo_conta cpf digito agora i u)
        by done.
      unfold tentar. rewrite Hok. reflexivity. }
    simpl. split; [done|]. split; [done|]. split; [done|].
    split; [by rewrite lookup_insert_eq|].
    intros k' dg' t'.
    pose proof (alcancavel_passo s (AbrirConta i tipo_conta digito agora) Hr)
      as Hr'.
    simpl in Hr'. rewrite Hok in Hr'. simpl in Hr'.
    eapply (main_criar_conta_repetida _ k' cpf dg' t' i u);
      [by apply consistente_alcancavel|by apply ids_sequenciais_alcancavel
      |done|done| |].
    + simpl. apply lookup_insert_eq.
    + done.
Qed.

(** X16: on a reachable store, [obter_minha_conta] returns the account
    owned by the stored user with that CPF, is answered 404 "user not
    found" when no stored user has the CPF and 404 "account not found"
    when the user owns no account; it leaves the store alone. *)
Theorem obter_minha_conta_correto s cpf :
  alcancavel s ->
  (~ (exists i u, usuarios s !! i = Some u /\ u_cpf u = cpf) ->
   obter_minha_conta cpf s =
     (Levanta (HTTPException 404 "Usuário não encontrado"), s)) /\
  (forall i u, usuarios s !! i = Some u -> u_cpf u = cpf ->
     ~ (exists j c, contas s !! j = Some c /\ c_usuario_id c = i) ->
     obter_minha_conta cpf s =
       (Levanta (HTTPException 404
                   "Conta não encontrada. Crie uma conta primeiro."), s)) /\
  (forall i u j c, usuarios s !! i = Some u -> u_cpf u = cpf ->
     contas s !! j = Some c -> c_usuario_id c = i ->
     obter_minha_conta cpf s = (Retorna c, s)).
Proof.
  intros Hr. pose proof (consistente_alcancavel s Hr) as Hs.
  pose proof (ids_sequenciais_alcancavel s Hr) as Hq.
  split; [|split].
  - intros Hn. unfold obter_minha_conta, mbind, Metodo_bind, ligar.
    by rewrite obter_usuario_por_cpf_ausente.
  - intros i u Hu Hcpf Hn. unfold obter_minha_conta, mbind, Metodo_bind, ligar.
    rewrite (obter_usuario_por_cpf_achado s cpf i u) by done.
    destruct (cons_usuarios s Hs _ _ Hu) as [Hid _].
    rewrite obter_conta_por_usuario_ausente; [done|done|by rewrite Hid].
  - intros i u j c Hu Hcpf Hc Hd.
    unfold obter_minha_conta, mbind, Metodo_bind, ligar.
    rewrite (obter_usuario_por_cpf_achado s cpf i u) by done.
    destruct (cons_usuarios s Hs _ _ Hu) as [Hid _].
    by rewrite (obter_conta_por_usuario_achada s (u_id u) j c) by congruence.
Qed.

(** *** The statement through the API *)

Lemma obter_estatisticas_extrato s i :
  consistente s ->
  obter_estatisticas_conta i s =
    (Retorna {| total_depositos :=
                  f_round2 (total_por_tipo DEPOSITO f_zero (extrato s i));
                total_saques :=
                  f_round2 (total_por_tipo SAQUE f_zero (extrato s i));
                quantidade_transacoes := Z.of_nat (length (extrato s i)) |}, s).
Proof.
  intros Hs. unfold obter_estatisticas_conta.
  unfold mbind at 1, Metodo_bind at 1, ligar.
  rewrite obter_transacoes_extrato by done. unfold retornar, sum.
  by rewrite !sum_total_por_tipo.
Qed.

Lemma validar_transacoes_Retorna (l l' : list (@transacao M)) :
  validar_transacoes l = Retorna l' ->
  Forall2 (fun t t' => Transacao_validar t = Retorna t') l l'.
Proof.
  revert l'. induction l as [|t l IH]; intros l'; simpl.
  - intros [= <-]. constructor.
  - destruct (Transacao_validar t) as [t'|] eqn:Ht; [|discriminate].
    destruct (validar_transacoes l) as [l''|]; [|discriminate].
    intros [= <-]. constructor; [done|by apply IH].
Qed.

Lemma Transacao_validar_Levanta t e :
  Transacao_validar t = Levanta e ->
  e = ValidationError "valor" \/ e = ValidationError "descricao".
Proof.
  unfold Transacao_validar.
  destruct (TransacaoCreate_validar (t_valor t) (t_descricao t)) eqn:Hx;
    [discriminate|].
  intros [= <-]. by eapply TransacaoCreate_validar_Levanta.
Qed.

Lemma Transacao_validar_nao_positivo t :
  f_lt f_zero (t_valor t) = false -> exists e, Transacao_validar t = Levanta e.
Proof.
  intros Hv. unfold Transacao_validar, TransacaoCreate_validar.
  rewrite Hv. simpl. by eexists.
Qed.

Lemma Transacao_validar_campos t t' :
  Transacao_validar t = Retorna t' ->
  t_id t' = t_id t /\ t_conta_id t' = t_conta_id t /\ t_tipo t' = t_tipo t /\
  t_valor t' = f_round2 (t_valor t) /\ t_descricao t' = t_descricao t /\
  t_saldo_anterior t' = t_saldo_anterior t /\
  t_saldo_posterior t' = t_saldo_posterior t /\
  t_data_transacao t' = t_data_transacao t /\
  f_lt f_zero (t_valor t) = true.
Proof.
  unfold Transacao_validar.
  destruct (TransacaoCreate_validar (t_valor t) (t_descricao t)) as [x|] eqn:Hx;
    [|discriminate].
  intros [= <-]. simpl.
  destruct (TransacaoCreate_validar_Retorna _ _ _ Hx) as (H1 & _ & H2 & H3).
  by repeat split.
Qed.

Lemma validar_transacoes_falha (l : list (@transacao M)) t e0 :
  t ∈ l -> Transacao_validar t = Levanta e0 ->
  exists e, validar_transacoes l = Levanta e /\
            (e = ValidationError "valor" \/ e = ValidationError "descricao").
Proof.
  induction l as [|t0 l IH]; [by intros ?%elem_of_nil|].
  intros Hin Ht. simpl.
  destruct (Transacao_validar t0) as [t0'|e1] eqn:H0.
  - apply elem_of_cons in Hin as [->|Hin]; [congruence|].
    destruct (IH Hin Ht) as (e & -> & He). by exists e.
  - exists e1. split; [done|]. by eapply Transacao_validar_Levanta.
Qed.

Lemma obter_extrato_despacho s cpf i u j c :
  consistente s -> ids_sequenciais s ->
  usuarios s !! i = Some u -> u_cpf u = cpf ->
  contas s !! j = Some c -> c_usuario_id c = i ->
  obter_extrato cpf s =
    (match validar_transacoes (extrato s j) with
     | Levanta e => Levanta e
     | Retorna respostas =>
         Retorna
           {| e_conta := c;
              e_transacoes := respostas;
              e_total_depositos :=
                f_round2 (total_por_tipo DEPOSITO f_zero (extrato s j));
              e_total_saques :=
                f_round2 (total_por_tipo SAQUE f_zero (extrato s j));
              e_quantidade_transacoes := Z.of_nat (length (extrato s j)) |}
     end, s).
Proof.
  intros Hs Hq Hu Hcpf Hc Hd. unfold obter_extrato.
  unfold mbind at 1, Metodo_bind at 1, ligar at 1.
  rewrite (obter_usuario_por_cpf_achado s cpf i u) by done.
  unfold mbind at 1, Metodo_bind at 1, ligar at 1.
  destruct (cons_usuarios s Hs _ _ Hu) as [Hid _].
  rewrite (obter_conta_por_usuario_achada s (u_id u) j c) by congruence.
  destruct (cons_contas s Hs _ _ Hc) as [Hcid _]. rewrite Hcid.
  unfold mbind at 1, Metodo_bind at 1, ligar at 1.
  rewrite obter_transacoes_extrato by done.
  unfold mbind at 1, Metodo_bind at 1, ligar at 1.
  rewrite obter_estatisticas_extrato by done.
  by destruct (validar_transacoes (extrato s j)).
Qed.

(** X17: on a reachable store, for the stored user with the given CPF and
    the account that user owns, [obter_extrato] leaves the store alone and
    - when every listed transaction has an amount [> 0] that the response
      model accepts, returns the account, one response per listed
      transaction, in the same order and with the same id and balances,
      the two totals of [obter_estatisticas_conta] and the number of
      listed transactions;
    - when some listed transaction has an amount that is not [> 0], raises
      a validation error: the statement cannot be produced. *)
Theorem obter_extrato_correto s cpf i u j c :
  alcancavel s ->
  usuarios s !! i = Some u -> u_cpf u = cpf ->
  contas s !! j = Some c -> c_usuario_id c = i ->
  exists l,
    obter_transacoes_por_conta j s = (Retorna l, s) /\
    (forall respostas, validar_transacoes l = Retorna respostas ->
       obter_extrato cpf s =
         (Retorna {| e_conta := c;
                     e_transacoes := respostas;
                     e_total_depositos :=
                       f_round2 (total_por_tipo DEPOSITO f_zero l);
                     e_total_saques :=
                       f_round2 (total_por_tipo SAQUE f_zero l);
                     e_quantidade_transacoes := Z.of_nat (length l) |}, s) /\
       Forall2 (fun t t' =>
                  t_id t' = t_id t /\ t_tipo t' = t_tipo t /\
                  t_valor t' = f_round2 (t_valor t) /\
                  t_saldo_anterior t' = t_saldo_anterior t /\
                  t_saldo_posterior t' = t_saldo_posterior t /\
                  f_lt f_zero (t_valor t) = true) l respostas) /\
    (forall t, t ∈ l -> f_lt f_zero (t_valor t) = false ->
       exists e, obter_extrato cpf s = (Levanta e, s) /\
                 (e = ValidationError "valor" \/
                  e = ValidationError "descricao")).
Proof.
  intros Hr Hu Hcpf Hc Hd. pose proof (consistente_alcancavel s Hr) as Hs.
  pose proof (ids_sequenciais_alcancavel s Hr) as Hq.
  exists (extrato s j). split; [by apply obter_transacoes_extrato|].
  rewrite (obter_extrato_despacho s cpf i u j c) by done. split.
  - intros respostas Hv. rewrite Hv. split; [done|].
    apply validar_transacoes_Retorna in Hv.
    eapply Forall2_impl; [exact Hv|]. intros t t' Ht. simpl in Ht.
    apply Transacao_validar_campos in Ht. tauto.
  - intros t Hin Hv.
    destruct (Transacao_validar_nao_positivo t Hv) as [e0 He0].
    destruct (validar_transacoes_falha _ _ _ Hin He0) as (e & -> & He).
    by exists e.
Qed.

(** ** Histories of requests *)

Lemma realizar_transacao_estado s tipo v d cpf agora :
  consistente s -> ids_sequenciais s ->
  snd (realizar_transacao tipo v d cpf agora s) = s \/
  exists j, f_lt f_zero v = true /\
    snd (realizar_transacao tipo v d cpf agora s) =
      executar s (Transacionar j tipo (f_round2 v) d agora).
Proof.
  intros Hs Hq.
  destruct (TransacaoCreate_validar v d) as [x|e] eqn:Hx.
  2:{ left. unfold realizar_transacao. by rewrite Hx. }
  destruct (TransacaoCreate_validar_Retorna v d x Hx) as (Hpos & _ & Hv & Hdx).
  destruct (cpf_to_usuario_id s !! cpf) as [i|] eqn:Hi.
  2:{ left. unfold realizar_transacao. rewrite Hx.
      unfold mbind at 1, Metodo_bind at 1, ligar at 1.
      rewrite obter_usuario_por_cpf_indice. by rewrite Hi. }
  destruct (proj1 (cons_cpf s Hs cpf i) Hi) as (u & Hu & Hcpf).
  destruct (cons_usuarios s Hs _ _ Hu) as [Hid _].
  destruct (usuario_id_to_conta_id s !! i) as [j|] eqn:Hj.
  2:{ left. unfold realizar_transacao. rewrite Hx.
      unfold mbind at 1, Metodo_bind at 1, ligar at 1.
      rewrite (obter_usuario_por_cpf_achado s cpf i u) by done.
      unfold mbind at 1, Metodo_bind at 1, ligar at 1.
      rewrite obter_conta_por_usuario_indice. rewrite Hid. by rewrite Hj. }
  destruct (cons_dono s Hs _ _ Hj) as (c & Hc & Hd).
  rewrite (realizar_transacao_despacho s tipo v d cpf agora x i u j c) by done.
  rewrite Hv, Hdx. unfold tentar, mbind, Metodo_bind, ligar. simpl.
  destruct (criar_transacao_casos s j tipo (f_round2 v) d agora)
    as [[_ Hy]|[(c1 & _ & _ & _ & Hy)|[(c1 & Hc1 & _ & Hi1 & _)
        |(c1 & ids & Hc1 & Hf & Hi1 & Hy)]]].
  - left. by rewrite Hy.
  - left. by rewrite Hy.
  - destruct (cons_contas s Hs _ _ Hc1) as (_ & _ & _ & [l Hl]). congruence.
  - right. exists j. split; [done|]. rewrite Hy.
    by destruct (Transacao_validar _) as [r|[]].
Qed.

Lemma main_criar_conta_estado s k cpf dg agora :
  consistente s -> ids_sequenciais s ->
  snd (main_criar_conta k cpf dg agora s) = s \/
  exists i, snd (main_criar_conta k cpf dg agora s) =
              executar s (AbrirConta i k dg agora).
Proof.
  intros Hs Hq.
  destruct (cpf_to_usuario_id s !! cpf) as [i|] eqn:Hi.
  2:{ left. unfold main_criar_conta, mbind, Metodo_bind, ligar.
      rewrite obter_usuario_por_cpf_indice. by rewrite Hi. }
  destruct (proj1 (cons_cpf s Hs cpf i) Hi) as (u & Hu & Hcpf).
  rewrite (main_criar_conta_despacho s k cpf dg agora i u) by done.
  right. exists i. simpl. unfold tentar.
  destruct (criar_conta i k dg agora s) as [[c|e] s'] eqn:Hcc; [done|].
  simpl.
  destruct (usuario_id_to_conta_id s !! i) as [j|] eqn:Hj.
  - erewrite criar_conta_repetida in Hcc by done. by injection Hcc as <- <-.
  - erewrite criar_conta_ok in Hcc by done. discriminate.
Qed.

Lemma atender_casos s p :
  consistente s -> ids_sequenciais s ->
  atender s p = s \/
  exists op, atender s p = executar s op /\ valor_do_esquema op.
Proof.
  intros Hs Hq. destruct p as [n c h t|k c d t|v d c t|v d c t]; simpl.
  - right. by exists (Registrar n c h t).
  - destruct (main_criar_conta_estado s k c d t Hs Hq) as [->|[i ->]];
      [by left|]. right. by eexists.
  - destruct (realizar_transacao_estado s DEPOSITO v d c t Hs Hq)
      as [H|(j & Hpos & H)]; [by left|].
    right. eexists. split; [exact H|]. simpl. eauto.
  - destruct (realizar_transacao_estado s SAQUE v d c t Hs Hq)
      as [H|(j & Hpos & H)]; [by left|].
    right. eexists. split; [exact H|]. simpl. eauto.
Qed.

Lemma atender_todos_snoc (ps : list (@pedido M)) p :
  atender_todos (ps ++ [p]) = atender (atender_todos ps) p.
Proof. unfold atender_todos. by rewrite foldl_app. Qed.

Lemma atender_todos_alcancavel (ps : list (@pedido M)) :
  alcancavel (atender_todos ps).
Proof.
  induction ps as [|p ps IH] using rev_ind; [apply alcancavel_inicio|].
  rewrite atender_todos_snoc.
  destruct (atender_casos (atender_todos ps) p) as [->|(op & -> & _)];
    [by apply consistente_alcancavel|by apply ids_sequenciais_alcancavel
    |done|by apply alcancavel_passo].
Qed.

Lemma estende_atender s (p : @pedido M) :
  consistente s -> ids_sequenciais s -> estende s (atender s p).
Proof.
  intros Hs Hq. destruct (atender_casos s p Hs Hq) as [->|(op & -> & _)].
  - apply estende_refl.
  - by apply estende_executar.
Qed.

Lemma estende_pedidos (ps ps' : list (@pedido M)) :
  estende (atender_todos ps) (atender_todos (ps ++ ps')).
Proof.
  induction ps' as [|p ps' IH] using rev_ind.
  - rewrite app_nil_r. apply estende_refl.
  - rewrite app_assoc, atender_todos_snoc.
    eapply estende_trans; [exact IH|].
    pose proof (atender_todos_alcancavel (ps ++ ps')) as Hr.
    apply estende_atender;
      [by apply consistente_alcancavel|by apply ids_sequenciais_alcancavel].
Qed.

(** X21: a stored transaction whose amount is not [> 0] blocks the
    statement for good.  If, after some requests, the account of a user
    lists such a transaction (as after the deposit of an amount that rounds
    to 0.00), then after any further requests [obter_extrato] for that
    user still raises a validation error. *)
Theorem extrato_indisponivel (ps ps' : list (@pedido M)) i u j c l t :
  let s := atender_todos ps in
  let s' := atender_todos (ps ++ ps') in
  usuarios s !! i = Some u ->
  contas s !! j = Some c -> c_usuario_id c = i ->
  fst (obter_transacoes_por_conta j s) = Retorna l ->
  t ∈ l -> f_lt f_zero (t_valor t) = false ->
  exists e, obter_extrato (u_cpf u) s' = (Levanta e, s') /\
            (e = ValidationError "valor" \/ e = ValidationError "descricao").
Proof.
  intros s s' Hu Hc Hd Hl Hin Hv.
  pose proof (atender_todos_alcancavel ps) as Hr. fold s in Hr.
  pose proof (atender_todos_alcancavel (ps ++ ps')) as Hr'. fold s' in Hr'.
  pose proof (consistente_alcancavel s Hr) as Hs.
  pose proof (consistente_alcancavel s' Hr') as Hs'.
  pose proof (ids_sequenciais_alcancavel s' Hr') as Hq'.
  pose proof (estende_pedidos ps ps') as He. fold s s' in He.
  rewrite obter_transacoes_extrato in Hl by done. simpl in Hl.
  injection Hl as <-.
  pose proof (est_usuarios _ _ He _ _ Hu) as Hu'.
  destruct (est_contas _ _ He _ _ Hc) as (c' & Hc' & _ & _ & _ & Hd' & _).
  rewrite (obter_extrato_despacho s' (u_cpf u) i u j c') by congruence.
  assert (Hin' : t ∈ extrato s' j).
  { destruct (est_extrato _ _ He j) as [k ->]. apply elem_of_app. by left. }
  destruct (Transacao_validar_nao_positivo t Hv) as [e0 He0].
  destruct (validar_transacoes_falha _ _ _ Hin' He0) as (e & -> & Hee).
  by exists e.
Qed.

Section Esquema.
Context `{Fin : Finitude M} `{HS : !SignLaws M} `{HF : !RoundFinite M}.

(** A request leaves the store alone or applies one core operation, whose
    amount is the rounded amount of the request. *)
Lemma atender_sinais s (p : @pedido M) :
  consistente s -> ids_sequenciais s -> saque_finito p ->
  atender s p = s \/
  exists op, atender s p = executar s op /\ valor_nao_negativo op.
Proof.
  intros Hs Hq Hp. destruct p as [n c h t|k c d t|v d c t|v d c t]; simpl.
  - right. by exists (Registrar n c h t).
  - destruct (main_criar_conta_estado s k c d t Hs Hq) as [->|[i ->]];
      [by left|]. right. by eexists.
  - destruct (realizar_transacao_estado s DEPOSITO v d c t Hs Hq)
      as [H|(j & Hpos & H)]; [by left|].
    right. eexists. split; [exact H|]. simpl.
    split; [by apply sinal_round, sinal_lt_le|done].
  - destruct (realizar_transacao_estado s SAQUE v d c t Hs Hq)
      as [H|(j & Hpos & H)]; [by left|].
    right. eexists. split; [exact H|]. simpl.
    split; [by apply sinal_round, sinal_lt_le|]. intros _.
    by apply round2_finite.
Qed.

(** X18: whatever requests the API serves (registrations, account
    openings, deposits and withdrawals, valid or not, in any order), as
    long as the amount of every withdrawal request is finite: after each
    request the balance of every account is [>= 0], and the store is one
    that the three core operations can reach.  The arithmetic is any one
    with the sign rules of [SignLaws] and in which [round(_, 2)] keeps
    finite values finite; the doubles are one ([Binary64_sinais],
    [Binary64_finitos]). *)
Theorem saldo_nunca_negativo_pela_api (ps : list (@pedido M)) (k : nat) :
  Forall saque_finito ps ->
  let s := atender_todos (take k ps) in
  alcancavel s /\
  forall i c, contas s !! i = Some c -> f_le f_zero (c_saldo c) = true.
Proof.
  intros Hf s. split; [apply atender_todos_alcancavel|]. subst s.
  apply (Forall_take _ k) in Hf. revert Hf.
  generalize (take k ps). clear ps k. intros ps.
  induction ps as [|p ps IH] using rev_ind; intros Hf.
  { intros i c Hc. simpl in Hc. by rewrite lookup_empty in Hc. }
  apply Forall_app in Hf as [Hf Hp]. rewrite Forall_singleton in Hp.
  rewrite atender_todos_snoc.
  pose proof (atender_todos_alcancavel ps) as Hr.
  destruct (atender_sinais (atender_todos ps) p) as [->|(op & -> & Hop)];
    [by apply consistente_alcancavel|by apply ids_sequenciais_alcancavel
    |done|exact (IH Hf)|].
  apply nao_negativos_executar;
    [by apply consistente_alcancavel|done|exact (IH Hf)].
Qed.

End Esquema.

(** ** Rows of the ledger *)

Lemma total_por_tipo_snoc tipo (acc : M) (l : list (@transacao M)) t :
  total_por_tipo tipo acc (l ++ [t]) =
    if String.eqb (t_tipo t) (TipoTransacao_value tipo)
    then f_add (total_por_tipo tipo acc l) (t_valor t)
    else total_por_tipo tipo acc l.
Proof.
  revert acc. induction l as [|t0 l IH]; intros acc; simpl; [done|].
  destruct (String.eqb (t_tipo t0) (TipoTransacao_value tipo)); apply IH.
Qed.

Section Linhas.
Context `{HR : !RoundLaws M}.

Lemma valor_do_esquema_arredondado op :
  valor_do_esquema op -> valor_arredondado op.
Proof.
  destruct op as [| |j tipo w d t]; simpl; try done.
  intros (v & -> & _). apply round2_idem.
Qed.

Lemma linhas_coerentes_executar s op :
  alcancavel s -> valor_arredondado op ->
  linhas_coerentes s -> linhas_coerentes (executar s op).
Proof.
  intros Hr Hv Hl. pose proof (consistente_alcancavel s Hr) as Hs.
  destruct (executar_casos s op)
    as [->|[(n & cpf & h & t & _ & _ & ->)
          |[(uid & k & dg & t & u & _ & Hu & Hi & ->)
          |(cid & tipo & w & d & t & c & -> & Hc & Hf & [Hi|(ids & Hi & ->)])]]];
    try done.
  - destruct (cons_contas s Hs _ _ Hc) as (_ & _ & _ & [l Hx]). congruence.
  - intros tid t'. simpl. rewrite lookup_insert. case_decide as Hd; [|apply Hl].
    intros [= <-]. simpl. simpl in Hv.
    destruct (encadeado_alcancavel s Hr _ _ Hc) as [Hfix _].
    rewrite Hv, Hfix. destruct tipo; simpl; [by left|].
    right. split; [done|]. split; [by apply Hf|done].
Qed.

(** X19: every row of the ledger can be checked on its own.  Along a
    history of core operations whose amounts have two decimals, and along
    any history of API requests, every stored transaction is a deposit
    whose balance-after is [round(before + amount, 2)], or a withdrawal
    whose amount is not above its balance-before and whose balance-after
    is [round(before - amount, 2)], for the amount and balances it records.
    The arithmetic is any one in which [round(_, 2)] leaves 0.0 and its
    own results as they are. *)
Theorem linhas_do_extrato_coerentes :
  (forall ops, Forall valor_arredondado ops ->
     linhas_coerentes (executar_todas ops)) /\
  (forall ps : list (@pedido M), linhas_coerentes (atender_todos ps)).
Proof.
  split.
  - intros ops. induction ops as [|op ops IH] using rev_ind; intros Hf.
    { intros tid t Ht. simpl in Ht. by rewrite lookup_empty in Ht. }
    apply Forall_app in Hf as [Hf Hop]. rewrite Forall_singleton in Hop.
    rewrite executar_todas_snoc.
    apply linhas_coerentes_executar; [by eexists|done|by apply IH].
  - intros ps. induction ps as [|p ps IH] using rev_ind.
    { intros tid t Ht. simpl in Ht. by rewrite lookup_empty in Ht. }
    rewrite atender_todos_snoc.
    pose proof (atender_todos_alcancavel ps) as Hr.
    destruct (atender_casos (atender_todos ps) p) as [->|(op & -> & Hop)];
      [by apply consistente_alcancavel|by apply ids_sequenciais_alcancavel
      |exact IH|].
    apply linhas_coerentes_executar;
      [done|by apply valor_do_esquema_arredondado|exact IH].
Qed.

End Linhas.

End Complementos.

(** * The two arithmetics *)

Lemma rne_div_nonneg a b : 0 <= a -> 0 < b -> 0 <= rne_div a b.
Proof.
  intros Ha Hb. unfold rne_div.
  assert (0 <= a / b) by (apply Z.div_pos; lia).
  repeat case_match; lia.
Qed.

Lemma rne_div_exact n b : 0 < b -> rne_div (n * b) b = n.
Proof.
  intros Hb. unfold rne_div.
  rewrite Z.div_mul by lia. rewrite Z.mod_mul by lia.
  destruct (2 * 0 <? b) eqn:E; [done|]. apply Z.ltb_ge in E. lia.
Qed.

Lemma Qred_num_den k :
  Qnum (Qred (k # 100)) * 100 = k * Z.pos (Qden (Qred (k # 100))).
Proof. pose proof (Qred_correct (k # 100)) as H. unfold Qeq in H. simpl in H. lia. Qed.

Lemma round2_decimal_nonneg x : (0 <= x)%Q -> (0 <= round2_decimal x)%Q.
Proof.
  intros Hx. unfold round2_decimal. rewrite Qred_correct.
  unfold Qle in *. simpl in *.
  assert (0 <= rne_div (Qnum x * 100) (Z.pos (Qden x)))
    by (apply rne_div_nonneg; lia).
  lia.
Qed.

#[export] Instance Decimal_arredonda : RoundLaws Q.
Proof.
  split.
  - intros x. simpl. unfold round2_decimal at 1.
    set (k := rne_div (Qnum x * 100) (Z.pos (Qden x))).
    change (round2_decimal x) with (Qred (k # 100)).
    by rewrite Qred_num_den, rne_div_exact.
  - reflexivity.
Qed.

#[export] Instance Decimal_sinais : SignLaws Q.
Proof.
  split; simpl.
  - reflexivity.
  - intros v Hv. apply negb_true_iff in Hv.
    assert (~ (v <= 0)%Q) by (rewrite <- Qle_bool_iff; congruence).
    apply Qle_bool_iff. lra.
  - intros x Hx. apply Qle_bool_iff in Hx.
    by apply Qle_bool_iff, round2_decimal_nonneg.
  - intros a w Ha Hw. apply Qle_bool_iff in Ha, Hw.
    apply Qle_bool_iff. lra.
  - intros a w Ha Hw _ Hlt. apply Qle_bool_iff in Ha, Hw.
    apply negb_false_iff, Qle_bool_iff in Hlt.
    apply Qle_bool_iff. lra.
Qed.

(** ** Signs on doubles

    The sign rules on IEEE 754 doubles, from the specification of the
    operations on sign, mantissa and exponent. *)

Lemma Prim2SF_zero : Prim2SF 0%float = S754_zero false.
Proof. reflexivity. Qed.

Lemma leb_zero x : PrimFloat.leb 0%float x = nao_negativo (Prim2SF x).
Proof.
  rewrite leb_spec, Prim2SF_zero.
  by destruct (Prim2SF x) as [[]|[]| |[] m e].
Qed.

Lemma ltb_zero_leb x :
  PrimFloat.ltb 0%float x = true -> PrimFloat.leb 0%float x = true.
Proof.
  rewrite leb_spec, ltb_spec, Prim2SF_zero.
  by destruct (Prim2SF x) as [[]|[]| |[] m e].
Qed.

Lemma shr_1_nn mrs : 0 <= shr_m mrs -> 0 <= shr_m (shr_1 mrs).
Proof. destruct mrs as [m r s]. destruct m as [|[p|p|]|[p|p|]]; simpl; lia. Qed.

Lemma iter_pos_shr_1_nn p mrs :
  0 <= shr_m mrs -> 0 <= shr_m (SpecFloat.iter_pos shr_1 p mrs).
Proof.
  revert mrs. induction p as [p IH|p IH|]; intros mrs H; simpl.
  - apply IH, IH. by apply shr_1_nn.
  - by apply IH, IH.
  - by apply shr_1_nn.
Qed.

Lemma shr_fexp_nn m e l :
  0 <= m -> 0 <= shr_m (fst (shr_fexp prec emax m e l)).
Proof.
  intros H. unfold shr_fexp, shr.
  assert (H' : 0 <= shr_m (shr_record_of_loc m l)) by (by destruct l as [|[]]).
  destruct (fexp prec emax (Zdigits2 m + e) - e); simpl;
    [done|by apply iter_pos_shr_1_nn|done].
Qed.

Lemma round_nearest_even_nn m l : 0 <= m -> 0 <= round_nearest_even m l.
Proof. intros H. destruct l as [|[]]; simpl; try destruct (Z.even m); lia. Qed.

Lemma binary_round_aux_nn mx ex lx :
  0 <= mx -> nao_negativo (binary_round_aux prec emax false mx ex lx) = true.
Proof.
  intros H. unfold binary_round_aux.
  pose proof (shr_fexp_nn mx ex lx H) as H1.
  destruct (shr_fexp prec emax mx ex lx) as [mrs' e']. simpl in H1.
  pose proof (shr_fexp_nn _ e' loc_Exact
                (round_nearest_even_nn _ (loc_of_shr_record mrs') H1)) as H2.
  destruct (shr_fexp prec emax _ e' loc_Exact) as [mrs'' e'']. simpl in H2.
  destruct (shr_m mrs''); [done| |lia].
  by destruct (e'' <=? emax - prec).
Qed.

Lemma binary_normalize_nn m e :
  0 <= m -> nao_negativo (binary_normalize prec emax m e false) = true.
Proof.
  intros H. destruct m as [|p|p]; [done| |lia].
  unfold binary_normalize, binary_round.
  destruct (shl_align p e _) as [mz ez]. by apply binary_round_aux_nn.
Qed.

Lemma SFadd_nn x y :
  nao_negativo x = true -> nao_negativo y = true ->
  nao_negativo (SF64add x y) = true.
Proof.
  unfold SF64add.
  destruct x as [sx|[]| |[] mx ex], y as [sy|[]| |[] my ey];
    try done; try (by destruct sx); try (by destruct sx, sy).
  intros _ _. unfold SFadd. apply binary_normalize_nn. simpl. lia.
Qed.

Lemma digits2_pos_bounds p :
  2 ^ (Z.pos (digits2_pos p) - 1) <= Z.pos p < 2 ^ Z.pos (digits2_pos p).
Proof.
  induction p as [p IH|p IH|]; simpl digits2_pos; [| |simpl; lia].
  - rewrite Pos2Z.inj_succ.
    replace (Z.succ (Z.pos (digits2_pos p)) - 1) with
      (Z.succ (Z.pos (digits2_pos p) - 1)) by lia.
    rewrite !Z.pow_succ_r by lia. lia.
  - rewrite Pos2Z.inj_succ.
    replace (Z.succ (Z.pos (digits2_pos p)) - 1) with
      (Z.succ (Z.pos (digits2_pos p) - 1)) by lia.
    rewrite !Z.pow_succ_r by lia. lia.
Qed.

Lemma iter_xO_dobro d m : 2 * Z.pos m <= Z.pos (Pos.iter xO m d).
Proof.
  induction d as [|d IH] using Pos.peano_ind.
  - simpl. lia.
  - rewrite Pos.iter_succ. lia.
Qed.

(** Among valid doubles, [a >= w > 0] gives aligned mantissas in that order. *)
Lemma mantissas_alinhadas ma ea mw ew :
  bounded prec emax ma ea = true -> bounded prec emax mw ew = true ->
  SFltb (S754_finite false ma ea) (S754_finite false mw ew) = false ->
  Z.pos (fst (shl_align mw ew (Z.min ea ew))) <=
  Z.pos (fst (shl_align ma ea (Z.min ea ew))).
Proof.
  unfold bounded, canonical_mantissa, fexp, SFltb, SFcompare.
  intros [Ha _]%andb_prop [Hw _]%andb_prop.
  apply Z.eqb_eq in Ha, Hw.
  pose proof (digits2_pos_bounds ma) as Ba.
  pose proof (digits2_pos_bounds mw) as Bw.
  unfold shl_align.
  destruct (Z.compare_spec ea ew) as [->|Hlt|Hgt].
  - rewrite Z.min_id, Z.sub_diag. simpl.
    destruct (Pos.compare_cont Eq ma mw) eqn:E; try done; intros _.
    + apply Pos.compare_eq in E. lia.
    + change (Pos.compare_cont Eq ma mw) with (Pos.compare ma mw) in E.
      apply Pos.compare_gt_iff in E. lia.
  - done.
  - intros _. rewrite Z.min_r by lia. rewrite Z.sub_diag.
    destruct (ew - ea) as [|d|d] eqn:Ed; [lia|lia|]. simpl.
    pose proof (iter_xO_dobro d ma) as Hd.
    assert (Hda : Z.pos (digits2_pos ma) = prec).
    { unfold emin, prec, emax in *. lia. }
    assert (Hdw : Z.pos (digits2_pos mw) <= prec).
    { unfold emin, prec, emax in *. lia. }
    rewrite Hda in Ba.
    assert (2 ^ Z.pos (digits2_pos mw) <= 2 ^ prec)
      by (apply Z.pow_le_mono_r; lia).
    replace (2 ^ prec) with (2 * 2 ^ (prec - 1)) in * by reflexivity. lia.
Qed.

Lemma is_finite_spec x : PrimFloat.is_finite x = finito (Prim2SF x).
Proof.
  unfold is_finite, is_nan, is_infinity.
  rewrite !FloatAxioms.eqb_spec, abs_spec.
  replace (Prim2SF infinity) with (S754_infinity false) by reflexivity.
  destruct (Prim2SF x) as [[]|[]| |[] m e]; simpl; try done.
  all: unfold SFeqb, SFcompare; rewrite ?Z.compare_refl, ?Pos.compare_cont_refl; try done.
Qed.

Lemma SFsub_nn x y :
  valid_binary x = true -> valid_binary y = true ->
  nao_negativo x = true -> nao_negativo y = true -> finito y = true ->
  SFltb x y = false ->
  nao_negativo (SF64sub x y) = true.
Proof.
  unfold SF64sub.
  destruct x as [sx|[]| |[] mx ex], y as [sy|[]| |[] my ey];
    try done; try (by destruct sx); try (by destruct sx, sy).
  intros Hx Hy _ _ _ Hlt. unfold SFsub. apply binary_normalize_nn.
  pose proof (mantissas_alinhadas mx ex my ey Hx Hy Hlt). simpl. lia.
Qed.

Lemma SFdiv_nn x my ey :
  nao_negativo x = true ->
  nao_negativo (SF64div x (S754_finite false my ey)) = true.
Proof.
  unfold SF64div.
  destruct x as [[]|[]| |[] mx ex]; try done. intros _. unfold SFdiv.
  destruct (SFdiv_core_binary prec emax (Z.pos mx) ex (Z.pos my) ey)
    as [[mz ez] lz] eqn:E.
  apply binary_round_aux_nn.
  unfold SFdiv_core_binary in E.
  set (s := ex - ey - _) in E.
  set (m' := match s with Z.pos _ => Z.shiftl (Z.pos mx) s
                        | 0 => Z.pos mx | Z.neg _ => 0 end) in E.
  assert (Hm : 0 <= m').
  { subst m'. destruct s; [lia| |lia]. by apply Z.shiftl_nonneg. }
  destruct (Z.div_eucl m' (Z.pos my)) as [q r] eqn:Ed.
  assert (q = m' / Z.pos my) as -> by (unfold Z.div; by rewrite Ed).
  injection E as <- _ _. apply Z.div_pos; lia.
Qed.

Lemma round2_binary64_nn x :
  nao_negativo (Prim2SF x) = true ->
  nao_negativo (Prim2SF (round2_binary64 x)) = true.
Proof.
  unfold round2_binary64. intros H.
  destruct (Prim2SF x) as [s|s| |s m e] eqn:E; rewrite ?E; try done.
  destruct s; [done|].
  match goal with |- context [if ?c then _ else _] => destruct c end;
    [|by rewrite E].
  rewrite div_spec, of_uint63_spec.
  replace (Prim2SF 100) with (S754_finite false 7036874417766400 (-46))
    by reflexivity.
  apply SFdiv_nn, binary_normalize_nn.
  apply Uint63.to_Z_bounded.
Qed.

#[export] Instance Binary64_sinais : SignLaws float.
Proof.
  split; simpl.
  - reflexivity.
  - apply ltb_zero_leb.
  - intros x. rewrite !leb_zero. apply round2_binary64_nn.
  - intros a w. rewrite !leb_zero, add_spec. apply SFadd_nn.
  - intros a w. unfold f_isfinite, Binary64_finito.
    rewrite !leb_zero, is_finite_spec, ltb_spec, sub_spec.
    apply SFsub_nn; apply Prim2SF_valid.
Qed.

#[export] Instance Decimal_finitos : RoundFinite Q.
Proof. by intros v. Qed.

(** ** Finite results on doubles

    [round(x, 2)] of a finite double is finite: the mantissa and exponent
    of the quotient by 100.0 stay far below the overflow threshold. *)

Lemma Zdigits2_limite m k : 0 <= m < 2 ^ k -> 0 <= k -> Zdigits2 m <= k.
Proof.
  intros [H0 Hk] Hk0. destruct m as [|p|p]; simpl; [lia| |lia].
  pose proof (digits2_pos_bounds p) as [Hd _].
  destruct (Z.le_gt_cases (Z.pos (digits2_pos p)) k) as [|Hgt]; [done|].
  assert (2 ^ k <= 2 ^ (Z.pos (digits2_pos p) - 1))
    by (apply Z.pow_le_mono_r; lia).
  lia.
Qed.

Lemma shr_1_div2 mrs : 0 <= shr_m mrs -> shr_m (shr_1 mrs) = shr_m mrs / 2.
Proof.
  destruct mrs as [m r s]. simpl. intros H. rewrite <- Z.div2_div.
  by destruct m as [|[p|p|]|[p|p|]].
Qed.

Lemma iter_pos_shr_1_div p mrs :
  0 <= shr_m mrs ->
  shr_m (SpecFloat.iter_pos shr_1 p mrs) = shr_m mrs / 2 ^ Z.pos p.
Proof.
  revert mrs. induction p as [p IH|p IH|]; intros mrs H; simpl SpecFloat.iter_pos.
  - pose proof (shr_1_nn mrs H) as H1.
    pose proof (iter_pos_shr_1_nn p _ H1) as H2.
    rewrite IH, IH, shr_1_div2 by done.
    rewrite !Z.div_div by lia.
    f_equal. replace (Z.pos p~1) with (1 + Z.pos p + Z.pos p) by lia.
    rewrite !Z.pow_add_r by lia. lia.
  - pose proof (iter_pos_shr_1_nn p _ H) as H2.
    rewrite IH, IH by done. rewrite !Z.div_div by lia.
    f_equal. replace (Z.pos p~0) with (Z.pos p + Z.pos p) by lia.
    rewrite !Z.pow_add_r by lia. lia.
  - by rewrite shr_1_div2.
Qed.

Lemma shr_fexp_limite mx ex lx K :
  0 <= mx < 2 ^ (K - ex) -> ex <= K -> emin <= K ->
  0 <= shr_m (fst (shr_fexp prec emax mx ex lx)) <
    2 ^ (K - snd (shr_fexp prec emax mx ex lx)) /\
  snd (shr_fexp prec emax mx ex lx) <=
    Z.max ex (Z.max (K - prec) (emin)).
Proof.
  intros Hm He Hmin. unfold shr_fexp, shr.
  assert (Hd : Zdigits2 mx <= K - ex) by (apply Zdigits2_limite; lia).
  assert (Hr : shr_m (shr_record_of_loc mx lx) = mx) by (by destruct lx as [|[]]).
  destruct (fexp prec emax (Zdigits2 mx + ex) - ex) as [|p|p] eqn:En; simpl;
    rewrite ?Hr; [lia| |lia].
  rewrite iter_pos_shr_1_div by lia. rewrite Hr.
  assert (Hk : 0 <= K - (ex + Z.pos p))
    by (unfold fexp, SpecFloat.emin, prec, emax in *; lia).
  split; [|unfold fexp, SpecFloat.emin, prec, emax in *; lia].
  split; [apply Z.div_pos; lia|].
  apply Z.div_lt_upper_bound; [lia|].
  rewrite <- Z.pow_add_r by lia.
  replace (Z.pos p + (K - (ex + Z.pos p))) with (K - ex) by lia. lia.
Qed.

Lemma round_nearest_even_limite m l :
  0 <= m -> 0 <= round_nearest_even m l <= m + 1.
Proof. intros H. destruct l as [|[]]; simpl; try destruct (Z.even m); lia. Qed.

Lemma binary_round_aux_limite s mx ex lx K :
  0 <= mx < 2 ^ (K - ex) -> ex <= K -> emin <= K ->
  Z.max ex (Z.max (K + 1 - prec) emin) <= emax - prec ->
  match binary_round_aux prec emax s mx ex lx with
  | S754_zero _ => True
  | S754_finite _ m e =>
      Z.pos m < 2 ^ (K + 1 - e) /\
      e <= Z.max ex (Z.max (K + 1 - prec) emin)
  | _ => False
  end.
Proof.
  intros Hm He Hmin Hfin. unfold binary_round_aux.
  pose proof (shr_fexp_limite mx ex lx K Hm He Hmin) as [H1 H1e].
  destruct (shr_fexp prec emax mx ex lx) as [mrs' e']. simpl in H1, H1e.
  pose proof (round_nearest_even_limite (shr_m mrs') (loc_of_shr_record mrs')
                (proj1 H1)) as Hr.
  set (m1 := round_nearest_even (shr_m mrs') (loc_of_shr_record mrs')) in *.
  assert (He' : e' <= K) by (unfold SpecFloat.emin, prec, emax in *; lia).
  assert (Hm1 : 0 <= m1 < 2 ^ (K + 1 - e')).
  { replace (K + 1 - e') with (Z.succ (K - e')) by lia.
    rewrite Z.pow_succ_r by lia. lia. }
  pose proof (shr_fexp_limite m1 e' loc_Exact (K + 1) Hm1) as [H2 H2e];
    [lia|lia|].
  destruct (shr_fexp prec emax m1 e' loc_Exact) as [mrs'' e''].
  simpl in H2, H2e.
  assert (He'' : e'' <= Z.max ex (Z.max (K + 1 - prec) emin))
    by (unfold SpecFloat.emin, prec, emax in *; lia).
  destruct (shr_m mrs'') as [|m|m]; [done| |lia].
  destruct (e'' <=? emax - prec) eqn:El.
  - split; [lia|done].
  - apply Z.leb_gt in El. lia.
Qed.

Lemma iter_xO_pow d m : Z.pos (Pos.iter xO m d) = Z.pos m * 2 ^ Z.pos d.
Proof.
  induction d as [|d IH] using Pos.peano_ind.
  - simpl. lia.
  - rewrite Pos.iter_succ, Pos2Z.inj_succ, Z.pow_succ_r by lia. lia.
Qed.

Lemma shl_align_valor mx ex ex' :
  Z.pos (fst (shl_align mx ex ex')) =
    Z.pos mx * 2 ^ (ex - snd (shl_align mx ex ex')) /\
  snd (shl_align mx ex ex') <= ex.
Proof.
  unfold shl_align. destruct (ex' - ex) as [|d|d] eqn:Ed; simpl.
  - rewrite Z.sub_diag. simpl. lia.
  - rewrite Z.sub_diag. simpl. lia.
  - rewrite iter_xO_pow. replace (ex - ex') with (Z.pos d) by lia. lia.
Qed.

Lemma binary_normalize_uint k :
  0 <= k < 2 ^ 63 ->
  match binary_normalize prec emax k 0 false with
  | S754_zero _ => True
  | S754_finite _ m e => Z.pos m < 2 ^ (64 - e) /\ e <= 11
  | _ => False
  end.
Proof.
  intros Hk. destruct k as [|p|p]; [done| |lia].
  unfold binary_normalize, binary_round.
  pose proof (shl_align_valor p 0
                (fexp prec emax (Z.pos (digits2_pos p) + 0))) as [Hv He].
  destruct (shl_align p 0 _) as [mz ez]. simpl in Hv, He.
  assert (Hm : 0 <= Z.pos mz < 2 ^ (63 - ez)).
  { rewrite Hv. split; [lia|].
    replace (63 - ez) with (63 + (0 - ez)) by lia.
    rewrite Z.pow_add_r by lia.
    apply Z.mul_lt_mono_pos_r; lia. }
  pose proof (binary_round_aux_limite false (Z.pos mz) ez loc_Exact 63 Hm) as H.
  destruct (binary_round_aux prec emax false (Z.pos mz) ez loc_Exact);
    try (apply H; unfold SpecFloat.emin, prec, emax; lia).
  destruct H as [H1 H2]; [unfold SpecFloat.emin, prec, emax; lia..|].
  split; [done|]. unfold SpecFloat.emin, prec, emax in H2. lia.
Qed.

Lemma SFdiv_cem_finito s m1 e1 :
  Z.pos m1 < 2 ^ (64 - e1) -> e1 <= 11 ->
  finito (SF64div (S754_finite s m1 e1) cem) = true.
Proof.
  intros Hm He. unfold SF64div, SFdiv, cem.
  destruct (SFdiv_core_binary prec emax (Z.pos m1) e1
              (Z.pos 7036874417766400) (-46)) as [[mz ez] lz] eqn:E.
  unfold SFdiv_core_binary in E.
  change (Zdigits2 (Z.pos 7036874417766400)) with 53 in E.
  set (e' := Z.min _ _) in E.
  assert (He' : e' <= e1 + 46) by (subst e'; lia).
  set (sh := e1 - -46 - e') in E.
  set (m' := match sh with Z.pos _ => Z.shiftl (Z.pos m1) sh
                         | 0 => Z.pos m1 | Z.neg _ => 0 end) in E.
  assert (Hm' : 0 <= m' < 2 ^ (110 - e')).
  { assert (Hs : m' = Z.pos m1 * 2 ^ sh).
    { subst m'. destruct sh as [|d|d] eqn:Es; [simpl; lia| |lia].
      by rewrite Z.shiftl_mul_pow2. }
    rewrite Hs. split; [apply Z.mul_nonneg_nonneg; [lia|apply Z.pow_nonneg; lia]|].
    replace (110 - e') with ((64 - e1) + sh) by lia.
    rewrite Z.pow_add_r by lia.
    apply Z.mul_lt_mono_pos_r; [apply Z.pow_pos_nonneg; lia|lia]. }
  destruct (Z.div_eucl m' (Z.pos 7036874417766400)) as [q r] eqn:Ed.
  assert (q = m' / Z.pos 7036874417766400) as ->
    by (unfold Z.div; by rewrite Ed).
  injection E as <- <- _.
  assert (Hq : 0 <= m' / Z.pos 7036874417766400 < 2 ^ (110 - e')).
  { split; [apply Z.div_pos; lia|].
    apply Z.le_lt_trans with m'; [|lia].
    apply Z.div_le_upper_bound; [lia|]. nia. }
  pose proof (binary_round_aux_limite (xorb s false) _ e' lz 110 Hq) as H.
  destruct (binary_round_aux prec emax (xorb s false) _ e' lz);
    try done; exfalso; apply H; unfold SpecFloat.emin, prec, emax; lia.
Qed.

Lemma SFopp_finito x : finito (SFopp x) = finito x.
Proof. by destruct x. Qed.

Lemma round2_binary64_finito x :
  PrimFloat.is_finite x = true ->
  PrimFloat.is_finite (round2_binary64 x) = true.
Proof.
  rewrite !is_finite_spec. unfold round2_binary64. intros H.
  destruct (Prim2SF x) as [s|s| |s m e] eqn:E; rewrite ?E; try done.
  match goal with |- context [if ?c then _ else _] => destruct c end;
    [|by rewrite E].
  assert (Hy : finito (Prim2SF (PrimFloat.of_uint63 (Uint63.of_Z
             (if 0 <=? e then Z.pos m * 2 ^ e * 100
              else rne_div (Z.pos m * 100) (2 ^ (- e)))) / 100)) = true).
  { rewrite div_spec, of_uint63_spec.
    replace (Prim2SF 100) with cem by reflexivity.
    pose proof (binary_normalize_uint _ (Uint63.to_Z_bounded
      (Uint63.of_Z (if 0 <=? e then Z.pos m * 2 ^ e * 100
                    else rne_div (Z.pos m * 100) (2 ^ (- e)))))) as Hn.
    destruct (binary_normalize prec emax _ 0 false) as [sz|sz| |sz mz ez];
      try done.
    destruct Hn as [H1 H2]. by apply SFdiv_cem_finito. }
  destruct s; [|done]. by rewrite opp_spec, SFopp_finito.
Qed.

#[export] Instance Binary64_finitos : RoundFinite float.
Proof. exact round2_binary64_finito. Qed.

(** * The theorems at work *)

(** Scenario A of the specification, run on doubles. *)
Example cenario_a_extrato :
  let s := executar_todas cenario_a in
  (c_saldo <$> contas s !! 1) = Some 1300%float /\
  fst (obter_estatisticas_conta 1 s) =
    Retorna {| total_depositos := 1500%float; total_saques := 200%float;
               quantidade_transacoes := 3 |} /\
  ((fun t => (t_saldo_anterior t, t_saldo_posterior t)) <$> extrato s 1) =
    [(0, 1000); (1000, 1500); (1500, 1300)]%float.
Proof. vm_compute. done. Qed.

Lemma alcancavel_conta_aberta : alcancavel (executar_todas conta_aberta).
Proof. by exists conta_aberta. Defined.

Lemma alcancavel_cenario_a : alcancavel (executar_todas cenario_a).
Proof. by exists cenario_a. Defined.

Lemma alcancavel_cenario_decimal : alcancavel (executar_todas cenario_decimal).
Proof. by exists cenario_decimal. Defined.

(** Scenario B: withdrawing 50.00 from the fresh account. *)
Lemma saque_acima_do_saldo_witness :
  let s := executar_todas conta_aberta in
  contas s !! 1 = Some conta_1 /\
  f_lt (c_saldo conta_1) 50%float = true /\
  exists s',
    criar_transacao 1 SAQUE 50%float None 2 s = (Levanta InsufficientFunds, s') /\
    s' = s /\
    contas s' !! 1 = Some conta_1 /\
    transacoes s' = transacoes s /\
    conta_id_to_transacoes s' = conta_id_to_transacoes s /\
    transacao_id_counter s' = transacao_id_counter s.
Proof.
  intros s.
  assert (Hc : contas s !! 1 = Some conta_1) by (vm_compute; reflexivity).
  assert (Hlt : f_lt (c_saldo conta_1) 50%float = true) by (vm_compute; reflexivity).
  split; [exact Hc|]. split; [exact Hlt|].
  exact (saque_acima_do_saldo s 1 50%float None 2 conta_1 Hc Hlt).
Defined.

(** Setting the balance of account 1 and of the unknown account 99. *)
Lemma atualizar_saldo_efeito_witness :
  let s := executar_todas cenario_a in
  atualizar_saldo 99 5%float s = (Retorna tt, s) /\
  exists s' c',
    atualizar_saldo 1 12.375%float s = (Retorna tt, s') /\
    contas s' !! 1 = Some c' /\ c_saldo c' = (1238 / 100)%float.
Proof.
  intros s. split.
  - pose proof (atualizar_saldo_efeito s 99 5%float) as H.
    replace (contas s !! 99) with (@None (@conta float)) in H
      by (vm_compute; reflexivity).
    exact H.
  - pose proof (atualizar_saldo_efeito s 1 12.375%float) as H.
    destruct (contas s !! 1) as [c|] eqn:Hc; [|vm_compute in Hc; discriminate].
    destruct H as (s' & c' & H1 & H2 & H3 & _).
    exists s', c'. split; [exact H1|]. split; [exact H2|].
    rewrite H3. vm_compute. reflexivity.
Defined.


(** Registering a CPF a second time, and a new one. *)
Lemma criar_usuario_correto_witness :
  let s := executar_todas conta_aberta in
  alcancavel s /\
  criar_usuario "Maria Souza" "12345678900" "hash2" 2 s =
    (Levanta DuplicateIdentity, s) /\
  exists u s',
    criar_usuario "Maria Souza" "98765432100" "hash2" 2 s = (Retorna u, s') /\
    u_id u = 2 /\ usuario_id_counter s' = 3 /\ size (usuarios s') = 2%nat.
Proof.
  intros s. pose proof alcancavel_conta_aberta as Hr. fold s in Hr.
  split; [exact Hr|]. split.
  - destruct (criar_usuario_correto s "Maria Souza" "12345678900" "hash2" 2 Hr)
      as [H _].
    apply H. eexists 1, _. vm_compute. split; reflexivity.
  - destruct (criar_usuario_correto s "Maria Souza" "98765432100" "hash2" 2 Hr)
      as [_ H].
    destruct H as (u & s' & H1 & H2 & H3 & _ & _ & H4 & H5 & _).
    + intros (i & u & Hu & Hcpf).
      assert (Hi : cpf_to_usuario_id s !! "98765432100" = Some i).
      { apply (cons_cpf s (consistente_alcancavel s Hr)). eauto. }
      vm_compute in Hi. discriminate.
    + exists u, s'. split; [exact H1|]. split; [rewrite H3; reflexivity|].
      split; [rewrite H5; reflexivity|]. rewrite H4. reflexivity.
Defined.

(** Opening an account for an unknown user, for a user who has one, and
    for a user who has none. *)
Lemma criar_conta_correto_witness :
  let s := executar_todas dois_usuarios in
  alcancavel s /\
  criar_conta 99 POUPANCA 3 5 s = (Levanta UnknownUser, s) /\
  criar_conta 1 POUPANCA 3 5 s = (Levanta AccountAlreadyExists, s) /\
  exists c s',
    criar_conta 2 POUPANCA 3 5 s = (Retorna c, s') /\
    c_saldo c = 0%float /\ c_usuario_id c = 2 /\ c_id c = 2.
Proof.
  intros s.
  assert (Hr : alcancavel s) by (by exists dois_usuarios).
  split; [exact Hr|]. split; [|split].
  - destruct (criar_conta_correto s 99 POUPANCA 3 5 Hr) as [H _].
    apply H. vm_compute. reflexivity.
  - destruct (criar_conta_correto s 1 POUPANCA 3 5 Hr) as (_ & H & _).
    apply H.
    + vm_compute. by eexists.
    + exists 1, conta_1. vm_compute. split; reflexivity.
  - destruct (criar_conta_correto s 2 POUPANCA 3 5 Hr) as (_ & _ & H & _).
    destruct H as (c & s' & H1 & H2 & H3 & H4 & _).
    + vm_compute. by eexists.
    + intros (i & c & Hc & Hd).
      destruct (cons_contas s (consistente_alcancavel s Hr) i c Hc)
        as (_ & _ & Hi & _).
      rewrite Hd in Hi. vm_compute in Hi. discriminate.
    + exists c, s'. split; [exact H1|]. split; [exact H2|].
      split; [exact H3|]. rewrite H4. reflexivity.
Defined.

(** The statement of scenario A lists transactions 1, 2, 3. *)
Lemma obter_transacoes_por_conta_correto_witness :
  let s := executar_todas cenario_a in
  alcancavel s /\
  exists l,
    obter_transacoes_por_conta 1 s = (Retorna l, s) /\
    t_id <$> l = [1; 2; 3] /\
    StronglySorted Z.lt (t_id <$> l).
Proof.
  intros s. pose proof alcancavel_cenario_a as Hr. fold s in Hr.
  split; [exact Hr|].
  destruct (obter_transacoes_por_conta_correto s 1 Hr)
    as (l & H1 & _ & H3 & _).
  exists l. split; [exact H1|]. split; [|exact H3].
  assert (H : (fun r => match r with Retorna k => t_id <$> k | _ => [] end)
                (fst (obter_transacoes_por_conta 1 s)) = [1; 2; 3])
    by (vm_compute; reflexivity).
  rewrite H1 in H. exact H.
Defined.

(** The aggregates of scenario A. *)
Lemma obter_estatisticas_conta_correto_witness :
  let s := executar_todas cenario_a in
  alcancavel s /\
  exists l,
    obter_transacoes_por_conta 1 s = (Retorna l, s) /\
    obter_estatisticas_conta 1 s =
      (Retorna {| total_depositos := f_round2 (total_por_tipo DEPOSITO f_zero l);
                  total_saques := f_round2 (total_por_tipo SAQUE f_zero l);
                  quantidade_transacoes := Z.of_nat (length l) |}, s) /\
    fst (obter_estatisticas_conta 1 s) =
      Retorna {| total_depositos := 1500%float; total_saques := 200%float;
                 quantidade_transacoes := 3 |}.
Proof.
  intros s. pose proof alcancavel_cenario_a as Hr. fold s in Hr.
  split; [exact Hr|].
  destruct (obter_estatisticas_conta_correto s 1 Hr) as (l & H1 & H2 & _).
  exists l. split; [exact H1|]. split; [exact H2|].
  vm_compute. reflexivity.
Defined.

(** The chain of the decimal scenario: 0 -> 1000 -> 1125.12 -> 925.12. *)
Lemma extrato_reconstroi_saldo_witness :
  let s := executar_todas cenario_decimal in
  alcancavel s /\
  contas s !! 1 = Some conta_1_decimal /\
  exists l,
    obter_transacoes_por_conta 1 s = (Retorna l, s) /\
    cadeia f_zero l (c_saldo conta_1_decimal) /\
    saldo_final f_zero l = (23128 # 25)%Q.
Proof.
  intros s. pose proof alcancavel_cenario_decimal as Hr. fold s in Hr.
  assert (Hc : contas s !! 1 = Some conta_1_decimal) by (vm_compute; reflexivity).
  split; [exact Hr|]. split; [exact Hc|].
  destruct (extrato_reconstroi_saldo s 1 conta_1_decimal Hr Hc)
    as (l & H1 & H2 & H3 & _).
  exists l. split; [exact H1|]. split; [exact H2|exact H3].
Defined.

(** Balances of scenario A, on doubles, after each of its five
    operations. *)
Lemma saldo_nunca_negativo_witness :
  Forall valor_admissivel cenario_a /\
  forall k i c,
    contas (executar_todas (take k cenario_a)) !! i = Some c ->
    f_le f_zero (c_saldo c) = true.
Proof.
  assert (Hf : Forall valor_admissivel cenario_a).
  { unfold cenario_a.
    repeat (apply Forall_cons_2; [simpl; try exact I|]);
      [idtac..|by apply Forall_nil];
      (split; [vm_compute; reflexivity|intros _; vm_compute; reflexivity]). }
  split; [exact Hf|]. intros k.
  exact (proj1 (saldo_nunca_negativo cenario_a Hf k)).
Defined.

(** A deposit request of -50.00 stops at the schema. *)
Lemma valor_invalido_recusado_no_esquema_witness :
  let s := executar_todas conta_aberta in
  f_le (-50)%float f_zero = true /\
  realizar_transacao DEPOSITO (-50)%float None "12345678900" 2 s =
    (Levanta InvalidAmount, s).
Proof.
  intros s.
  assert (Hle : f_le (-50)%float f_zero = true) by (vm_compute; reflexivity).
  split; [exact Hle|].
  exact (proj1 (valor_invalido_recusado_no_esquema DEPOSITO (-50)%float None
                  "12345678900" 2 s Hle)).
Defined.

(** ** Where the code departs from the specification *)

(** [criar_transacao], called directly with a deposit of -50.00 on a fresh
    account, does not raise: it returns transaction 1, stores it, and sets
    the balance to -50.00. *)
Lemma criar_transacao_aceita_valor_negativo :
  let s := executar_todas conta_aberta in
  let r := criar_transacao 1 DEPOSITO (-50)%float None 2 s in
  f_le (f_round2 (-50)%float) f_zero = true /\
  (exists t, fst r = Retorna t /\ transacoes (snd r) !! 1 = Some t /\
             t_valor t = (-50)%float) /\
  transacoes s !! 1 = None /\
  (c_saldo <$> contas s !! 1) = Some 0%float /\
  (c_saldo <$> contas (snd r) !! 1) = Some (-50)%float.
Proof. vm_compute. repeat split. eexists. repeat split. Qed.

(** After a user is registered, an account opened and -50.00 deposited,
    the deposit has returned (it did not raise) and the balance of the
    account is below zero. *)
Lemma saldo_negativo_apos_deposito_negativo :
  let s := executar_todas conta_aberta in
  let s' := executar s (Transacionar 1 DEPOSITO (-50)%float None 2) in
  (exists t, fst (criar_transacao 1 DEPOSITO (-50)%float None 2 s) = Retorna t) /\
  exists c, contas s' !! 1 = Some c /\
            c_saldo c = (-50)%float /\
            f_le f_zero (c_saldo c) = false /\
            f_lt (c_saldo c) f_zero = true.
Proof. vm_compute. split; eexists; repeat split. Qed.

(** An amount that is positive but rounds to 0.00 passes the validation of
    the request: the deposit of 1/1024 is committed by the engine as a
    deposit of 0.00, and it is the construction of the response that then
    fails, with the transaction already stored. *)
Example deposito_que_arredonda_para_zero :
  let s := executar_todas conta_aberta in
  let r := realizar_deposito 0.0009765625%float None "12345678900" 2 s in
  fst r = Levanta (HTTPException 400 (Relatorio "valor")) /\
  exists t, transacoes (snd r) !! 1 = Some t /\ t_valor t = 0%float.
Proof. vm_compute. split; [done|]. eexists. repeat split. Qed.

(** The description is measured in characters: 101 letters [é], which
    take 202 bytes, pass [max_length=200]; 201 letters [a] do not. *)
Example descricao_contada_em_caracteres :
  let d := repetir 101 "é" in
  String.length d = 202%nat /\ len d = 101%nat /\
  TransacaoCreate_validar 10%float (Some d) =
    Retorna {| valor := 10%float; descricao := Some d |} /\
  TransacaoCreate_validar 10%float (Some (repetir 201 "a")) =
    Levanta (ValidationError "descricao").
Proof. vm_compute. done. Qed.

(** Scenario A through the handlers: the deposit of 1000.00 is answered
    with the committed transaction. *)
Example deposito_pelo_manipulador :
  let s := executar_todas conta_aberta in
  let r := realizar_deposito 1000%float None "12345678900" 2 s in
  exists t, fst r = Retorna t /\ transacoes (snd r) !! 1 = Some t /\
            t_saldo_anterior t = 0%float /\ t_saldo_posterior t = 1000%float.
Proof. vm_compute. eexists. repeat split. Qed.

(** Why the withdrawn amounts of C1 are finite ones: on doubles both
    amounts of [cenario_infinito] are [> 0], the withdrawal of [inf] from
    a balance of [inf] passes the funds test, and the balance it leaves is
    NaN, which is not [>= 0]. *)
Example saldo_nan_apos_saque_infinito :
  let s := executar_todas cenario_infinito in
  f_lt f_zero infinity = true /\
  exists c, contas s !! 1 = Some c /\
    f_le f_zero (c_saldo c) = false /\ PrimFloat.is_nan (c_saldo c) = true.
Proof. vm_compute. split; [done|]. eexists. repeat split. Qed.

(** The chain of balances on doubles, with amounts that are not doubles
    with two decimals: 0.1, 0.2 and 0.15 (0.1 + 0.2 is 0.30000000000000004). *)
Example cadeia_em_binary64 :
  let s := executar_todas
    (conta_aberta ++
     [ Transacionar 1 DEPOSITO (1 / 10)%float None 2;
       Transacionar 1 DEPOSITO (2 / 10)%float None 3;
       Transacionar 1 SAQUE (15 / 100)%float None 4 ]) in
  ((fun t => (t_saldo_anterior t, t_saldo_posterior t)) <$> extrato s 1) =
    [(0, 1 / 10); (1 / 10, 3 / 10); (3 / 10, 15 / 100)]%float /\
  (c_saldo <$> contas s !! 1) = Some (15 / 100)%float.
Proof. vm_compute. done. Qed.

(** ** The further properties at work *)

Lemma alcancavel_dois_usuarios : alcancavel (executar_todas dois_usuarios).
Proof. by exists dois_usuarios. Defined.

(** The refused withdrawal of scenario B leaves the store as it was. *)
Lemma criar_transacao_falha_atomica_witness :
  let s := executar_todas conta_aberta in
  alcancavel s /\
  criar_transacao 1 SAQUE 50%float None 2 s = (Levanta InsufficientFunds, s) /\
  (s = s /\
   ((InsufficientFunds = AccountNotFound /\ contas s !! 1 = None) \/
    (InsufficientFunds = InsufficientFunds /\ SAQUE = SAQUE /\
     exists c, contas s !! 1 = Some c /\ f_lt (c_saldo c) 50%float = true))).
Proof.
  intros s. pose proof alcancavel_conta_aberta as Hr. fold s in Hr.
  assert (Hct : criar_transacao 1 SAQUE 50%float None 2 s =
                (Levanta InsufficientFunds, s)).
  { apply (criar_transacao_saque_negado s 1 50%float None 2 conta_1);
      vm_compute; reflexivity. }
  split; [exact Hr|]. split; [exact Hct|].
  exact (criar_transacao_falha_atomica s 1 SAQUE 50%float None 2
           InsufficientFunds s Hr Hct).
Defined.

(** A deposit on the store without index: [KeyError], transaction stored. *)
Lemma criar_transacao_indice_ausente_witness :
  contas sem_indice !! 1 = Some conta_1 /\
  conta_id_to_transacoes sem_indice !! 1 = None /\
  exists s',
    criar_transacao 1 DEPOSITO 10%float None 2 sem_indice =
      (Levanta KeyError, s') /\
    is_Some (transacoes s' !! 1) /\
    transacao_id_counter s' = 2 /\
    contas s' = contas sem_indice.
Proof.
  assert (Hc : contas sem_indice !! 1 = Some conta_1) by (vm_compute; reflexivity).
  assert (Hi : conta_id_to_transacoes sem_indice !! 1 = None)
    by (vm_compute; reflexivity).
  split; [exact Hc|]. split; [exact Hi|].
  destruct (criar_transacao_indice_ausente sem_indice 1 DEPOSITO 10%float None 2
              conta_1 Hc Hi) as (s' & H1 & H2 & H3 & H4 & _); [done|].
  exists s'. split; [exact H1|]. split; [|split; [|exact H4]].
  - rewrite H2. replace (transacao_id_counter sem_indice) with 1
      by (vm_compute; reflexivity).
    rewrite lookup_insert_eq. by eexists.
  - rewrite H3. vm_compute. reflexivity.
Defined.

(** The first deposit of scenario A gets the id 1. *)
Lemma criar_transacao_aceita_witness :
  let s := executar_todas conta_aberta in
  alcancavel s /\ contas s !! 1 = Some conta_1 /\
  exists t s',
    criar_transacao 1 DEPOSITO 1000%float None 2 s = (Retorna t, s') /\
    t_id t = 1 /\ t_valor t = 1000%float /\ transacao_id_counter s' = 2.
Proof.
  intros s. pose proof alcancavel_conta_aberta as Hr. fold s in Hr.
  assert (Hc : contas s !! 1 = Some conta_1) by (vm_compute; reflexivity).
  split; [exact Hr|]. split; [exact Hc|].
  destruct (criar_transacao_aceita s 1 DEPOSITO 1000%float None 2 conta_1 Hr Hc)
    as (t & s' & H1 & H2 & _ & _ & H3 & _ & _ & _ & _ & H4); [done|].
  exists t, s'. split; [exact H1|]. split; [rewrite H2; reflexivity|].
  split; [rewrite H3; vm_compute; reflexivity|]. rewrite H4. reflexivity.
Defined.

(** The first deposit of scenario A leaves the user table alone. *)
Lemma criar_transacao_preserva_resto_witness :
  let s := executar_todas conta_aberta in
  let r := criar_transacao 1 DEPOSITO 1000%float None 2 s in
  alcancavel s /\
  exists t, r = (Retorna t, snd r) /\
    usuarios (snd r) = usuarios s /\
    cpf_to_usuario_id (snd r) = cpf_to_usuario_id s /\
    usuario_id_to_conta_id (snd r) = usuario_id_to_conta_id s.
Proof.
  intros s r. pose proof alcancavel_conta_aberta as Hr. fold s in Hr.
  split; [exact Hr|].
  destruct (fst r) as [t|e] eqn:Ht; [|vm_compute in Ht; discriminate].
  assert (Hct : r = (Retorna t, snd r)) by (rewrite <- Ht; by destruct r).
  exists t. split; [exact Hct|].
  destruct (criar_transacao_preserva_resto s 1 DEPOSITO 1000%float None 2 t
              (snd r) Hr Hct) as (H1 & H2 & H3 & _).
  split; [exact H1|]. split; [exact H2|exact H3].
Defined.

(** Scenario A uses the transaction ids 1, 2, 3 and no other. *)
Lemma ids_sem_lacunas_witness :
  let s := executar_todas cenario_a in
  alcancavel s /\
  forall i, is_Some (transacoes s !! i) <-> 1 <= i < 4.
Proof.
  intros s. pose proof alcancavel_cenario_a as Hr. fold s in Hr.
  split; [exact Hr|].
  destruct (ids_sem_lacunas s Hr) as (_ & _ & H).
  intros i. rewrite (H i).
  replace (transacao_id_counter s) with 4 by (vm_compute; reflexivity).
  reflexivity.
Defined.

(** Looking up the CPF of scenario A, and another one. *)
Lemma obter_usuario_por_cpf_correto_witness :
  let s := executar_todas conta_aberta in
  alcancavel s /\
  obter_usuario_por_cpf "12345678900" s = (Retorna (Some usuario_1), s) /\
  obter_usuario_por_cpf "00000000000" s = (Retorna None, s).
Proof.
  intros s. pose proof alcancavel_conta_aberta as Hr. fold s in Hr.
  split; [exact Hr|]. split.
  - destruct (obter_usuario_por_cpf_correto s "12345678900" Hr) as (H & _).
    apply (H 1 usuario_1); vm_compute; reflexivity.
  - destruct (obter_usuario_por_cpf_correto s "00000000000" Hr) as (_ & _ & H).
    apply H. intros (i & u & Hu & Hcpf).
    assert (Hi : cpf_to_usuario_id s !! "00000000000" = Some i).
    { apply (cons_cpf s (consistente_alcancavel s Hr)). eauto. }
    vm_compute in Hi. discriminate.
Defined.

(** The account of user 1, and of user 2, who has none. *)
Lemma obter_conta_por_usuario_correto_witness :
  let s := executar_todas dois_usuarios in
  alcancavel s /\
  obter_conta_por_usuario 1 s = (Retorna (Some conta_1), s) /\
  obter_conta_por_usuario 2 s = (Retorna None, s) /\
  obter_conta_por_usuario 99 s = (Retorna None, s).
Proof.
  intros s. pose proof alcancavel_dois_usuarios as Hr. fold s in Hr.
  split; [exact Hr|]. split; [|split].
  - destruct (obter_conta_por_usuario_correto s 1 Hr) as (H & _).
    apply (H 1 conta_1); vm_compute; reflexivity.
  - destruct (obter_conta_por_usuario_correto s 2 Hr) as (_ & H & _).
    apply H. intros (i & c & Hc & Hd).
    destruct (cons_contas s (consistente_alcancavel s Hr) i c Hc)
      as (_ & _ & Hi & _).
    rewrite Hd in Hi. vm_compute in Hi. discriminate.
  - destruct (obter_conta_por_usuario_correto s 99 Hr) as (_ & _ & H).
    apply H. vm_compute. reflexivity.
Defined.

(** Registering a second user and finding her. *)
Lemma consulta_apos_criacao_witness :
  let s := executar_todas conta_aberta in
  let r := criar_usuario "Maria Souza" "98765432100" "hash2" 2 s in
  alcancavel s /\
  exists u, r = (Retorna u, snd r) /\
    obter_usuario_por_cpf "98765432100" (snd r) = (Retorna (Some u), snd r) /\
    obter_usuario_por_id (u_id u) (snd r) = (Retorna (Some u), snd r).
Proof.
  intros s r. pose proof alcancavel_conta_aberta as Hr. fold s in Hr.
  split; [exact Hr|].
  destruct (fst r) as [u|e] eqn:Hu; [|vm_compute in Hu; discriminate].
  assert (Hcu : r = (Retorna u, snd r)) by (rewrite <- Hu; by destruct r).
  exists u. split; [exact Hcu|].
  destruct (consulta_apos_criacao s Hr) as [H _].
  exact (H "Maria Souza" "98765432100" "hash2" 2 u (snd r) Hcu).
Defined.

(** A user stored under the id 0 is not found by CPF. *)
Lemma consulta_por_indice_com_id_zero_witness :
  cpf_to_usuario_id usuario_zero !! "12345678900" = Some 0 /\
  is_Some (usuarios usuario_zero !! 0) /\
  obter_usuario_por_cpf "12345678900" usuario_zero = (Retorna None, usuario_zero).
Proof.
  assert (Hi : cpf_to_usuario_id usuario_zero !! "12345678900" = Some 0)
    by (vm_compute; reflexivity).
  split; [exact Hi|]. split; [vm_compute; by eexists|].
  exact (proj1 (consulta_por_indice_com_id_zero usuario_zero) _ Hi).
Defined.

(** The first account has the sequence 000002. *)
Lemma numero_conta_forma_witness :
  let s := executar_todas conta_aberta in
  alcancavel s /\ contas s !! 1 = Some conta_1 /\
  c_numero_conta conta_1 = "0001-000002-7" /\
  exists digito : Z,
    c_numero_conta conta_1 =
      "0001" +:+ "-" +:+ zfill 6 (pretty (1 + 1)) +:+ "-" +:+ pretty digito.
Proof.
  intros s. pose proof alcancavel_conta_aberta as Hr. fold s in Hr.
  assert (Hc : contas s !! 1 = Some conta_1) by (vm_compute; reflexivity).
  split; [exact Hr|]. split; [exact Hc|]. split; [reflexivity|].
  exact (numero_conta_forma s 1 conta_1 Hr Hc).
Defined.

Lemma alcancavel_duas_contas : alcancavel (executar_todas duas_contas).
Proof. by exists duas_contas. Defined.

(** Two accounts whose numbers end in the same drawn digit. *)
Lemma numero_conta_unico_witness :
  let s := executar_todas duas_contas in
  alcancavel s /\ contas s !! 1 = Some conta_1 /\ contas s !! 2 = Some conta_2 /\
  1 <> 2 /\ c_numero_conta conta_1 <> c_numero_conta conta_2.
Proof.
  intros s. pose proof alcancavel_duas_contas as Hr. fold s in Hr.
  assert (H1 : contas s !! 1 = Some conta_1) by (vm_compute; reflexivity).
  assert (H2 : contas s !! 2 = Some conta_2) by (vm_compute; reflexivity).
  assert (Hd : 1 <> 2) by lia.
  split; [exact Hr|]. split; [exact H1|]. split; [exact H2|].
  split; [exact Hd|].
  exact (numero_conta_unico s 1 2 conta_1 conta_2 Hr H1 H2 Hd).
Defined.

(** A withdrawal request of 5000.00 on the fresh account; a deposit for a
    user without account; a deposit for an unknown CPF. *)
Lemma realizar_transacao_erros_witness :
  let s := executar_todas dois_usuarios in
  let x := {| valor := 5000%float; descricao := None |} in
  alcancavel s /\
  TransacaoCreate_validar 5000%float None = Retorna x /\
  realizar_transacao DEPOSITO 5000%float None "00000000000" 9 s =
    (Levanta (HTTPException 404 "Usuário não encontrado"), s) /\
  realizar_transacao DEPOSITO 5000%float None "98765432100" 9 s =
    (Levanta (HTTPException 404
                "Conta não encontrada. Crie uma conta primeiro."), s) /\
  realizar_saque 5000%float None "12345678900" 9 s =
    (Levanta (HTTPException 400 "Saldo insuficiente para realizar o saque"), s).
Proof.
  intros s x. pose proof alcancavel_dois_usuarios as Hr. fold s in Hr.
  assert (Hx : TransacaoCreate_validar 5000%float None = Retorna x)
    by (vm_compute; reflexivity).
  split; [exact Hr|]. split; [exact Hx|]. split; [|split].
  - destruct (realizar_transacao_erros s DEPOSITO 5000%float None
                "00000000000" 9 x Hr Hx) as (H & _).
    apply H. intros (i & u & Hu & Hcpf).
    assert (Hi : cpf_to_usuario_id s !! "00000000000" = Some i).
    { apply (cons_cpf s (consistente_alcancavel s Hr)). eauto. }
    vm_compute in Hi. discriminate.
  - destruct (realizar_transacao_erros s DEPOSITO 5000%float None
                "98765432100" 9 x Hr Hx) as (_ & H & _).
    eapply (H 2); [vm_compute; reflexivity|reflexivity|].
    intros (j & c & Hc & Hd).
    destruct (cons_contas s (consistente_alcancavel s Hr) j c Hc)
      as (_ & _ & Hi & _).
    rewrite Hd in Hi. vm_compute in Hi. discriminate.
  - destruct (realizar_transacao_erros s SAQUE 5000%float None
                "12345678900" 9 x Hr Hx) as (_ & _ & H).
    apply (H 1 usuario_1 1 conta_1); vm_compute; reflexivity.
Defined.

(** The deposit of 1000.00 of scenario A, through the handler. *)
Lemma realizar_transacao_compromete_witness :
  let s := executar_todas conta_aberta in
  let x := {| valor := 1000%float; descricao := None |} in
  alcancavel s /\
  TransacaoCreate_validar 1000%float None = Retorna x /\
  usuarios s !! 1 = Some usuario_1 /\ contas s !! 1 = Some conta_1 /\
  exists resposta s',
    realizar_transacao DEPOSITO 1000%float None "12345678900" 2 s =
      (Retorna resposta, s') /\
    t_saldo_posterior resposta = 1000%float /\
    (c_saldo <$> contas s' !! 1) = Some 1000%float.
Proof.
  intros s x. pose proof alcancavel_conta_aberta as Hr. fold s in Hr.
  assert (Hx : TransacaoCreate_validar 1000%float None = Retorna x)
    by (vm_compute; reflexivity).
  assert (Hu : usuarios s !! 1 = Some usuario_1) by (vm_compute; reflexivity).
  assert (Hc : contas s !! 1 = Some conta_1) by (vm_compute; reflexivity).
  split; [exact Hr|]. split; [exact Hx|]. split; [exact Hu|]. split; [exact Hc|].
  destruct (realizar_transacao_compromete s DEPOSITO 1000%float None
              "12345678900" 2 x 1 usuario_1 1 conta_1 Hr Hx Hu eq_refl Hc
              eq_refl) as (t & s' & H1 & H2 & H3 & H4); [done|].
  assert (Ht : fst (criar_transacao 1 DEPOSITO (f_round2 1000%float) None 2 s)
               = Retorna t) by (by rewrite H1).
  vm_compute in Ht. injection Ht as <-.
  change (Transacao_validar _) with
    (Retorna (A:=@transacao float)
       {| t_id := 1; t_conta_id := 1; t_tipo := "deposito";
          t_valor := 1000%float; t_descricao := None;
          t_saldo_anterior := 0%float; t_saldo_posterior := 1000%float;
          t_data_transacao := 2 |}) in H4.
  destruct H4 as (H4 & _).
  eexists _, s'. split; [exact H4|]. split; [reflexivity|exact H3].
Defined.

(** Opening an account through the API, twice. *)
Lemma main_criar_conta_correto_witness :
  let s := executar_todas dois_usuarios in
  alcancavel s /\
  main_criar_conta POUPANCA "12345678900" 3 5 s =
    (Levanta (HTTPException 400 "Usuário já possui uma conta"), s) /\
  exists c s',
    main_criar_conta POUPANCA "98765432100" 3 5 s = (Retorna c, s') /\
    c_saldo c = 0%float /\ c_usuario_id c = 2 /\
    main_criar_conta CORRENTE "98765432100" 4 6 s' =
      (Levanta (HTTPException 400 "Usuário já possui uma conta"), s').
Proof.
  intros s. pose proof alcancavel_dois_usuarios as Hr. fold s in Hr.
  split; [exact Hr|]. split.
  - destruct (main_criar_conta_correto s POUPANCA "12345678900" 3 5 Hr)
      as (_ & H & _).
    apply (H 1 usuario_1 1 conta_1); vm_compute; reflexivity.
  - destruct (main_criar_conta_correto s POUPANCA "98765432100" 3 5 Hr)
      as (_ & _ & H).
    destruct (H 2 {| u_id := 2; u_nome := "Maria Souza"; u_cpf := "98765432100";
                     u_senha_hash := "hash2"; u_data_criacao := 2 |})
      as (c & s' & H1 & H2 & H3 & _ & _ & H4).
    + vm_compute. reflexivity.
    + reflexivity.
    + intros (j & c & Hc & Hd).
      destruct (cons_contas s (consistente_alcancavel s Hr) j c Hc)
        as (_ & _ & Hi & _).
      rewrite Hd in Hi. vm_compute in Hi. discriminate.
    + exists c, s'. split; [exact H1|]. split; [exact H2|].
      split; [exact H3|apply H4].
Defined.

Lemma obter_minha_conta_correto_witness :
  let s := executar_todas dois_usuarios in
  alcancavel s /\
  obter_minha_conta "12345678900" s = (Retorna conta_1, s) /\
  obter_minha_conta "98765432100" s =
    (Levanta (HTTPException 404
                "Conta não encontrada. Crie uma conta primeiro."), s).
Proof.
  intros s. pose proof alcancavel_dois_usuarios as Hr. fold s in Hr.
  split; [exact Hr|]. split.
  - destruct (obter_minha_conta_correto s "12345678900" Hr) as (_ & _ & H).
    apply (H 1 usuario_1 1 conta_1); vm_compute; reflexivity.
  - destruct (obter_minha_conta_correto s "98765432100" Hr) as (_ & H & _).
    eapply (H 2); [vm_compute; reflexivity|reflexivity|].
    intros (j & c & Hc & Hd).
    destruct (cons_contas s (consistente_alcancavel s Hr) j c Hc)
      as (_ & _ & Hi & _).
    rewrite Hd in Hi. vm_compute in Hi. discriminate.
Defined.

(** The statement of scenario A: totals 1500.00 and 200.00, 3 rows. *)
Lemma obter_extrato_correto_witness :
  let s := executar_todas cenario_a in
  alcancavel s /\ usuarios s !! 1 = Some usuario_1 /\
  exists c e,
    contas s !! 1 = Some c /\
    obter_extrato "12345678900" s = (Retorna e, s) /\
    e_conta e = c /\ c_saldo c = 1300%float /\
    e_total_depositos e = 1500%float /\ e_total_saques e = 200%float /\
    e_quantidade_transacoes e = 3.
Proof.
  intros s. pose proof alcancavel_cenario_a as Hr. fold s in Hr.
  assert (Hu : usuarios s !! 1 = Some usuario_1) by (vm_compute; reflexivity).
  split; [exact Hr|]. split; [exact Hu|].
  destruct (contas s !! 1) as [c|] eqn:Hc; [|vm_compute in Hc; discriminate].
  assert (Hd : c_usuario_id c = 1).
  { vm_compute in Hc. by injection Hc as <-. }
  assert (Hsaldo : c_saldo c = 1300%float).
  { vm_compute in Hc. by injection Hc as <-. }
  destruct (obter_extrato_correto s "12345678900" 1 usuario_1 1 c Hr Hu
              eq_refl Hc Hd) as (l & Hl & H & _).
  assert (Hl' : fst (obter_transacoes_por_conta 1 s) = Retorna l)
    by (by rewrite Hl).
  vm_compute in Hl'. injection Hl' as <-.
  destruct (H _ eq_refl) as [He _].
  eexists c, _. split; [reflexivity|]. split; [exact He|]. simpl.
  split; [reflexivity|]. split; [exact Hsaldo|].
  split; [vm_compute; reflexivity|]. split; [vm_compute; reflexivity|].
  reflexivity.
Defined.

(** After the deposit of 1/1024 the statement is not produced any more,
    here after a further deposit of 500.00. *)
Lemma extrato_indisponivel_witness :
  let s := atender_todos pedidos_milesimo in
  let s' := atender_todos
              (pedidos_milesimo ++
               [PedidoDeposito 500%float None "12345678900" 4]) in
  usuarios s !! 1 = Some usuario_1 /\
  (c_saldo <$> contas s' !! 1) = Some 1500%float /\
  exists e, obter_extrato "12345678900" s' = (Levanta e, s') /\
            (e = ValidationError "valor" \/ e = ValidationError "descricao").
Proof.
  intros s s'.
  assert (Hu : usuarios s !! 1 = Some usuario_1) by (vm_compute; reflexivity).
  split; [exact Hu|]. split; [vm_compute; reflexivity|].
  destruct (contas s !! 1) as [c|] eqn:Hc; [|vm_compute in Hc; discriminate].
  assert (Hd : c_usuario_id c = 1).
  { vm_compute in Hc. by injection Hc as <-. }
  destruct (fst (obter_transacoes_por_conta 1 s)) as [l|] eqn:Hl;
    [|vm_compute in Hl; discriminate].
  destruct (l !! 1%nat) as [t|] eqn:Ht.
  2:{ vm_compute in Hl. injection Hl as <-. discriminate. }
  assert (Hin : t ∈ l) by (by eapply list_elem_of_lookup_2).
  assert (Hv : f_lt f_zero (t_valor t) = false).
  { vm_compute in Hl. injection Hl as <-. by injection Ht as <-. }
  exact (extrato_indisponivel pedidos_milesimo
           [PedidoDeposito 500%float None "12345678900" 4]
           1 usuario_1 1 c l t Hu Hc Hd Hl Hin Hv).
Defined.

(** Balances after the requests of [pedidos_binary64]: 925.12 at the end. *)
Lemma saldo_nunca_negativo_pela_api_witness :
  let s := atender_todos (take 6 pedidos_binary64) in
  Forall saque_finito pedidos_binary64 /\
  alcancavel s /\
  exists c, contas s !! 1 = Some c /\ c_saldo c = (92512 / 100)%float /\
            f_le f_zero (c_saldo c) = true.
Proof.
  intros s.
  assert (Hf : Forall saque_finito pedidos_binary64).
  { unfold pedidos_binary64.
    repeat (apply Forall_cons_2; [simpl; try exact I|]);
      [idtac..|by apply Forall_nil]; vm_compute; reflexivity. }
  destruct (saldo_nunca_negativo_pela_api pedidos_binary64 6 Hf) as [Hr Hn].
  fold s in Hr, Hn. split; [exact Hf|]. split; [exact Hr|].
  destruct (contas s !! 1) as [c|] eqn:Hc; [|vm_compute in Hc; discriminate].
  exists c. split; [reflexivity|]. split; [|exact (Hn 1 c Hc)].
  vm_compute in Hc. by injection Hc as <-.
Defined.

(** The rows of [cenario_centavos] and of [pedidos_decimal]. *)
Lemma linhas_do_extrato_coerentes_witness :
  Forall valor_arredondado cenario_centavos /\
  linhas_coerentes (executar_todas cenario_centavos) /\
  linhas_coerentes (atender_todos pedidos_decimal).
Proof.
  assert (Hf : Forall valor_arredondado cenario_centavos).
  { unfold cenario_centavos. repeat constructor. }
  split; [exact Hf|].
  destruct (linhas_do_extrato_coerentes (M:=Q)) as [H1 H2].
  split; [exact (H1 _ Hf)|exact (H2 _)].
Defined.
